(** * A shallow embedding of [vexfile.py], the VEX file parser

    The development follows the Python module top-down: the string
    primitives the module relies on ([str.strip], [str.split], [str.join],
    [in], [str.count], [str.index], slicing), the [Entry] class with its
    line grammar, the ordered containers [Definition]/[Scan], [Section] and
    [Vex], the serializers ([__str__]) and the line-driven parser
    ([Vex.from_file]).  Exceptions are values of [PyError]; a method that
    may raise returns a [result]. *)

From Stdlib Require Import List Ascii String Bool Arith Lia DecimalString
  DecimalNat.
Import ListNotations.

Set Implicit Arguments.

(** ** Python strings

    A [str] is the list of its characters.  Text files are read in text
    mode, so the characters handled here are the decoded ones; the
    embedding works over the one-byte code points. *)

Definition pystr := list ascii.

Definition str (s : string) : list ascii := list_ascii_of_string s.
Coercion str : string >-> list.

Open Scope string_scope.
Open Scope list_scope.
Open Scope nat_scope.

Definition NL : ascii := "010"%char.
Definition DQ : ascii := "034"%char.

(** [str.isspace] on one character: TAB, LF, VT, FF, CR, FS, GS, RS, US,
    SPACE, NEL and NBSP. *)
Definition isspace (c : ascii) : bool :=
  let n := nat_of_ascii c in
  (((9 <=? n) && (n <=? 13)) || ((28 <=? n) && (n <=? 32))
   || (n =? 133) || (n =? 160))%nat.

Fixpoint lstrip (s : pystr) : pystr :=
  match s with
  | [] => []
  | c :: s' => if isspace c then lstrip s' else s
  end.

Fixpoint rstrip (s : pystr) : pystr :=
  match s with
  | [] => []
  | c :: s' =>
      match rstrip s' with
      | [] => if isspace c then [] else [c]
      | r => c :: r
      end
  end.

(** [s.strip()] *)
Definition strip (s : pystr) : pystr := rstrip (lstrip s).

(** [s.split(c)] for a one-character separator: never the empty list. *)
Fixpoint split (c : ascii) (s : pystr) : list pystr :=
  match s with
  | [] => [[]]
  | x :: s' =>
      if Ascii.eqb x c then [] :: split c s'
      else match split c s' with
           | [] => [[x]]
           | h :: t => (x :: h) :: t
           end
  end.

(** [sep.join(l)] *)
Fixpoint join (sep : pystr) (l : list pystr) : pystr :=
  match l with
  | [] => []
  | [x] => x
  | x :: l' => x ++ sep ++ join sep l'
  end.

(** [s.count(c)] for a one-character argument. *)
Fixpoint count (c : ascii) (s : pystr) : nat :=
  match s with
  | [] => 0
  | x :: s' => (if Ascii.eqb x c then 1 else 0) + count c s'
  end.

Fixpoint startswith (p s : pystr) : bool :=
  match p, s with
  | [], _ => true
  | _ :: _, [] => false
  | a :: p', b :: s' => Ascii.eqb a b && startswith p' s'
  end.

(** [p in s]: [p] occurs as a substring of [s]. *)
Fixpoint contains (p s : pystr) : bool :=
  startswith p s ||
  match s with
  | [] => false
  | _ :: s' => contains p s'
  end.

(** [s.index(c)], [None] standing for the [ValueError] of a missing
    character. *)
Fixpoint index (c : ascii) (s : pystr) : option nat :=
  match s with
  | [] => None
  | x :: s' => if Ascii.eqb x c then Some 0
               else option_map S (index c s')
  end.

(** [s[a:b]] for non-negative bounds. *)
Definition slice (a b : nat) (s : pystr) : pystr := firstn (b - a) (skipn a s).

Definition pystr_eqb (a b : pystr) : bool :=
  if list_eq_dec ascii_dec a b then true else false.

(** [str(n)] for a non-negative [int]. *)
Definition str_of_nat (n : nat) : pystr :=
  str (NilZero.string_of_uint (Nat.to_uint n)).

(** [vexfile.readlines()] on the text the file object gives, its line
    breaks already [\n]: the physical lines, each keeping its line break. *)
Fixpoint readlines (s : pystr) : list pystr :=
  match s with
  | [] => []
  | c :: s' =>
      if Ascii.eqb c NL then [c] :: readlines s'
      else match readlines s' with
           | [] => [[c]]
           | l :: ls => (c :: l) :: ls
           end
  end.

(** ** Exceptions *)

Inductive PyError : Type :=
| IndexError
| AssertionError
| AttributeError
| UnboundLocalError
| KeyError (msg : pystr)
| ValueError (msg : pystr)
| FileExistsError (msg : pystr).

Inductive result (A : Type) : Type :=
| Ok (a : A)
| Raise (e : PyError).

Arguments Ok {A} a.
Arguments Raise {A} e.

Definition bind {A B : Type} (r : result A) (f : A -> result B) : result B :=
  match r with
  | Ok a => f a
  | Raise e => Raise e
  end.

Notation "x <- r ;; k" := (bind r (fun x => k))
  (at level 61, r at next level, right associativity).

(** ** [class EntryType(Enum)] *)

Inductive EntryType : Type := comment | parameter | variable.

Definition EntryType_eqb (a b : EntryType) : bool :=
  match a, b with
  | comment, comment | parameter, parameter | variable, variable => true
  | _, _ => false
  end.

(** ** [class Entry]

    The value of an entry is a [str] or a [list] of [str]; the key is a
    [str] or [None]. *)

Inductive Value : Type :=
| VStr (s : pystr)
| VList (l : list pystr).

Record Entry : Type := mkEntry {
  e_type : EntryType;
  e_key : option pystr;
  e_value : Value
}.

(** [Entry.__init__]: the [type] setter (its [isinstance] test is settled
    by the type of [type_entry]), then the [key] setter, then [value]. *)
Definition Entry_init (type_entry : EntryType) (key : option pystr)
    (value : Value) : result Entry :=
  match type_entry, key with
  | comment, Some _ => Raise (ValueError "key must be None for comment entries")
  | _, _ => Ok (mkEntry type_entry key value)
  end.

(** [Entry.entry_from_text] *)
Definition entry_from_text (text : pystr) : result Entry :=
  match strip text with
  | [] => Raise IndexError
  | c :: rest =>
      if Ascii.eqb c "*" then Entry_init comment None (VStr rest)
      else if negb (1 <=? count "=" text)%nat then Raise AssertionError
      else
        match split "=" text with
        | [] => Raise AssertionError
        | key :: value =>
            let key := strip key in
            let value := join "=" value in
            let value := strip value in
            match last (map Some value) None with
            | None => Raise IndexError
            | Some l =>
                let value := if Ascii.eqb l ";" then removelast value
                             else value in
                kt <- (if contains "ref " key then
                         if (count "$" key =? 1)%nat then
                           Ok (strip (nth 1 (split "$" key) []), variable)
                         else Raise AssertionError
                       else Ok (key, parameter)) ;;
                let '(key, text_entry) := kt in
                let value := if contains ":" value
                             then VList (split ":" value)
                             else VStr value in
                Entry_init text_entry (Some key) value
            end
        end
  end.

(** [Entry.__str__], with [heading_spaces] defaulting to [None]. *)
Definition render_key (k : option pystr) : pystr :=
  match k with
  | Some s => s
  | None => "None"
  end.

(** [repr] of a [str] and of a [list] of [str], which an f-string applies
    to a value that is not a [str]. *)
Definition hexdigit (n : nat) : ascii :=
  nth n (str "0123456789abcdef") "0"%char.

Definition isprintable (c : ascii) : bool :=
  let n := nat_of_ascii c in
  negb ((n <? 32) || ((127 <=? n) && (n <=? 160)) || (n =? 173))%nat.

Definition repr_char (quote c : ascii) : pystr :=
  if Ascii.eqb c "\"%char then "\\"
  else if Ascii.eqb c quote then ["\"%char; c]
  else if Ascii.eqb c "009"%char then "\t"
  else if Ascii.eqb c NL then "\n"
  else if Ascii.eqb c "013"%char then "\r"
  else if isprintable c then [c]
  else let n := nat_of_ascii c in
       "\x" ++ [hexdigit (n / 16); hexdigit (n mod 16)].

Definition repr_str (s : pystr) : pystr :=
  let quote := if contains "'" s && negb (contains [DQ] s)
               then DQ else "'"%char in
  [quote] ++ flat_map (repr_char quote) s ++ [quote].

Definition repr_list (l : list pystr) : pystr :=
  "[" ++ join ", " (map repr_str l) ++ "]".

(** The value as an f-string shows it. *)
Definition format_value (v : Value) : pystr :=
  match v with
  | VStr s => s
  | VList l => repr_list l
  end.

(** [':'.join(self.value)] for a list, the string itself otherwise. *)
Definition render_value (v : Value) : pystr :=
  match v with
  | VStr s => s
  | VList l => join ":" l
  end.

Definition Entry_str (self : Entry) (heading_spaces : option nat) : pystr :=
  let s := match heading_spaces with
           | None => repeat " "%char 5
           | Some n => repeat " "%char n
           end in
  match e_type self with
  | comment => "*" ++ format_value (e_value self) ++ [NL]
  | variable =>
      s ++ "ref $" ++ render_key (e_key self) ++ " = "
        ++ render_value (e_value self) ++ ";" ++ [NL]
  | parameter =>
      s ++ render_key (e_key self) ++ " = "
        ++ render_value (e_value self) ++ ";" ++ [NL]
  end.

Definition Entry_to_string (self : Entry) (heading_spaces : option nat) : pystr :=
  Entry_str self heading_spaces.

(** ** [OrderedDict]

    An insertion-ordered dictionary is the list of its items, a key
    occurring once.  Keys are the Python objects used as keys here: a
    [str] or [None]. *)

Definition pykey := option pystr.

Definition pykey_eqb (a b : pykey) : bool :=
  match a, b with
  | Some x, Some y => pystr_eqb x y
  | None, None => true
  | _, _ => false
  end.

Section OrderedDict.
Variable V : Type.

Definition odict := list (pykey * V).

(** [d[k]], [None] when the key is absent. *)
Fixpoint od_get (k : pykey) (d : odict) : option V :=
  match d with
  | [] => None
  | (k', v) :: d' => if pykey_eqb k k' then Some v else od_get k d'
  end.

(** [k in d] *)
Definition od_mem (k : pykey) (d : odict) : bool :=
  match od_get k d with
  | Some _ => true
  | None => false
  end.

(** [d[k] = v]: an existing key keeps its place, a new key goes last. *)
Fixpoint od_set (k : pykey) (v : V) (d : odict) : odict :=
  match d with
  | [] => [(k, v)]
  | (k', v') :: d' =>
      if pykey_eqb k k' then (k', v) :: d' else (k', v') :: od_set k v d'
  end.

Definition od_keys (d : odict) : list pykey := map fst d.
Definition od_values (d : odict) : list V := map snd d.
End OrderedDict.

(** The key [f'comment-{n}'] of the [n]-th comment of a container. *)
Definition comment_key (n : nat) : pykey := Some ("comment-" ++ str_of_nat n).

(** ** [class Definition(OrderedDict)] and [class Scan(Definition)]

    A key of [_entries] holds one [Entry] or a [list] of them.  The two
    classes differ in [__str__] only; [d_class] is the class of the
    object. *)

Inductive EntryOrList : Type :=
| One (e : Entry)
| Many (l : list Entry).

Inductive BlockClass : Type := DefinitionClass | ScanClass.

Record VexDefinition : Type := mkDefinition {
  d_class : BlockClass;
  d_name : pystr;
  d_entries : odict EntryOrList;
  d_number_comments : nat
}.

(** [Definition(name)] and [Scan(name)], [list_of_entries] left to [None]. *)
Definition Definition_init (name : pystr) : VexDefinition :=
  mkDefinition DefinitionClass name [] 0.

Definition Scan_init (name : pystr) : VexDefinition :=
  mkDefinition ScanClass name [] 0.

(** [Definition.add_entry] *)
Definition add_entry (self : VexDefinition) (new_entry : Entry) : VexDefinition :=
  match e_type new_entry with
  | comment =>
      let n := S (d_number_comments self) in
      mkDefinition (d_class self) (d_name self)
        (od_set (comment_key n) (One new_entry) (d_entries self)) n
  | _ =>
      let k := e_key new_entry in
      let stored :=
        match od_get k (d_entries self) with
        | Some (Many l) => Many (l ++ [new_entry])
        | Some (One e) => Many [e; new_entry]
        | None => One new_entry
        end in
      mkDefinition (d_class self) (d_name self)
        (od_set k stored (d_entries self)) (d_number_comments self)
  end.

Definition entries_str (d : odict EntryOrList) : pystr :=
  flat_map (fun an_entry =>
              match an_entry with
              | Many l => flat_map (fun an_entry2 => Entry_to_string an_entry2 None) l
              | One e => Entry_to_string e None
              end) (od_values d).

(** [Definition.__str__] *)
Definition Definition_str (self : VexDefinition) : pystr :=
  "def " ++ d_name self ++ ";" ++ [NL]
    ++ entries_str (d_entries self) ++ "enddef;" ++ [NL].

(** [Scan.__str__] *)
Definition Scan_str (self : VexDefinition) : pystr :=
  "scan " ++ d_name self ++ ";" ++ [NL]
    ++ entries_str (d_entries self) ++ "endscan;" ++ [NL].

(** [to_string] of either class calls the [__str__] of the object's class. *)
Definition Definition_to_string (self : VexDefinition) : pystr :=
  match d_class self with
  | DefinitionClass => Definition_str self
  | ScanClass => Scan_str self
  end.

(** ** [class Section] *)

Inductive SectionChild : Type :=
| SDefinition (d : VexDefinition)
| SEntry (e : Entry).

Record VexSection : Type := mkSection {
  s_name : pystr;
  s_definitions : odict SectionChild;
  s_number_comments : nat
}.

Definition Section_init (name : pystr) : VexSection := mkSection name [] 0.

(** [Section.add_definition] *)
Definition add_definition (self : VexSection) (new_definition : SectionChild)
    : VexSection :=
  match new_definition with
  | SDefinition d =>
      mkSection (s_name self)
        (od_set (Some (d_name d)) new_definition (s_definitions self))
        (s_number_comments self)
  | SEntry e =>
      match e_type e with
      | comment =>
          let n := S (s_number_comments self) in
          mkSection (s_name self)
            (od_set (comment_key n) new_definition (s_definitions self)) n
      | _ =>
          mkSection (s_name self)
            (od_set (e_key e) new_definition (s_definitions self))
            (s_number_comments self)
      end
  end.

Definition SectionChild_to_string (c : SectionChild) : pystr :=
  match c with
  | SDefinition d => Definition_to_string d
  | SEntry e => Entry_to_string e None
  end.

(** [Section.__str__] *)
Definition Section_str (self : VexSection) : pystr :=
  "$" ++ s_name self ++ ";" ++ [NL]
    ++ flat_map SectionChild_to_string (od_values (s_definitions self)).

Definition Section_to_string (self : VexSection) : pystr := Section_str self.

(** ** [class Vex] *)

Inductive VexChild : Type :=
| VSection (s : VexSection)
| VDefinition (d : VexDefinition)
| VEntry (e : Entry).

Record Vex : Type := mkVex {
  v_name : pystr;
  v_sections : odict VexChild;
  v_number_comments : nat
}.

(** [Vex(name)], [vexfile] left to [None]. *)
Definition Vex_init (name : pystr) : Vex := mkVex name [] 0.

(** [Vex.add_section] *)
Definition add_section (self : Vex) (a_section : VexChild) : Vex :=
  match a_section with
  | VSection s =>
      mkVex (v_name self)
        (od_set (Some (s_name s)) a_section (v_sections self))
        (v_number_comments self)
  | VDefinition d =>
      mkVex (v_name self)
        (od_set (Some (d_name d)) a_section (v_sections self))
        (v_number_comments self)
  | VEntry e =>
      match e_type e with
      | comment =>
          let n := S (v_number_comments self) in
          mkVex (v_name self)
            (od_set (comment_key n) a_section (v_sections self)) n
      | _ =>
          mkVex (v_name self)
            (od_set (e_key e) a_section (v_sections self))
            (v_number_comments self)
      end
  end.

Definition VexChild_to_string (c : VexChild) : pystr :=
  match c with
  | VEntry e => Entry_to_string e (Some 0)
  | VSection s => Section_to_string s
  | VDefinition d => Definition_to_string d
  end.

(** [Vex.__str__] *)
Definition Vex_str (self : Vex) : pystr :=
  flat_map VexChild_to_string (od_values (v_sections self)).

Definition Vex_to_string (self : Vex) : pystr := Vex_str self.

(** ** [Vex.to_file]

    The file system maps a path to the content of the file there.  The
    variable [newfile] is local to the method and is bound by the [with]
    statement only; reading it earlier raises [UnboundLocalError]. *)

Definition FileSystem := pystr -> option pystr.

Definition os_path_exists (fs : FileSystem) (path : pystr) : bool :=
  match fs path with
  | Some _ => true
  | None => false
  end.

Definition fs_write (fs : FileSystem) (path data : pystr) : FileSystem :=
  fun p => if pystr_eqb p path then Some data else fs p.

Definition read_local (x : option pystr) : result pystr :=
  match x with
  | Some v => Ok v
  | None => Raise UnboundLocalError
  end.

Definition to_file (self : Vex) (filename : pystr) (overwrite : bool)
    (fs : FileSystem) : result unit * FileSystem :=
  let newfile : option pystr := None in
  let guard :=
    if negb overwrite
    then (p <- read_local newfile ;; Ok (os_path_exists fs p, p))
    else Ok (false, []) in
  match guard with
  | Raise e => (Raise e, fs)
  | Ok (true, p) =>
      (Raise (FileExistsError (p ++ " exists and will not be overwrite")), fs)
  | Ok (false, _) => (Ok tt, fs_write fs filename (Vex_to_string self))
  end.

(** ** [Vex.from_file]

    The state of the loop over [vexlines]: the object under construction
    and the three local variables. *)

Record ParserState : Type := mkState {
  st_self : Vex;
  prev_line : option pystr;
  current_section : option VexSection;
  current_definition : option VexDefinition
}.

Definition set_prev_line (st : ParserState) (p : option pystr) : ParserState :=
  mkState (st_self st) p (current_section st) (current_definition st).

(** Where an entry goes: the open definition, else the open section, else
    the [Vex] object itself. *)
Definition route_entry (st : ParserState) (e : Entry) : ParserState :=
  match current_definition st, current_section st with
  | Some d, _ =>
      mkState (st_self st) (prev_line st) (current_section st)
        (Some (add_entry d e))
  | None, Some s =>
      mkState (st_self st) (prev_line st)
        (Some (add_definition s (SEntry e))) None
  | None, None =>
      mkState (add_section (st_self st) (VEntry e)) (prev_line st) None None
  end.

Definition name_upto_semicolon (start : nat) (currentline : pystr)
    : result pystr :=
  match index ";" currentline with
  | Some i => Ok (slice start i currentline)
  | None => Raise (ValueError "substring not found")
  end.

(** [enddef] and [endscan]: the open definition goes to the open section. *)
Definition close_definition (st : ParserState) (msg : pystr)
    : result ParserState :=
  match current_definition st with
  | None => Raise (ValueError msg)
  | Some d =>
      match current_section st with
      | None => Raise AttributeError
      | Some s =>
          Ok (mkState (st_self st) (prev_line st)
                (Some (add_definition s (SDefinition d))) None)
      end
  end.

(** [def] and [scan]: a definition opens unless one is open. *)
Definition open_definition (st : ParserState)
    (init : pystr -> VexDefinition) (start : nat) (currentline : pystr)
    : result ParserState :=
  match current_definition st with
  | Some _ => Raise (ValueError "A definition inside a definition is not supported")
  | None =>
      name <- name_upto_semicolon start currentline ;;
      Ok (mkState (st_self st) (prev_line st) (current_section st)
            (Some (init name)))
  end.

(** A complete line, stripped: the chain of tests on its first characters. *)
Definition dispatch (st : ParserState) (currentline : pystr)
    : result ParserState :=
  match currentline with
  | [] => Raise IndexError
  | c :: _ =>
      if Ascii.eqb c "$" then
        let self' := match current_section st with
                     | Some s => add_section (st_self st) (VSection s)
                     | None => st_self st
                     end in
        name <- name_upto_semicolon 1 currentline ;;
        Ok (mkState self' (prev_line st) (Some (Section_init name))
              (current_definition st))
      else if pystr_eqb (firstn 4 currentline) "def " then
        open_definition st Definition_init 4 currentline
      else if pystr_eqb (firstn 6 currentline) "enddef" then
        close_definition st "enddef without a previous def"
      else if pystr_eqb (firstn 5 currentline) "scan " then
        open_definition st Scan_init 5 currentline
      else if pystr_eqb (firstn 7 currentline) "endscan" then
        close_definition st "endscan without a previous scan"
      else
        e <- entry_from_text currentline ;;
        Ok (route_entry st e)
  end.

(** The body of the loop, for one physical line. *)
Definition step (st : ParserState) (vexline : pystr) : result ParserState :=
  let currentline := vexline in
  match strip currentline with
  | [] => Raise IndexError
  | c :: _ =>
      if Ascii.eqb c "*" then
        e <- entry_from_text currentline ;;
        Ok (route_entry st e)
      else if negb (contains ";" currentline) then
        match prev_line st with
        | None => Ok (set_prev_line st (Some currentline))
        | Some p => Ok (set_prev_line st (Some (p ++ currentline)))
        end
      else
        match prev_line st with
        | Some p => dispatch (set_prev_line st None) (strip (p ++ currentline))
        | None => dispatch st (strip currentline)
        end
  end.

Fixpoint parse_lines (st : ParserState) (vexlines : list pystr)
    : result ParserState :=
  match vexlines with
  | [] => Ok st
  | vexline :: rest => st' <- step st vexline ;; parse_lines st' rest
  end.

Definition initial_state (self : Vex) : ParserState :=
  mkState self None None None.

(** After the loop: the open section, if any, is added. *)
Definition finish (st : ParserState) : Vex :=
  match current_section st with
  | Some s => add_section (st_self st) (VSection s)
  | None => st_self st
  end.

(** [Vex.from_file], on the lines [vexfile.readlines()] returned. *)
Definition from_lines (self : Vex) (vexlines : list pystr) : result Vex :=
  st <- parse_lines (initial_state self) vexlines ;; Ok (finish st).

(** [Vex.from_file], on the text of the file. *)
Definition from_file (self : Vex) (text : pystr) : result Vex :=
  from_lines self (readlines text).

(** ** Notions the statements below use *)

(** The text after the first [=] of a line, as [entry_from_text] rebuilds
    it, and the value text it keeps: trimmed, the final [;] dropped. *)
Definition raw_value (text : pystr) : pystr := join "=" (tl (split "=" text)).

Definition drop_terminator (value : pystr) : pystr :=
  match last (map Some value) None with
  | Some l => if Ascii.eqb l ";" then removelast value else value
  | None => value
  end.

Definition value_text (text : pystr) : pystr :=
  drop_terminator (strip (raw_value text)).

(** A line whose first character after the leading blanks is [*]. *)
Definition is_comment_line (text : pystr) : bool :=
  match strip text with
  | c :: _ => Ascii.eqb c "*"
  | [] => false
  end.

(** Keys in the order of their first occurrence. *)
Definition add_key (seen : list pykey) (k : pykey) : list pykey :=
  if existsb (pykey_eqb k) seen then seen else seen ++ [k].

Definition first_occurrences (ks : list pykey) : list pykey :=
  fold_left add_key ks [].

(** The key under which a container files each of the items added to it,
    [n] comments having been added before. *)
Fixpoint definition_keys (n : nat) (es : list Entry) : list pykey :=
  match es with
  | [] => []
  | e :: es' =>
      match e_type e with
      | comment => comment_key (S n) :: definition_keys (S n) es'
      | _ => e_key e :: definition_keys n es'
      end
  end.

Fixpoint section_keys (n : nat) (cs : list SectionChild) : list pykey :=
  match cs with
  | [] => []
  | SDefinition d :: cs' => Some (d_name d) :: section_keys n cs'
  | SEntry e :: cs' =>
      match e_type e with
      | comment => comment_key (S n) :: section_keys (S n) cs'
      | _ => e_key e :: section_keys n cs'
      end
  end.

Fixpoint vex_keys (n : nat) (cs : list VexChild) : list pykey :=
  match cs with
  | [] => []
  | VSection s :: cs' => Some (s_name s) :: vex_keys n cs'
  | VDefinition d :: cs' => Some (d_name d) :: vex_keys n cs'
  | VEntry e :: cs' =>
      match e_type e with
      | comment => comment_key (S n) :: vex_keys (S n) cs'
      | _ => e_key e :: vex_keys n cs'
      end
  end.

Definition EntryOrList_to_string (v : EntryOrList) : pystr :=
  match v with
  | Many l => flat_map (fun e => Entry_to_string e None) l
  | One e => Entry_to_string e None
  end.

(** The text of the items of a dictionary, looked up key by key. *)
Definition items_str (V : Type) (show : V -> pystr) (d : odict V) : pystr :=
  flat_map (fun k => match od_get k d with
                     | Some v => show v
                     | None => []
                     end) (od_keys d).

(** The complete line that reading [vexline] hands to the chain of tests,
    if it completes one. *)
Definition logical_line (st : ParserState) (vexline : pystr) : option pystr :=
  match strip vexline with
  | [] => None
  | c :: _ =>
      if Ascii.eqb c "*" then None
      else if negb (contains ";" vexline) then None
      else Some (strip (match prev_line st with
                        | Some p => p ++ vexline
                        | None => vexline
                        end))
  end.

(** A complete line that the chain of tests takes for the head of a block,
    and one that it takes for the end of a block: the tests look at the
    first characters only, [enddef] and [endscan] without the terminator,
    so that [enddefault = 1;] is taken for an end. *)
Definition opens_block (l : pystr) : bool :=
  startswith "def " l || startswith "scan " l.

Definition closes_block (l : pystr) : bool :=
  startswith "enddef" l || startswith "endscan" l.

Definition block_open (st : ParserState) : bool :=
  match current_definition st with
  | Some _ => true
  | None => false
  end.

(** Reading [vexline] in state [st] opens a block inside a block, or closes
    a block when none is open, as the code tests it. *)
Definition nesting_violation (st : ParserState) (vexline : pystr) : bool :=
  match logical_line st vexline with
  | None => false
  | Some l =>
      (opens_block l && block_open st) || (closes_block l && negb (block_open st))
  end.

Definition nesting_messages : list pystr :=
  [ str "A definition inside a definition is not supported";
    str "enddef without a previous def";
    str "endscan without a previous scan" ].

(** The closing lines in the words of the claim: a complete line
    [enddef;] or [endscan;], the terminator part of the keyword. *)
Definition closes_block_as_claimed (l : pystr) : bool :=
  startswith "enddef;" l || startswith "endscan;" l.

(** The nesting violation in the words of the claim. *)
Definition nesting_violation_as_claimed (st : ParserState) (vexline : pystr)
    : bool :=
  match logical_line st vexline with
  | None => false
  | Some l =>
      (opens_block l && block_open st) ||
      (closes_block_as_claimed l && negb (block_open st))
  end.

(** ** Notions of the round trip *)

(** Two documents have the same structure when they agree on everything
    but the private comment counters of their containers. *)
Definition erase_definition (d : VexDefinition) : VexDefinition :=
  mkDefinition (d_class d) (d_name d) (d_entries d) 0.

Definition erase_section_child (c : SectionChild) : SectionChild :=
  match c with
  | SDefinition d => SDefinition (erase_definition d)
  | SEntry e => SEntry e
  end.

Definition erase_section (s : VexSection) : VexSection :=
  mkSection (s_name s)
    (map (fun kc => (fst kc, erase_section_child (snd kc))) (s_definitions s)) 0.

Definition erase_vex_child (c : VexChild) : VexChild :=
  match c with
  | VSection s => VSection (erase_section s)
  | VDefinition d => VDefinition (erase_definition d)
  | VEntry e => VEntry e
  end.

Definition erase_vex (v : Vex) : Vex :=
  mkVex (v_name v)
    (map (fun kc => (fst kc, erase_vex_child (snd kc))) (v_sections v)) 0.

Definition same_structure (a b : Vex) : Prop := erase_vex a = erase_vex b.

Definition is_comment (e : Entry) : bool :=
  match e_type e with
  | comment => true
  | _ => false
  end.

(** The entries a key of a definition holds, in order. *)
Definition entries_of (v : EntryOrList) : list Entry :=
  match v with
  | One e => [e]
  | Many l => l
  end.

Definition all_entries (d : odict EntryOrList) : list Entry :=
  flat_map entries_of (od_values d).

(** A parameter whose key is the word [def] or [scan]: its line, once
    written with a blank after the key, reads as the head of a block. *)
Definition keyword_key (e : Entry) : bool :=
  match e_type e, e_key e with
  | parameter, Some k => pystr_eqb k "def" || pystr_eqb k "scan"
  | _, _ => false
  end.

Definition definition_free_of_keyword_keys (d : VexDefinition) : bool :=
  forallb (fun e => negb (keyword_key e)) (all_entries (d_entries d)).

Definition section_free_of_keyword_keys (s : VexSection) : bool :=
  forallb (fun c => match c with
                    | SDefinition d => definition_free_of_keyword_keys d
                    | SEntry e => negb (keyword_key e)
                    end) (od_values (s_definitions s)).

Definition free_of_keyword_keys (v : Vex) : bool :=
  forallb (fun c => match c with
                    | VSection s => section_free_of_keyword_keys s
                    | VDefinition d => definition_free_of_keyword_keys d
                    | VEntry e => negb (keyword_key e)
                    end) (od_values (v_sections v)).

(** The comments of a container sit, in order, under [comment-1],
    [comment-2], ...: [numbered is_c n items] when [n] comments come before
    [items]. *)
Fixpoint numbered (A : Type) (is_c : A -> bool) (n : nat)
    (items : list (pykey * A)) : bool :=
  match items with
  | [] => true
  | (k, a) :: rest =>
      if is_c a then pykey_eqb k (comment_key (S n)) && numbered is_c (S n) rest
      else numbered is_c n rest
  end.

Definition starts_with_comment (v : EntryOrList) : bool :=
  match entries_of v with
  | e :: _ => is_comment e
  | [] => false
  end.

Definition section_child_is_comment (c : SectionChild) : bool :=
  match c with
  | SEntry e => is_comment e
  | SDefinition _ => false
  end.

Definition vex_child_is_comment (c : VexChild) : bool :=
  match c with
  | VEntry e => is_comment e
  | _ => false
  end.

Definition definition_comments_in_sequence (d : VexDefinition) : bool :=
  numbered starts_with_comment 0 (d_entries d).

Definition section_comments_in_sequence (s : VexSection) : bool :=
  numbered section_child_is_comment 0 (s_definitions s) &&
  forallb (fun c => match c with
                    | SDefinition d => definition_comments_in_sequence d
                    | SEntry _ => true
                    end) (od_values (s_definitions s)).

Definition comments_in_sequence (v : Vex) : bool :=
  numbered vex_child_is_comment 0 (v_sections v) &&
  forallb (fun c => match c with
                    | VSection s => section_comments_in_sequence s
                    | VDefinition d => definition_comments_in_sequence d
                    | VEntry _ => true
                    end) (od_values (v_sections v)).

(** At the top of the document no entry comes after a section. *)
Definition is_top_entry (kc : pykey * VexChild) : bool :=
  match snd kc with
  | VEntry _ => true
  | _ => false
  end.

Fixpoint entries_before_sections (items : odict VexChild) : bool :=
  match items with
  | [] => true
  | kc :: rest =>
      if is_top_entry kc then entries_before_sections rest
      else forallb (fun kc' => negb (is_top_entry kc')) rest
  end.

(** *** The shape of a text, line by line

    A small automaton reads a text the way the loop of [from_file] reads
    its lines: [LStart] at the start of a line, blanks only so far; [LIn]
    inside a line that has shown no [;]; [LSemi] inside a line that has; and
    [LFail] once a line is blank, starts with [*], or ends after a [;]
    while text follows. *)

Inductive LineState : Type := LStart | LIn | LSemi | LFail.

Definition lstep (s : LineState) (c : ascii) : LineState :=
  match s with
  | LFail => LFail
  | LStart =>
      if Ascii.eqb c NL then LFail
      else if isspace c then LStart
      else if Ascii.eqb c "*" then LFail
      else if Ascii.eqb c ";" then LSemi
      else LIn
  | LIn =>
      if Ascii.eqb c NL then LStart
      else if Ascii.eqb c ";" then LSemi
      else LIn
  | LSemi => if Ascii.eqb c NL then LFail else LSemi
  end.

Definition lrun (s : LineState) (x : pystr) : LineState := fold_left lstep x s.

(** [lle a b]: whatever text can follow in state [a] can follow in [b]. *)
Definition lle (a b : LineState) : bool :=
  match a, b with
  | LFail, _ => true
  | LStart, (LStart | LIn) => true
  | LIn, LIn => true
  | LSemi, (LSemi | LIn) => true
  | _, _ => false
  end.

(** The state a blank-free piece of text leaves behind. *)
Definition lup (s : LineState) : LineState :=
  match s with
  | LStart | LIn => LIn
  | LSemi => LSemi
  | LFail => LFail
  end.

(** A line as [readlines] gives it: not empty, a line break at its end
    only. *)
Definition physical (l : pystr) : Prop :=
  l <> [] /\ count NL (removelast l) = 0.

(** *** What the parser builds *)

(** A complete line that goes to one of the keyword branches. *)
Definition keyword_line (l : pystr) : bool :=
  startswith "$" l || startswith "def " l || startswith "enddef" l
  || startswith "scan " l || startswith "endscan" l.

Definition canonical_value (v : Value) : Prop :=
  v = (if contains ":" (render_value v)
       then VList (split ":" (render_value v))
       else VStr (render_value v)).

Definition wf_entry (e : Entry) : Prop :=
  match e_type e, e_key e with
  | comment, None =>
      match e_value e with
      | VStr c => count NL c = 0 /\ strip ("*" ++ c) = "*" ++ c
      | VList _ => False
      end
  | parameter, Some k =>
      strip k = k /\ count "=" k = 0 /\ contains "ref " k = false /\
      keyword_line k = false /\
      canonical_value (e_value e) /\
      lstrip (render_value (e_value e)) = render_value (e_value e) /\
      lrun LStart (k ++ " = " ++ render_value (e_value e)) <> LFail
  | variable, Some k =>
      strip k = k /\ count "=" k = 0 /\ count "$" k = 0 /\
      canonical_value (e_value e) /\
      lstrip (render_value (e_value e)) = render_value (e_value e) /\
      lrun LIn (k ++ " = " ++ render_value (e_value e)) <> LFail
  | _, _ => False
  end.

(** An entry is filed under its own key, a comment under any key. *)
Definition filed_under (k : pykey) (e : Entry) : Prop :=
  is_comment e = false -> e_key e = k.

Definition wf_item (kv : pykey * EntryOrList) : Prop :=
  match snd kv with
  | One e => wf_entry e /\ filed_under (fst kv) e
  | Many l =>
      match l with
      | e0 :: e1 :: rest =>
          wf_entry e0 /\ filed_under (fst kv) e0 /\
          Forall (fun e => wf_entry e /\ is_comment e = false /\
                           e_key e = fst kv) (e1 :: rest)
      | _ => False
      end
  end.

Definition wf_name (name : pystr) : Prop :=
  count ";" name = 0 /\ lrun LIn name <> LFail.

Definition wf_definition (d : VexDefinition) : Prop :=
  wf_name (d_name d) /\ NoDup (od_keys (d_entries d)) /\
  Forall wf_item (d_entries d).

Definition wf_section_item (kc : pykey * SectionChild) : Prop :=
  match snd kc with
  | SDefinition d => fst kc = Some (d_name d) /\ wf_definition d
  | SEntry e => wf_entry e /\ filed_under (fst kc) e
  end.

Definition wf_section (s : VexSection) : Prop :=
  wf_name (s_name s) /\ NoDup (od_keys (s_definitions s)) /\
  Forall wf_section_item (s_definitions s).

Definition wf_vex_item (kc : pykey * VexChild) : Prop :=
  match snd kc with
  | VSection s => fst kc = Some (s_name s) /\ wf_section s
  | VDefinition _ => False
  | VEntry e => wf_entry e /\ filed_under (fst kc) e
  end.

Definition wf_vex (v : Vex) : Prop :=
  NoDup (od_keys (v_sections v)) /\ Forall wf_vex_item (v_sections v).

(** The invariant of the loop of [from_file]. *)
Definition wf_pending (p : option pystr) : Prop :=
  match p with
  | Some x => lrun LStart x = LStart \/ lrun LStart x = LIn
  | None => True
  end.

Definition wf_state (st : ParserState) : Prop :=
  wf_vex (st_self st) /\ wf_pending (prev_line st) /\
  match current_section st with
  | Some s => wf_section s
  | None => True
  end /\
  match current_definition st with
  | Some d => wf_definition d
  | None => True
  end.

(** *** What reading a written document builds

    The containers with their counters set to the number of comments they
    were given. *)
Definition count_comments (A : Type) (is_c : A -> bool)
    (items : list (pykey * A)) : nat :=
  List.length (filter (fun kv => is_c (snd kv)) items).

Definition recount_definition (d : VexDefinition) : VexDefinition :=
  mkDefinition (d_class d) (d_name d) (d_entries d)
    (count_comments starts_with_comment (d_entries d)).

Definition recount_section_child (c : SectionChild) : SectionChild :=
  match c with
  | SDefinition d => SDefinition (recount_definition d)
  | SEntry e => SEntry e
  end.

Definition recount_section (s : VexSection) : VexSection :=
  mkSection (s_name s)
    (map (fun kc => (fst kc, recount_section_child (snd kc))) (s_definitions s))
    (count_comments section_child_is_comment (s_definitions s)).

Definition recount_vex_child (c : VexChild) : VexChild :=
  match c with
  | VSection s => VSection (recount_section s)
  | VDefinition d => VDefinition (recount_definition d)
  | VEntry e => VEntry e
  end.

Definition recount_vex (v : Vex) : Vex :=
  mkVex (v_name v)
    (map (fun kc => (fst kc, recount_vex_child (snd kc))) (v_sections v))
    (count_comments vex_child_is_comment (v_sections v)).

(** A block of the class of [d], empty, with the name of [d]. *)
Definition empty_like (d : VexDefinition) : VexDefinition :=
  match d_class d with
  | DefinitionClass => Definition_init (d_name d)
  | ScanClass => Scan_init (d_name d)
  end.

(** *** Blanks, trimmed texts, the pending text *)

(** A text of blanks only. *)
Definition blank (w : pystr) : Prop := forallb isspace w = true.

(** A text that trimming leaves as it is. *)
Definition trimmed (y : pystr) : Prop := lstrip y = y /\ rstrip y = y.

(** The text waiting for the end of its statement. *)
Definition pending_text (b : option pystr) : pystr :=
  match b with
  | Some p => p
  | None => []
  end.

Definition recount_section_items (d : odict SectionChild) : odict SectionChild :=
  map (fun kc => (fst kc, recount_section_child (snd kc))) d.

Definition recount_vex_items (d : odict VexChild) : odict VexChild :=
  map (fun kc => (fst kc, recount_vex_child (snd kc))) d.

(** What the items of a section must be for their lines to be read back. *)
Definition readable_section_child (c : SectionChild) : Prop :=
  match c with
  | SDefinition d =>
      wf_definition d /\ definition_free_of_keyword_keys d = true /\
      definition_comments_in_sequence d = true
  | SEntry e => wf_entry e /\ keyword_key e = false
  end.

Definition readable_vex_child (c : VexChild) : Prop :=
  match c with
  | VSection s =>
      wf_section s /\ section_free_of_keyword_keys s = true /\
      section_comments_in_sequence s = true
  | VDefinition _ => False
  | VEntry e => wf_entry e /\ keyword_key e = false
  end.

(** A small schedule: entries before the first section, a comment, a block
    with a value on two lines and a key given twice, a scan. *)
Definition sample_text : pystr :=
  "VEX_rev = 1.5;" ++ [NL] ++
  "* a comment" ++ [NL] ++
  "$STATION;" ++ [NL] ++
  "def Jb;" ++ [NL] ++
  "  ref $SITE = JODRELL;" ++ [NL] ++
  "  ref $IF = A:" ++ [NL] ++
  "     B;" ++ [NL] ++
  "* inside" ++ [NL] ++
  "  ref $IF = C; * trailing" ++ [NL] ++
  "enddef;" ++ [NL] ++
  "$SCHED;" ++ [NL] ++
  "scan No0001;" ++ [NL] ++
  "  start=2018y020d;" ++ [NL] ++
  "endscan;" ++ [NL].

Definition sample_document : Vex :=
  Eval vm_compute in
    match from_file (Vex_init "sample") sample_text with
    | Ok v => v
    | Raise _ => Vex_init "sample"
    end.

(** ** The rest of the classes

    The methods the parser does not call: item access on an [Entry], the
    dictionary protocol of the three containers, the constructors that
    take their items, and [from_file] and [Vex(name, vexfile)] on a path. *)

(** [Entry.__getitem__] *)
Definition Entry_getitem (self : Entry) (key : pykey) : result Value :=
  if pykey_eqb (e_key self) key then Ok (e_value self)
  else Raise (KeyError (render_key key ++ " not found")).

(** [Entry.__setitem__(self, key, value)]: the second definition of that
    name in the class body, which is the one the class keeps. *)
Definition Entry_setitem (self : Entry) (key : pykey) (value : Value)
    : result Entry :=
  if pykey_eqb (e_key self) key
  then Ok (mkEntry (e_type self) (e_key self) value)
  else Raise (KeyError (render_key key ++ " not found. New Entry required")).

(** What a dictionary method returns: a value, or [KeyError(key)]. *)
Inductive dict_result (A : Type) : Type :=
| Found (a : A)
| MissingKey (key : pykey).

Arguments Found {A} a.
Arguments MissingKey {A} key.

Section OrderedDictMethods.
Variable V : Type.

(** [del d[k]] on a key that is there. *)
Fixpoint od_remove (k : pykey) (d : odict V) : odict V :=
  match d with
  | [] => []
  | (k', v) :: d' =>
      if pykey_eqb k k' then d' else (k', v) :: od_remove k d'
  end.

(** [d[k]] *)
Definition od_getitem (k : pykey) (d : odict V) : dict_result V :=
  match od_get k d with
  | Some v => Found v
  | None => MissingKey k
  end.

(** [del d[k]] *)
Definition od_delitem (k : pykey) (d : odict V) : dict_result (odict V) :=
  if od_mem k d then Found (od_remove k d) else MissingKey k.

(** [d.pop(k)]: the value and what is left. *)
Definition od_pop (k : pykey) (d : odict V) : dict_result (V * odict V) :=
  match od_get k d with
  | Some v => Found (v, od_remove k d)
  | None => MissingKey k
  end.

(** [d.pop(k, default)], the default being any object. *)
Definition od_pop_default (D : Type) (k : pykey) (default : D) (d : odict V)
    : (V + D) * odict V :=
  match od_get k d with
  | Some v => (inl v, od_remove k d)
  | None => (inr default, d)
  end.
End OrderedDictMethods.

(** [Definition.__getitem__], [__setitem__], [__len__], [__delitem__],
    [has_key] and [__contains__], [keys], [values], [items], [pop]. *)
Definition with_entries (self : VexDefinition) (entries : odict EntryOrList)
    : VexDefinition :=
  mkDefinition (d_class self) (d_name self) entries (d_number_comments self).

Definition Definition_getitem (self : VexDefinition) (key : pykey)
    : dict_result EntryOrList :=
  od_getitem key (d_entries self).

Definition Definition_setitem (self : VexDefinition) (key : pykey)
    (value : EntryOrList) : VexDefinition :=
  with_entries self (od_set key value (d_entries self)).

Definition Definition_len (self : VexDefinition) : nat :=
  List.length (d_entries self).

Definition Definition_delitem (self : VexDefinition) (key : pykey)
    : dict_result VexDefinition :=
  match od_delitem key (d_entries self) with
  | Found d => Found (with_entries self d)
  | MissingKey k => MissingKey k
  end.

Definition Definition_has_key (self : VexDefinition) (key : pykey) : bool :=
  od_mem key (d_entries self).

Definition Definition_contains (self : VexDefinition) (item : pykey) : bool :=
  od_mem item (d_entries self).

Definition Definition_keys (self : VexDefinition) : list pykey :=
  od_keys (d_entries self).

Definition Definition_values (self : VexDefinition) : list EntryOrList :=
  od_values (d_entries self).

Definition Definition_items (self : VexDefinition)
    : list (pykey * EntryOrList) :=
  d_entries self.

Definition Definition_pop (self : VexDefinition) (key : pykey)
    : dict_result (EntryOrList * VexDefinition) :=
  match od_pop key (d_entries self) with
  | Found (v, d) => Found (v, with_entries self d)
  | MissingKey k => MissingKey k
  end.

Definition Definition_pop_default (D : Type) (self : VexDefinition)
    (key : pykey) (default : D) : (EntryOrList + D) * VexDefinition :=
  let '(v, d) := od_pop_default key default (d_entries self) in
  (v, with_entries self d).

(** The same methods of [Section]. *)
Definition with_definitions (self : VexSection)
    (definitions : odict SectionChild) : VexSection :=
  mkSection (s_name self) definitions (s_number_comments self).

Definition Section_getitem (self : VexSection) (key : pykey)
    : dict_result SectionChild :=
  od_getitem key (s_definitions self).

Definition Section_setitem (self : VexSection) (key : pykey)
    (value : SectionChild) : VexSection :=
  with_definitions self (od_set key value (s_definitions self)).

Definition Section_len (self : VexSection) : nat :=
  List.length (s_definitions self).

Definition Section_delitem (self : VexSection) (key : pykey)
    : dict_result VexSection :=
  match od_delitem key (s_definitions self) with
  | Found d => Found (with_definitions self d)
  | MissingKey k => MissingKey k
  end.

Definition Section_has_key (self : VexSection) (key : pykey) : bool :=
  od_mem key (s_definitions self).

Definition Section_keys (self : VexSection) : list pykey :=
  od_keys (s_definitions self).

Definition Section_pop (self : VexSection) (key : pykey)
    : dict_result (SectionChild * VexSection) :=
  match od_pop key (s_definitions self) with
  | Found (v, d) => Found (v, with_definitions self d)
  | MissingKey k => MissingKey k
  end.

(** The same methods of [Vex]. *)
Definition with_sections (self : Vex) (sections : odict VexChild) : Vex :=
  mkVex (v_name self) sections (v_number_comments self).

Definition Vex_getitem (self : Vex) (key : pykey) : dict_result VexChild :=
  od_getitem key (v_sections self).

Definition Vex_setitem (self : Vex) (key : pykey) (value : VexChild) : Vex :=
  with_sections self (od_set key value (v_sections self)).

Definition Vex_len (self : Vex) : nat := List.length (v_sections self).

Definition Vex_delitem (self : Vex) (key : pykey) : dict_result Vex :=
  match od_delitem key (v_sections self) with
  | Found d => Found (with_sections self d)
  | MissingKey k => MissingKey k
  end.

Definition Vex_has_key (self : Vex) (key : pykey) : bool :=
  od_mem key (v_sections self).

Definition Vex_keys (self : Vex) : list pykey := od_keys (v_sections self).

Definition Vex_pop (self : Vex) (key : pykey)
    : dict_result (VexChild * Vex) :=
  match od_pop key (v_sections self) with
  | Found (v, d) => Found (v, with_sections self d)
  | MissingKey k => MissingKey k
  end.

(** [Definition(name, list_of_entries)] and [Scan(name, list_of_entries)].
    The setter of [entries] runs [add_entry] on every entry before
    [__init__] sets [_number_comments]: while it runs, the attribute is not
    there, and reading it raises [AttributeError]. *)
Definition add_entry_while_init (entries : odict EntryOrList)
    (number_comments : option nat) (new_entry : Entry)
    : result (odict EntryOrList * option nat) :=
  match e_type new_entry with
  | comment =>
      match number_comments with
      | None => Raise AttributeError
      | Some n =>
          Ok (od_set (comment_key (S n)) (One new_entry) entries, Some (S n))
      end
  | _ =>
      let k := e_key new_entry in
      let stored :=
        match od_get k entries with
        | Some (Many l) => Many (l ++ [new_entry])
        | Some (One e) => Many [e; new_entry]
        | None => One new_entry
        end in
      Ok (od_set k stored entries, number_comments)
  end.

Fixpoint entries_setter (entries : odict EntryOrList)
    (new_entries : list Entry) : result (odict EntryOrList) :=
  match new_entries with
  | [] => Ok entries
  | an_entry :: rest =>
      r <- add_entry_while_init entries None an_entry ;;
      entries_setter (fst r) rest
  end.

Definition Definition_init_entries (cls : BlockClass) (name : pystr)
    (list_of_entries : list Entry) : result VexDefinition :=
  entries <- entries_setter [] list_of_entries ;;
  Ok (mkDefinition cls name entries 0).

(** [Section(name, definitions)]: the setter of [definitions] runs
    [add_definition] before [_number_comments] is set, in the same way. *)
Definition add_definition_while_init (definitions : odict SectionChild)
    (new_definition : SectionChild) : result (odict SectionChild) :=
  match new_definition with
  | SDefinition d =>
      Ok (od_set (Some (d_name d)) new_definition definitions)
  | SEntry e =>
      match e_type e with
      | comment => Raise AttributeError
      | _ => Ok (od_set (e_key e) new_definition definitions)
      end
  end.

Fixpoint definitions_setter (definitions : odict SectionChild)
    (new_definitions : list SectionChild) : result (odict SectionChild) :=
  match new_definitions with
  | [] => Ok definitions
  | new_definition :: rest =>
      d <- add_definition_while_init definitions new_definition ;;
      definitions_setter d rest
  end.

Definition Section_init_definitions (name : pystr)
    (definitions : list SectionChild) : result VexSection :=
  d <- definitions_setter [] definitions ;;
  Ok (mkSection name d 0).

(** [open(filename, 'r')]: the text of the file, or [FileNotFoundError]. *)
Inductive opened (A : Type) : Type :=
| Opened (a : A)
| FileNotFoundError (filename : pystr).

Arguments Opened {A} a.
Arguments FileNotFoundError {A} filename.

(** [Vex.from_file(filename)] *)
Definition from_path (self : Vex) (fs : FileSystem) (filename : pystr)
    : opened (result Vex) :=
  match fs filename with
  | Some text => Opened (from_file self text)
  | None => FileNotFoundError filename
  end.

(** [Vex(name, vexfile)] *)
Definition Vex_new (name : pystr) (vexfile : option pystr) (fs : FileSystem)
    : opened (result Vex) :=
  match vexfile with
  | Some filename => from_path (Vex_init name) fs filename
  | None => Opened (Ok (Vex_init name))
  end.

(** The comments among the entries given to a container, in order. *)
Definition comments_of (es : list Entry) : list Entry := filter is_comment es.

(** ** Notions the further statements use *)

(** The key text of a line: what stands before its first [=], trimmed. *)
Definition key_text (text : pystr) : pystr := strip (hd [] (split "=" text)).

(** A key of the form the containers give to comments. *)
Definition reserved_key (k : pykey) : bool :=
  match k with
  | Some s => startswith "comment-" s
  | None => false
  end.

(** The entries a key of a definition holds, none when the key is absent. *)
Definition entries_at (k : pykey) (d : VexDefinition) : list Entry :=
  match od_get k (d_entries d) with
  | Some v => entries_of v
  | None => []
  end.

(** The entries of a list given with key [k]. *)
Definition given_with (k : pykey) (e : Entry) : bool :=
  negb (is_comment e) && pykey_eqb (e_key e) k.

(** No entry that is not a comment has a key of the comments' form. *)
Definition plain_keys (es : list Entry) : bool :=
  forallb (fun e => is_comment e || negb (reserved_key (e_key e))) es.

(** The key under which a section files an item that is no comment, and
    the same for the top of a document. *)
Definition section_child_key (c : SectionChild) : option pykey :=
  match c with
  | SDefinition d => Some (Some (d_name d))
  | SEntry e => if is_comment e then None else Some (e_key e)
  end.

Definition vex_child_key (c : VexChild) : option pykey :=
  match c with
  | VSection s => Some (Some (s_name s))
  | VDefinition d => Some (Some (d_name d))
  | VEntry e => if is_comment e then None else Some (e_key e)
  end.

Definition filed_at (A : Type) (key_of : A -> option pykey) (k : pykey)
    (c : A) : bool :=
  match key_of c with
  | Some k' => pykey_eqb k' k
  | None => false
  end.

(** What [del d[k]] leaves of a dictionary: the key gone, every other key
    with its value and at its place. *)
Definition deleted (V : Type) (k : pykey) (before after : odict V) : Prop :=
  od_get k after = None /\
  (forall k', k' <> k -> od_get k' after = od_get k' before) /\
  od_keys after = filter (fun k' => negb (pykey_eqb k k')) (od_keys before) /\
  S (List.length after) = List.length before.

(** What [d[k] = x] leaves: the value at the key, every other key with its
    value, a new key last. *)
Definition assigned (V : Type) (k : pykey) (x : V) (before after : odict V)
    : Prop :=
  od_get k after = Some x /\
  (forall k', k' <> k -> od_get k' after = od_get k' before) /\
  od_keys after = add_key (od_keys before) k /\
  List.length after =
    List.length before + (if od_mem k before then 0 else 1).

(** [after] has what [before] had and more: the same name, the keys of
    [before] first and in their order, a counter of comments not smaller. *)
Definition extends (before after : Vex) : Prop :=
  v_name after = v_name before /\
  (exists more, od_keys (v_sections after) = od_keys (v_sections before) ++ more) /\
  v_number_comments before <= v_number_comments after.

(** A physical line that neither is a comment nor ends a statement. *)
Definition unfinished (l : pystr) : bool :=
  match strip l with
  | [] => false
  | c :: _ => negb (Ascii.eqb c "*") && negb (contains ";" l)
  end.

(** A complete line that is no keyword line and that [entry_from_text]
    reads. *)
Definition reads_as_entry (t : pystr) : bool :=
  negb (keyword_line t) &&
  match entry_from_text t with
  | Ok _ => true
  | Raise _ => false
  end.

(** Lines that hold comments and entries only: every line is a comment, or
    waits for the end of its statement, or ends a statement that is no
    keyword line and is read as an entry.  [Some p] when they do, [p] the
    text still waiting after the last of them; [pending] is the text
    waiting before the first. *)
Fixpoint entry_lines (pending : option pystr) (lines : list pystr)
    : option (option pystr) :=
  match lines with
  | [] => Some pending
  | l :: rest =>
      match strip l with
      | [] => None
      | c :: _ =>
          if Ascii.eqb c "*" then entry_lines pending rest
          else if negb (contains ";" l)
          then entry_lines (Some (pending_text pending ++ l)) rest
          else if reads_as_entry (strip (pending_text pending ++ l))
          then entry_lines None rest
          else None
      end
  end.

(** A physical line that, nothing waiting, is the head of a block, and one
    that is taken for the end of a block. *)
Definition opens_a_block (l : pystr) : bool :=
  contains ";" l && opens_block (strip l).

Definition closes_a_block (l : pystr) : bool :=
  contains ";" l && closes_block (strip l).

(** What reading comments and entries leaves of a state: with a block
    open, the document and the section as they were and a block open;
    with none open, none open, and no section open if none was. *)
Definition entries_routed (st st' : ParserState) : Prop :=
  match current_definition st with
  | Some _ =>
      current_definition st' <> None /\ st_self st' = st_self st /\
      current_section st' = current_section st
  | None =>
      current_definition st' = None /\
      (current_section st = None -> current_section st' = None)
  end.

(** A file system with one file, the sample schedule. *)
Definition sample_files : FileSystem :=
  fun p => if pystr_eqb p "in.vex" then Some sample_text else None.

(** What a key of a block holds: one entry, of that key unless it is a
    comment; or a list of two entries or more, the first of that key
    unless it is a comment, the others no comments and of that key. *)
Definition well_filed (key : pykey) (x : EntryOrList) : Prop :=
  match x with
  | One e => is_comment e = false -> e_key e = key
  | Many l =>
      2 <= List.length l /\
      (forall e, hd_error l = Some e -> is_comment e = false -> e_key e = key) /\
      forall e, In e (tl l) -> is_comment e = false /\ e_key e = key
  end.

(** No item that is not a comment has a key of the comments' form. *)
Definition plain_section_keys (cs : list SectionChild) : bool :=
  forallb (fun c => match section_child_key c with
                    | Some k => negb (reserved_key k)
                    | None => true
                    end) cs.

Definition plain_vex_keys (cs : list VexChild) : bool :=
  forallb (fun c => match vex_child_key c with
                    | Some k => negb (reserved_key k)
                    | None => true
                    end) cs.

(** * Properties *)

(** ** Characters and strings *)

Lemma ascii_eqb_true (a b : ascii) : Ascii.eqb a b = true <-> a = b.
Proof. apply Ascii.eqb_eq. Qed.

Lemma ascii_eqb_false (a b : ascii) : Ascii.eqb a b = false <-> a <> b.
Proof. apply Ascii.eqb_neq. Qed.

Lemma pystr_eqb_true (a b : pystr) : pystr_eqb a b = true <-> a = b.
Proof.
  unfold pystr_eqb. destruct (list_eq_dec ascii_dec a b); split; congruence.
Qed.

Lemma pystr_eqb_false (a b : pystr) : pystr_eqb a b = false <-> a <> b.
Proof.
  unfold pystr_eqb. destruct (list_eq_dec ascii_dec a b); split; congruence.
Qed.

Lemma pystr_eqb_refl (a : pystr) : pystr_eqb a a = true.
Proof. now apply pystr_eqb_true. Qed.

Lemma pykey_eqb_true (a b : pykey) : pykey_eqb a b = true <-> a = b.
Proof.
  destruct a as [a|], b as [b|]; simpl; try (split; congruence).
  rewrite pystr_eqb_true. split; congruence.
Qed.

Lemma pykey_eqb_false (a b : pykey) : pykey_eqb a b = false <-> a <> b.
Proof.
  rewrite <- pykey_eqb_true. destruct (pykey_eqb a b); split; congruence.
Qed.

Lemma pykey_eqb_refl (a : pykey) : pykey_eqb a a = true.
Proof. now apply pykey_eqb_true. Qed.

Lemma split_not_nil (c : ascii) (s : pystr) : split c s <> [].
Proof.
  destruct s as [|x s]; simpl; [discriminate|].
  destruct (Ascii.eqb x c); [discriminate|].
  destruct (split c s); discriminate.
Qed.

(** Splitting at the first separator. *)
Lemma split_first (c : ascii) (k rest : pystr) :
  count c k = 0 -> split c (k ++ c :: rest) = k :: split c rest.
Proof.
  induction k as [|x k IH]; simpl; intros H.
  - now rewrite Ascii.eqb_refl.
  - destruct (Ascii.eqb x c); [discriminate|].
    now rewrite IH.
Qed.

Lemma split_no_sep (c : ascii) (k : pystr) : count c k = 0 -> split c k = [k].
Proof.
  induction k as [|x k IH]; simpl; intros H; [reflexivity|].
  destruct (Ascii.eqb x c); [discriminate|].
  now rewrite IH.
Qed.

Lemma join_split (c : ascii) (s : pystr) : join [c] (split c s) = s.
Proof.
  induction s as [|x s IH]; simpl; [reflexivity|].
  destruct (Ascii.eqb x c) eqn:E.
  - apply ascii_eqb_true in E; subst x.
    pose proof (split_not_nil c s) as N.
    destruct (split c s) as [|h t]; [congruence|].
    simpl in *. now rewrite IH.
  - pose proof (split_not_nil c s) as N.
    destruct (split c s) as [|h t]; [congruence|].
    simpl in *. destruct t; simpl in *; now rewrite <- IH.
Qed.

Lemma length_split (c : ascii) (s : pystr) :
  List.length (split c s) = S (count c s).
Proof.
  induction s as [|x s IH]; simpl; [reflexivity|].
  destruct (Ascii.eqb x c); simpl.
  - now rewrite IH.
  - pose proof (split_not_nil c s) as N.
    destruct (split c s); [congruence|]. simpl in *. lia.
Qed.

Lemma split_pieces (c : ascii) (s : pystr) :
  Forall (fun p => count c p = 0) (split c s).
Proof.
  induction s as [|x s IH]; simpl; [repeat constructor|].
  destruct (Ascii.eqb x c) eqn:E; [now constructor|].
  destruct (split c s) as [|h t]; [repeat constructor; simpl; now rewrite E|].
  inversion IH; subst. constructor; [simpl; now rewrite E|assumption].
Qed.

(** [c in s] for a single character, against [s.count(c)]. *)
Lemma contains_char (c : ascii) (s : pystr) :
  contains [c] s = negb (count c s =? 0).
Proof.
  induction s as [|x s IH]; simpl; [reflexivity|].
  rewrite IH, (Ascii.eqb_sym c x).
  destruct (Ascii.eqb x c); simpl; [reflexivity|].
  now destruct s.
Qed.

Lemma contains_char_false (c : ascii) (s : pystr) :
  contains [c] s = false <-> count c s = 0.
Proof.
  rewrite contains_char. destruct (count c s); simpl; split; congruence.
Qed.

Lemma contains_char_true (c : ascii) (s : pystr) :
  contains [c] s = true <-> count c s <> 0.
Proof.
  rewrite contains_char. destruct (count c s); simpl; split; congruence.
Qed.

Lemma count_app (c : ascii) (a b : pystr) :
  count c (a ++ b) = count c a + count c b.
Proof. induction a; simpl; lia. Qed.

Lemma count_zero_in (c : ascii) (s : pystr) : count c s = 0 <-> ~ In c s.
Proof.
  induction s as [|x s IH]; simpl; [tauto|].
  destruct (Ascii.eqb x c) eqn:E.
  - apply ascii_eqb_true in E. split; [discriminate|tauto].
  - apply ascii_eqb_false in E. simpl. rewrite IH. tauto.
Qed.

(** ** [Entry] *)

Example entry_parameter :
  entry_from_text "  exper_name = myexp;" =
  Ok (mkEntry parameter (Some (str "exper_name")) (VStr "myexp")).
Proof. reflexivity. Qed.

Example entry_variable :
  entry_from_text "  ref $IF = IF1:a=b;" =
  Ok (mkEntry variable (Some (str "IF")) (VList [str "IF1"; str "a=b"])).
Proof. reflexivity. Qed.

Lemma raw_value_first (k rest : pystr) :
  count "=" k = 0 -> raw_value (k ++ "=" ++ rest) = rest.
Proof.
  intros H. unfold raw_value. change ("=" ++ rest) with ("="%char :: rest).
  rewrite split_first by assumption. simpl. apply (join_split "="%char).
Qed.

Lemma last_some_nil (v : pystr) : last (map Some v) None = None <-> v = [].
Proof.
  split; [|now intros ->].
  induction v as [|x v IH]; [reflexivity|].
  simpl. destruct v; [discriminate|]. intros H. specialize (IH H). discriminate.
Qed.

(** What [entry_from_text] does on a line that is not a comment, written
    with the raw key (the first piece of the split) and [value_text]. *)
Lemma entry_from_text_parts (text : pystr) :
  is_comment_line text = false ->
  entry_from_text text =
    match strip text with
    | [] => Raise IndexError
    | _ :: _ =>
      if (count "=" text =? 0)%nat then Raise AssertionError
      else
        match strip (raw_value text) with
        | [] => Raise IndexError
        | _ :: _ =>
            let rk := strip (hd [] (split "=" text)) in
            let value := if contains ":" (value_text text)
                         then VList (split ":" (value_text text))
                         else VStr (value_text text) in
            if contains "ref " rk then
              if (count "$" rk =? 1)%nat
              then Ok (mkEntry variable
                         (Some (strip (nth 1 (split "$" rk) []))) value)
              else Raise AssertionError
            else Ok (mkEntry parameter (Some rk) value)
        end
    end.
Proof.
  unfold is_comment_line, entry_from_text, value_text, raw_value, drop_terminator.
  destruct (strip text) as [|c r]; [reflexivity|]. intros ->.
  destruct (count "=" text) eqn:C; [reflexivity|]. simpl negb. cbv iota.
  change (S n =? 0)%nat with false. cbv iota.
  pose proof (split_not_nil "=" text) as N.
  destruct (split "=" text) as [|k v]; [congruence|]. simpl hd. simpl tl.
  destruct (last (map Some (strip (join "=" v))) None) as [l|] eqn:L.
  - destruct (strip (join "=" v)) as [|y ys] eqn:S; [discriminate|].
    destruct (contains "ref " (strip k)); simpl.
    + destruct (count "$" (strip k) =? 1)%nat; reflexivity.
    + reflexivity.
  - apply last_some_nil in L. now rewrite L.
Qed.

Lemma entry_from_text_comment (text : pystr) :
  is_comment_line text = true ->
  entry_from_text text = Ok (mkEntry comment None (VStr (tl (strip text)))).
Proof.
  unfold is_comment_line, entry_from_text.
  destruct (strip text) as [|c r]; [discriminate|]. now intros ->.
Qed.

(** The type, key and value of whatever [entry_from_text] returns. *)
Lemma entry_from_text_inv (text : pystr) (e : Entry) :
  entry_from_text text = Ok e ->
  (is_comment_line text = true /\
   e = mkEntry comment None (VStr (tl (strip text)))) \/
  (is_comment_line text = false /\ e_type e <> comment /\
   strip (raw_value text) <> [] /\
   e_value e = (if contains ":" (value_text text)
                then VList (split ":" (value_text text))
                else VStr (value_text text)) /\
   exists key, e_key e = Some key /\
     let rk := strip (hd [] (split "=" text)) in
     if contains "ref " rk
     then e_type e = variable /\ count "$" rk = 1 /\
          key = strip (nth 1 (split "$" rk) [])
     else e_type e = parameter /\ key = rk).
Proof.
  intros H. destruct (is_comment_line text) eqn:C.
  - left. rewrite entry_from_text_comment in H by assumption.
    split; congruence.
  - right. rewrite entry_from_text_parts in H by assumption.
    destruct (strip text); [discriminate|].
    destruct (count "=" text =? 0); [discriminate|].
    destruct (strip (raw_value text)) eqn:R; [discriminate|].
    cbv zeta in H. cbv zeta.
    destruct (contains "ref " (strip (hd [] (split "=" text)))).
    + destruct (count "$" (strip (hd [] (split "=" text))) =? 1) eqn:D;
        [|discriminate].
      apply Nat.eqb_eq in D. injection H as <-. simpl.
      repeat split; try discriminate. eexists; repeat split. exact D.
    + injection H as <-. simpl.
      repeat split; try discriminate. eexists; repeat split.
Qed.

Lemma lstrip_decompose (s : pystr) :
  exists w, s = w ++ lstrip s /\ forallb isspace w = true.
Proof.
  induction s as [|c s [w [E F]]]; [now exists []|].
  simpl. destruct (isspace c) eqn:I.
  - exists (c :: w). simpl. rewrite I, F. split; [congruence|reflexivity].
  - now exists [].
Qed.

Lemma rstrip_decompose (s : pystr) :
  exists w, s = rstrip s ++ w /\ forallb isspace w = true.
Proof.
  induction s as [|c s [w [E F]]]; [now exists []|].
  simpl. destruct (rstrip s) as [|y r] eqn:R.
  - simpl in E. subst w. destruct (isspace c) eqn:I.
    + exists (c :: s). simpl. now rewrite I, F.
    + now exists s.
  - exists w. split; [|assumption]. simpl in *. congruence.
Qed.

Lemma lstrip_head (s r : pystr) (c : ascii) :
  lstrip s = c :: r -> isspace c = false.
Proof.
  induction s as [|x s IH]; simpl; [discriminate|].
  destruct (isspace x) eqn:I; [assumption|]. congruence.
Qed.

Lemma forallb_isspace_not_in (w : pystr) (c : ascii) :
  forallb isspace w = true -> isspace c = false -> ~ In c w.
Proof.
  intros F I H. rewrite forallb_forall in F. apply F in H. congruence.
Qed.

Lemma in_lstrip (s : pystr) (c : ascii) :
  In c s -> isspace c = false -> In c (lstrip s).
Proof.
  intros H I. destruct (lstrip_decompose s) as [w [E F]].
  rewrite E in H. apply in_app_or in H as [H|H]; [|assumption].
  now apply forallb_isspace_not_in in H.
Qed.

Lemma in_rstrip (s : pystr) (c : ascii) :
  In c s -> isspace c = false -> In c (rstrip s).
Proof.
  intros H I. destruct (rstrip_decompose s) as [w [E F]].
  rewrite E in H. apply in_app_or in H as [H|H]; [assumption|].
  now apply forallb_isspace_not_in in H.
Qed.

Lemma in_strip (s : pystr) (c : ascii) :
  In c s -> isspace c = false -> In c (strip s).
Proof. intros H I. apply in_rstrip; [now apply in_lstrip|assumption]. Qed.

Lemma strip_incl (s : pystr) (c : ascii) : In c (strip s) -> In c s.
Proof.
  unfold strip. intros H.
  destruct (lstrip_decompose s) as [w [E F]].
  destruct (rstrip_decompose (lstrip s)) as [w' [E' F']].
  rewrite E, E'. apply in_or_app. right. apply in_or_app. now left.
Qed.

Lemma drop_terminator_semicolon (v : pystr) : drop_terminator (v ++ ";") = v.
Proof.
  unfold drop_terminator. rewrite map_app. change (map Some (str ";")) with [Some ";"%char].
  rewrite last_last. simpl. apply removelast_last.
Qed.

Lemma drop_terminator_other (v : pystr) (c : ascii) :
  c <> ";"%char -> drop_terminator (v ++ [c]) = v ++ [c].
Proof.
  intros H. unfold drop_terminator. rewrite map_app. simpl map.
  rewrite last_last. apply ascii_eqb_false in H. now rewrite H.
Qed.



(** C5: the value text of a parsed entry that holds a [:] is stored as the
    list of its [:]-separated pieces, one more than it has [:]; a value
    text without [:] is stored as one string.  No entry holds a list of
    fewer than two pieces. *)
Theorem C5_value_list_splitting :
  (forall text e, entry_from_text text = Ok e ->
     (e_type e <> comment ->
        (contains ":" (value_text text) = true ->
           e_value e = VList (split ":" (value_text text)) /\
           List.length (split ":" (value_text text))
             = S (count ":" (value_text text)) /\
           join ":" (split ":" (value_text text)) = value_text text) /\
        (contains ":" (value_text text) = false ->
           e_value e = VStr (value_text text))) /\
     (forall l, e_value e = VList l -> 2 <= List.length l)) /\
  entry_from_text "key = a:b:c;" =
    Ok (mkEntry parameter (Some (str "key")) (VList [str "a"; str "b"; str "c"])) /\
  entry_from_text "key = abc;" =
    Ok (mkEntry parameter (Some (str "key")) (VStr "abc")).
Proof.
  split; [|split; reflexivity].
  intros text e H.
  apply entry_from_text_inv in H as [[_ ->]|(_ & T & _ & V & _)].
  - split; [intros N; now elim N|]. simpl. discriminate.
  - split.
    + intros _. split; intros C; rewrite C in V.
      * split; [exact V|]. split; [apply length_split|apply (join_split ":"%char)].
      * exact V.
    + intros l E. rewrite V in E.
      destruct (contains ":" (value_text text)) eqn:C; [|discriminate].
      injection E as <-. rewrite length_split.
      apply (contains_char_true ":"%char) in C. lia.
Qed.

(** C6 (as the code has it): the constructor refuses a comment with a key,
    so a comment entry has no key; it does not look at the key of a
    parameter or a variable.  An entry read from a line has no key exactly
    when it is a comment. *)
Theorem C6_comment_has_no_key :
  (forall k v, (exists m, Entry_init comment k v = Raise (ValueError m))
               <-> k <> None) /\
  (forall t k v e, Entry_init t k v = Ok e ->
     e_type e = comment -> e_key e = None) /\
  (forall t k v, t <> comment -> Entry_init t k v = Ok (mkEntry t k v)) /\
  (forall text e, entry_from_text text = Ok e ->
     (e_key e = None <-> e_type e = comment)).
Proof.
  split; [|split; [|split]].
  - intros [k|] v; simpl; split.
    + discriminate.
    + intros _. eauto.
    + intros [m H]. discriminate.
    + intros H. now elim H.
  - intros [| |] [k|] v e H; simpl in H; try discriminate;
      injection H as <-; simpl; congruence.
  - intros [| |] k v H; try reflexivity. now elim H.
  - intros text e H.
    apply entry_from_text_inv in H as [[_ ->]|(_ & T & _ & _ & key & K & _)].
    + simpl. tauto.
    + rewrite K. split; [discriminate|]. intros E. now elim T.
Qed.

(** C6, against the claim as written: a parameter without a key can be
    constructed. *)
Lemma C6_counterexample :
  ~ (forall t k v e, Entry_init t k v = Ok e ->
       (e_key e = None <-> e_type e = comment)).
Proof.
  intros H.
  specialize (H parameter None (VStr "v") _ eq_refl). simpl in H.
  destruct H as [H _]. specialize (H eq_refl). discriminate.
Qed.

(** ** [OrderedDict] *)

Lemma flat_map_ext_on (A B : Type) (f g : A -> list B) (l : list A) :
  (forall x, In x l -> f x = g x) -> flat_map f l = flat_map g l.
Proof.
  induction l as [|x l IH]; simpl; intros H; [reflexivity|].
  rewrite H by now left. f_equal. apply IH. intros y I. apply H. now right.
Qed.

Section OrderedDictFacts.
Variable V : Type.
Implicit Types (d : odict V) (k : pykey) (v : V).

Lemma od_get_set_same k v d : od_get k (od_set k v d) = Some v.
Proof.
  induction d as [|[k' v'] d IH]; simpl.
  - now rewrite pykey_eqb_refl.
  - destruct (pykey_eqb k k') eqn:E; simpl; rewrite E; [reflexivity|exact IH].
Qed.

Lemma od_get_set_other k k' v d :
  k <> k' -> od_get k' (od_set k v d) = od_get k' d.
Proof.
  intros N. induction d as [|[k0 v0] d IH]; simpl.
  - assert (E : pykey_eqb k' k = false) by (apply pykey_eqb_false; congruence).
    now rewrite E.
  - destruct (pykey_eqb k k0) eqn:E; simpl.
    + apply pykey_eqb_true in E. subst k0.
      assert (E : pykey_eqb k' k = false) by (apply pykey_eqb_false; congruence).
      now rewrite E.
    + now rewrite IH.
Qed.

Lemma od_mem_keys k d : od_mem k d = existsb (pykey_eqb k) (od_keys d).
Proof.
  unfold od_mem. induction d as [|[k' v'] d IH]; simpl; [reflexivity|].
  destruct (pykey_eqb k k'); [reflexivity|exact IH].
Qed.

Lemma od_get_none_keys k d : od_get k d = None <-> ~ In k (od_keys d).
Proof.
  induction d as [|[k' v'] d IH]; simpl; [tauto|].
  destruct (pykey_eqb k k') eqn:E.
  - apply pykey_eqb_true in E. subst. split; [discriminate|tauto].
  - apply pykey_eqb_false in E. rewrite IH. split; [|tauto].
    intros H [H'|H']; [congruence|tauto].
Qed.

(** Assignment keeps the order of the keys; a new key goes last. *)
Lemma od_keys_set k v d : od_keys (od_set k v d) = add_key (od_keys d) k.
Proof.
  unfold add_key. induction d as [|[k' v'] d IH]; simpl; [reflexivity|].
  destruct (pykey_eqb k k') eqn:E; simpl; [reflexivity|].
  rewrite IH. now destruct (existsb (pykey_eqb k) (od_keys d)).
Qed.

Lemma existsb_pykey_in k (ks : list pykey) :
  existsb (pykey_eqb k) ks = true <-> In k ks.
Proof.
  rewrite existsb_exists. split.
  - intros [x [I E]]. apply pykey_eqb_true in E. now subst.
  - intros I. exists k. split; [assumption|apply pykey_eqb_refl].
Qed.

Lemma add_key_NoDup (ks : list pykey) k : NoDup ks -> NoDup (add_key ks k).
Proof.
  intros N. unfold add_key. destruct (existsb (pykey_eqb k) ks) eqn:E;
    [assumption|].
  assert (~ In k ks) by (rewrite <- existsb_pykey_in; congruence).
  apply NoDup_app; [assumption|repeat constructor; simpl; tauto|].
  intros x I [<-|[]]. contradiction.
Qed.

Lemma od_set_NoDup k v d : NoDup (od_keys d) -> NoDup (od_keys (od_set k v d)).
Proof. rewrite od_keys_set. apply add_key_NoDup. Qed.

(** With every key once, going through the keys is going through the
    values. *)
Lemma items_str_values (show : V -> pystr) d :
  NoDup (od_keys d) -> items_str show d = flat_map show (od_values d).
Proof.
  unfold items_str. induction d as [|[k v] d IH]; simpl; [reflexivity|].
  intros N. inversion N as [|? ? NI N']; subst.
  rewrite pykey_eqb_refl. f_equal. rewrite <- IH by assumption.
  apply flat_map_ext_on. intros k' I.
  assert (E : pykey_eqb k' k = false)
    by (apply pykey_eqb_false; intros ->; contradiction).
  now rewrite E.
Qed.
End OrderedDictFacts.

(** ** The containers *)

Lemma add_entry_keys (d : VexDefinition) (e : Entry) :
  od_keys (d_entries (add_entry d e)) =
  add_key (od_keys (d_entries d))
    (match e_type e with
     | comment => comment_key (S (d_number_comments d))
     | _ => e_key e
     end).
Proof. unfold add_entry. destruct (e_type e); simpl; apply od_keys_set. Qed.

Lemma add_entry_stored (d : VexDefinition) (e : Entry) :
  e_type e <> comment ->
  od_get (e_key e) (d_entries (add_entry d e)) =
  Some (match od_get (e_key e) (d_entries d) with
        | None => One e
        | Some (One e0) => Many [e0; e]
        | Some (Many l) => Many (l ++ [e])
        end).
Proof.
  intros T. unfold add_entry. destruct (e_type e); [now elim T| |];
    simpl; rewrite od_get_set_same;
    destruct (od_get (e_key e) (d_entries d)) as [[?|?]|]; reflexivity.
Qed.

(** C2 (as the code has it): in a [Definition] or a [Scan], an entry that
    is not a comment and whose key is present turns the single entry stored
    there into the list of the two, the earlier one first, at the place the
    key already has; one more such entry goes to the end of that list.  A
    [Section] and the [Vex] object keep one item per key: adding under a key
    that is present replaces the item, at the same place. *)
Theorem C2_multiplicity :
  (forall d e, e_type e <> comment ->
     od_keys (d_entries (add_entry d e))
       = add_key (od_keys (d_entries d)) (e_key e) /\
     od_get (e_key e) (d_entries (add_entry d e)) =
       Some (match od_get (e_key e) (d_entries d) with
             | None => One e
             | Some (One e0) => Many [e0; e]
             | Some (Many l) => Many (l ++ [e])
             end) /\
     d_class (add_entry d e) = d_class d) /\
  (forall d e0 e1 e2 k,
     od_get k (d_entries d) = Some (One e0) ->
     e_type e1 <> comment -> e_key e1 = k ->
     e_type e2 <> comment -> e_key e2 = k ->
     od_get k (d_entries (add_entry d e1)) = Some (Many [e0; e1]) /\
     od_get k (d_entries (add_entry (add_entry d e1) e2))
       = Some (Many [e0; e1; e2]) /\
     od_keys (d_entries (add_entry (add_entry d e1) e2))
       = od_keys (d_entries d)) /\
  (forall s d,
     od_get (Some (d_name d)) (s_definitions (add_definition s (SDefinition d)))
       = Some (SDefinition d) /\
     od_keys (s_definitions (add_definition s (SDefinition d)))
       = add_key (od_keys (s_definitions s)) (Some (d_name d))) /\
  (forall s e, e_type e <> comment ->
     od_get (e_key e) (s_definitions (add_definition s (SEntry e)))
       = Some (SEntry e) /\
     od_keys (s_definitions (add_definition s (SEntry e)))
       = add_key (od_keys (s_definitions s)) (e_key e)) /\
  (forall v s,
     od_get (Some (s_name s)) (v_sections (add_section v (VSection s)))
       = Some (VSection s) /\
     od_keys (v_sections (add_section v (VSection s)))
       = add_key (od_keys (v_sections v)) (Some (s_name s))) /\
  (forall v e, e_type e <> comment ->
     od_get (e_key e) (v_sections (add_section v (VEntry e)))
       = Some (VEntry e) /\
     od_keys (v_sections (add_section v (VEntry e)))
       = add_key (od_keys (v_sections v)) (e_key e)).
Proof.
  split; [|split; [|split; [|split; [|split]]]].
  - intros d e T. split; [|split].
    + rewrite add_entry_keys. destruct (e_type e); [now elim T| |]; reflexivity.
    + now apply add_entry_stored.
    + unfold add_entry. now destruct (e_type e).
  - intros d e0 e1 e2 k G T1 K1 T2 K2.
    assert (G1 : od_get k (d_entries (add_entry d e1)) = Some (Many [e0; e1])).
    { rewrite <- K1 in *. rewrite add_entry_stored by assumption. now rewrite G. }
    split; [exact G1|]. split.
    + rewrite <- K2 in *. rewrite add_entry_stored by assumption. now rewrite G1.
    + rewrite !add_entry_keys.
      destruct (e_type e1); [now elim T1| |];
        (destruct (e_type e2); [now elim T2| |]);
        rewrite K1, K2; unfold add_key;
        assert (M : existsb (pykey_eqb k) (od_keys (d_entries d)) = true)
          by (rewrite <- od_mem_keys; unfold od_mem; now rewrite G);
        now rewrite M, M.
  - intros s d. simpl. split; [apply od_get_set_same|apply od_keys_set].
  - intros s e T. unfold add_definition.
    destruct (e_type e); [now elim T| |]; simpl;
      (split; [apply od_get_set_same|apply od_keys_set]).
  - intros v s. simpl. split; [apply od_get_set_same|apply od_keys_set].
  - intros v e T. unfold add_section.
    destruct (e_type e); [now elim T| |]; simpl;
      (split; [apply od_get_set_same|apply od_keys_set]).
Qed.

(** C2, against the claim as written: a [Section] that receives two entries
    under the key [a] holds the second one alone. *)
Lemma C2_counterexample :
  let e1 := mkEntry parameter (Some (str "a")) (VStr "1") in
  let e2 := mkEntry parameter (Some (str "a")) (VStr "2") in
  s_definitions
    (add_definition (add_definition (Section_init "S") (SEntry e1)) (SEntry e2))
  = [(Some (str "a"), SEntry e2)] /\
  v_sections (add_section (add_section (Vex_init "V") (VEntry e1)) (VEntry e2))
  = [(Some (str "a"), VEntry e2)].
Proof. split; reflexivity. Qed.

Lemma add_entry_NoDup (d : VexDefinition) (e : Entry) :
  NoDup (od_keys (d_entries d)) -> NoDup (od_keys (d_entries (add_entry d e))).
Proof. rewrite add_entry_keys. apply add_key_NoDup. Qed.

Lemma add_definition_keys (s : VexSection) (c : SectionChild) :
  od_keys (s_definitions (add_definition s c)) =
  add_key (od_keys (s_definitions s))
    (hd None (section_keys (s_number_comments s) [c])).
Proof.
  unfold add_definition. destruct c as [d|e]; simpl; [apply od_keys_set|].
  destruct (e_type e); simpl; apply od_keys_set.
Qed.

Lemma add_section_keys (v : Vex) (c : VexChild) :
  od_keys (v_sections (add_section v c)) =
  add_key (od_keys (v_sections v))
    (hd None (vex_keys (v_number_comments v) [c])).
Proof.
  unfold add_section. destruct c as [s|d|e]; simpl; try apply od_keys_set.
  destruct (e_type e); simpl; apply od_keys_set.
Qed.

Lemma definition_keys_fold (es : list Entry) (d : VexDefinition) :
  od_keys (d_entries (fold_left add_entry es d)) =
  fold_left add_key (definition_keys (d_number_comments d) es)
    (od_keys (d_entries d)).
Proof.
  revert d. induction es as [|e es IH]; intros d; simpl; [reflexivity|].
  rewrite IH, add_entry_keys. unfold add_entry.
  destruct (e_type e); reflexivity.
Qed.

Lemma section_keys_fold (cs : list SectionChild) (s : VexSection) :
  od_keys (s_definitions (fold_left add_definition cs s)) =
  fold_left add_key (section_keys (s_number_comments s) cs)
    (od_keys (s_definitions s)).
Proof.
  revert s. induction cs as [|c cs IH]; intros s; simpl; [reflexivity|].
  rewrite IH, add_definition_keys. unfold add_definition.
  destruct c as [d|e]; simpl; [reflexivity|].
  destruct (e_type e); reflexivity.
Qed.

Lemma vex_keys_fold (cs : list VexChild) (v : Vex) :
  od_keys (v_sections (fold_left add_section cs v)) =
  fold_left add_key (vex_keys (v_number_comments v) cs)
    (od_keys (v_sections v)).
Proof.
  revert v. induction cs as [|c cs IH]; intros v; simpl; [reflexivity|].
  rewrite IH, add_section_keys. unfold add_section.
  destruct c as [s|d|e]; simpl; try reflexivity.
  destruct (e_type e); reflexivity.
Qed.

Lemma fold_add_key_NoDup (ks seen : list pykey) :
  NoDup seen -> NoDup (fold_left add_key ks seen).
Proof.
  revert seen. induction ks as [|k ks IH]; intros seen N; simpl; [assumption|].
  apply IH. now apply add_key_NoDup.
Qed.

Lemma fold_add_entry_class (es : list Entry) (d : VexDefinition) :
  d_class (fold_left add_entry es d) = d_class d /\
  d_name (fold_left add_entry es d) = d_name d.
Proof.
  revert d. induction es as [|e es IH]; intros d; simpl; [tauto|].
  destruct (IH (add_entry d e)) as [-> ->]. unfold add_entry.
  now destruct (e_type e).
Qed.

Lemma fold_add_definition_name (cs : list SectionChild) (s : VexSection) :
  s_name (fold_left add_definition cs s) = s_name s.
Proof.
  revert s. induction cs as [|c cs IH]; intros s; simpl; [reflexivity|].
  rewrite IH. unfold add_definition. destruct c as [d|e]; [reflexivity|].
  now destruct (e_type e).
Qed.


(** ** The parser: comments, nesting, blank lines *)

Lemma step_comment (st : ParserState) (vexline : pystr) :
  is_comment_line vexline = true ->
  step st vexline =
  Ok (route_entry st (mkEntry comment None (VStr (tl (strip vexline))))).
Proof.
  intros C. unfold step. rewrite (entry_from_text_comment _ C).
  unfold is_comment_line in C.
  destruct (strip vexline) as [|c r]; [discriminate|]. now rewrite C.
Qed.

Lemma route_entry_prev_line (st : ParserState) (e : Entry) :
  prev_line (route_entry st e) = prev_line st.
Proof.
  unfold route_entry.
  destruct (current_definition st), (current_section st); reflexivity.
Qed.

Lemma step_complete (st : ParserState) (vexline : pystr) :
  strip vexline <> [] -> is_comment_line vexline = false ->
  contains ";" vexline = true ->
  step st vexline =
  match prev_line st with
  | Some p => dispatch (set_prev_line st None) (strip (p ++ vexline))
  | None => dispatch st (strip vexline)
  end.
Proof.
  unfold step, is_comment_line. intros N C S.
  destruct (strip vexline) as [|c r]; [congruence|]. now rewrite C, S.
Qed.

(** C3 (as the code has it): a comment line is turned into a comment entry
    and routed at once, and the pending text of an unfinished line stays as
    it is: the next complete line is read with that text in front. *)
Theorem C3_comment_keeps_pending_text (st : ParserState) (vexline : pystr) :
  is_comment_line vexline = true ->
  let e := mkEntry comment None (VStr (tl (strip vexline))) in
  step st vexline = Ok (route_entry st e) /\
  prev_line (route_entry st e) = prev_line st /\
  (forall p next,
     prev_line st = Some p ->
     strip next <> [] -> is_comment_line next = false ->
     contains ";" next = true ->
     step (route_entry st e) next =
     dispatch (set_prev_line (route_entry st e) None) (strip (p ++ next))).
Proof.
  intros C e. split; [now apply step_comment|].
  split; [apply route_entry_prev_line|].
  intros p next P N NC S. rewrite step_complete by assumption.
  now rewrite route_entry_prev_line, P.
Qed.

Lemma C3_comment_keeps_pending_text_witness :
  let st := mkState (Vex_init "V") (Some (str "a = b" ++ [NL])) None None in
  let vexline := str "* note" ++ [NL] in
  let e := mkEntry comment None (VStr (tl (strip vexline))) in
  step st vexline = Ok (route_entry st e) /\
  prev_line (route_entry st e) = prev_line st /\
  (forall p next,
     prev_line st = Some p ->
     strip next <> [] -> is_comment_line next = false ->
     contains ";" next = true ->
     step (route_entry st e) next =
     dispatch (set_prev_line (route_entry st e) None) (strip (p ++ next))).
Proof.
  apply (@C3_comment_keeps_pending_text
           (mkState (Vex_init "V") (Some (str "a = b" ++ [NL])) None None)
           (str "* note" ++ [NL])).
  reflexivity.
Defined.

(** C3, against the claim as written: the text pending when the comment is
    read is part of the entry the next complete line gives. *)
Lemma C3_counterexample :
  from_file (Vex_init "V")
    ("a = b" ++ [NL] ++ "* note" ++ [NL] ++ "d;" ++ [NL])
  = Ok (mkVex "V"
          [ (comment_key 1, VEntry (mkEntry comment None (VStr " note")));
            (Some (str "a"),
             VEntry (mkEntry parameter (Some (str "a"))
                       (VStr ("b" ++ [NL] ++ "d")))) ]
          1).
Proof. reflexivity. Qed.

(** C9: what [to_file] does when [overwrite] is false.  The test reads the
    local [newfile] before the [with] statement binds it, so the call ends
    in [UnboundLocalError], never in [FileExistsError], whether the
    destination exists or not; nothing is written. *)
Theorem C9_to_file_without_overwrite (self : Vex) (filename : pystr)
    (fs : FileSystem) :
  to_file self filename false fs = (Raise UnboundLocalError, fs).
Proof. reflexivity. Qed.

Lemma parse_lines_app (st : ParserState) (a b : list pystr) :
  parse_lines st (a ++ b) = (st' <- parse_lines st a ;; parse_lines st' b).
Proof.
  revert st. induction a as [|l a IH]; intros st; simpl; [reflexivity|].
  destruct (step st l); simpl; [apply IH|reflexivity].
Qed.

Lemma step_blank (st : ParserState) (vexline : pystr) :
  strip vexline = [] -> step st vexline = Raise IndexError.
Proof. intros H. unfold step. now rewrite H. Qed.

(** C10: a text one of whose lines is empty or all blanks does not parse:
    reading that line raises [IndexError], the first character of the
    stripped line being taken without a test. *)
Theorem C10_blank_line_fails (self : Vex) (text vexline : pystr) :
  In vexline (readlines text) -> strip vexline = [] ->
  (exists e, from_file self text = Raise e) /\
  (forall before after st,
     readlines text = before ++ vexline :: after ->
     parse_lines (initial_state self) before = Ok st ->
     from_file self text = Raise IndexError).
Proof.
  intros I B. unfold from_file, from_lines. split.
  - apply in_split in I as (before & after & ->).
    rewrite parse_lines_app.
    destruct (parse_lines (initial_state self) before) as [st|e]; simpl;
      [|eauto].
    rewrite step_blank by assumption. simpl. eauto.
  - intros before after st E P. rewrite E, parse_lines_app, P. simpl.
    now rewrite step_blank.
Qed.

Lemma C10_blank_line_fails_witness :
  let text := str "a = 1;" ++ [NL] ++ [NL] ++ str "b = 2;" ++ [NL] in
  (exists e, from_file (Vex_init "V") text = Raise e) /\
  (forall before after st,
     readlines text = before ++ [NL] :: after ->
     parse_lines (initial_state (Vex_init "V")) before = Ok st ->
     from_file (Vex_init "V") text = Raise IndexError).
Proof.
  apply (@C10_blank_line_fails (Vex_init "V")
           (str "a = 1;" ++ [NL] ++ [NL] ++ str "b = 2;" ++ [NL]) [NL]).
  - simpl. right. left. reflexivity.
  - reflexivity.
Defined.

Lemma entry_from_text_no_ValueError (text m : pystr) :
  entry_from_text text <> Raise (ValueError m).
Proof.
  destruct (is_comment_line text) eqn:C.
  - now rewrite entry_from_text_comment.
  - rewrite entry_from_text_parts by assumption.
    destruct (strip text); [discriminate|].
    destruct (count "=" text =? 0); [discriminate|].
    destruct (strip (raw_value text)); [discriminate|]. cbv zeta.
    destruct (contains "ref " _); [|discriminate].
    destruct (count "$" _ =? 1); discriminate.
Qed.

Lemma index_some (c : ascii) (s : pystr) :
  In c s -> exists i, index c s = Some i.
Proof.
  induction s as [|x s IH]; simpl; [tauto|].
  destruct (Ascii.eqb x c) eqn:E; [eauto|].
  apply ascii_eqb_false in E. intros [H|H]; [congruence|].
  destruct (IH H) as [i ->]. simpl. eauto.
Qed.

Lemma startswith_firstn (p l : pystr) :
  pystr_eqb (firstn (List.length p) l) p = startswith p l.
Proof.
  revert l. induction p as [|a p IH]; intros l; simpl; [apply pystr_eqb_refl|].
  destruct l as [|b l]; simpl.
  - now apply pystr_eqb_false.
  - rewrite <- IH. destruct (Ascii.eqb a b) eqn:E; simpl.
    + apply ascii_eqb_true in E. subst b.
      destruct (pystr_eqb (firstn (List.length p) l) p) eqn:F.
      * apply pystr_eqb_true in F. apply pystr_eqb_true. congruence.
      * apply pystr_eqb_false in F. apply pystr_eqb_false. congruence.
    + apply ascii_eqb_false in E. apply pystr_eqb_false. congruence.
Qed.

(** The chain of tests of [dispatch], with [startswith] for the slices. *)
Lemma dispatch_chain (st : ParserState) (l : pystr) :
  dispatch st l =
  match l with
  | [] => Raise IndexError
  | c :: _ =>
      if Ascii.eqb c "$" then
        let self' := match current_section st with
                     | Some s => add_section (st_self st) (VSection s)
                     | None => st_self st
                     end in
        name <- name_upto_semicolon 1 l ;;
        Ok (mkState self' (prev_line st) (Some (Section_init name))
              (current_definition st))
      else if startswith "def " l then open_definition st Definition_init 4 l
      else if startswith "enddef" l then
        close_definition st "enddef without a previous def"
      else if startswith "scan " l then open_definition st Scan_init 5 l
      else if startswith "endscan" l then
        close_definition st "endscan without a previous scan"
      else e <- entry_from_text l ;; Ok (route_entry st e)
  end.
Proof.
  unfold dispatch. destruct l as [|c l']; [reflexivity|].
  now rewrite <- !startswith_firstn.
Qed.

Lemma name_upto_semicolon_ok (start : nat) (l : pystr) :
  In ";"%char l -> exists name, name_upto_semicolon start l = Ok name.
Proof.
  intros I. unfold name_upto_semicolon.
  destruct (index_some _ _ I) as [i ->]. eauto.
Qed.

Lemma startswith_head (a : ascii) (p l : pystr) :
  startswith (a :: p) l = true -> exists l', l = a :: l'.
Proof.
  destruct l as [|b l]; simpl; [discriminate|].
  destruct (Ascii.eqb a b) eqn:E; [|discriminate].
  apply ascii_eqb_true in E. subst b. eauto.
Qed.

Lemma keyword_prefixes_exclusive (l : pystr) :
  (startswith "def " l = true ->
     startswith "enddef" l = false /\ startswith "scan " l = false /\
     startswith "endscan" l = false) /\
  (startswith "scan " l = true ->
     startswith "enddef" l = false /\ startswith "endscan" l = false) /\
  (startswith "enddef" l = true -> startswith "endscan" l = false).
Proof.
  split; [|split]; intros H.
  - destruct (startswith_head "d"%char (str "ef ") l H) as [l' ->].
    repeat split.
  - destruct (startswith_head "s"%char (str "can ") l H) as [l' ->].
    repeat split.
  - destruct (startswith "endscan" l) eqn:H'; [|reflexivity].
    rewrite <- startswith_firstn in H, H'.
    apply pystr_eqb_true in H, H'.
    assert (E : firstn 4 (firstn (List.length (str "enddef")) l)
                = firstn 4 (firstn (List.length (str "endscan")) l))
      by (rewrite !firstn_firstn; reflexivity).
    rewrite H, H' in E. discriminate E.
Qed.

Lemma dispatch_nesting (st : ParserState) (l : pystr) :
  In ";"%char l ->
  ((exists m, dispatch st l = Raise (ValueError m)) <->
   (opens_block l && block_open st) || (closes_block l && negb (block_open st))
     = true) /\
  (forall m, dispatch st l = Raise (ValueError m) -> In m nesting_messages).
Proof.
  intros I. rewrite dispatch_chain.
  destruct l as [|c l']; [now elim I|].
  unfold opens_block, closes_block, block_open.
  destruct (@name_upto_semicolon_ok 1 _ I) as [n1 N1].
  destruct (@name_upto_semicolon_ok 4 _ I) as [n4 N4].
  destruct (@name_upto_semicolon_ok 5 _ I) as [n5 N5].
  destruct (keyword_prefixes_exclusive (c :: l')) as (X1 & X2 & X3).
  destruct (Ascii.eqb c "$") eqn:D.
  - apply ascii_eqb_true in D. subst c. rewrite N1. simpl.
    split; [split; [intros [m H]|]; discriminate|discriminate].
  - unfold open_definition, close_definition.
    destruct (startswith "def " (c :: l')) eqn:S1.
    + destruct (X1 eq_refl) as (-> & _ & ->).
      destruct (current_definition st); simpl.
      * split; [split; eauto|]. intros m H. injection H as <-. simpl. tauto.
      * rewrite N4. simpl. split; [split; [intros [m H]|]; discriminate|discriminate].
    + destruct (startswith "enddef" (c :: l')) eqn:S2.
      * rewrite (X3 eq_refl).
        destruct (startswith "scan " (c :: l')) eqn:S3;
          [destruct (X2 eq_refl); congruence|].
        destruct (current_definition st); simpl.
        -- destruct (current_section st);
             (split; [split; [intros [m H]|]; discriminate|discriminate]).
        -- split; [split; eauto|]. intros m H. injection H as <-. simpl. tauto.
      * destruct (startswith "scan " (c :: l')) eqn:S3.
        -- destruct (X2 eq_refl) as (_ & ->).
           destruct (current_definition st); simpl.
           ++ split; [split; eauto|]. intros m H. injection H as <-. simpl. tauto.
           ++ rewrite N5. simpl.
              split; [split; [intros [m H]|]; discriminate|discriminate].
        -- destruct (startswith "endscan" (c :: l')) eqn:S4.
           ++ destruct (current_definition st); simpl.
              ** destruct (current_section st);
                   (split; [split; [intros [m H]|]; discriminate|discriminate]).
              ** split; [split; eauto|]. intros m H. injection H as <-. simpl. tauto.
           ++ simpl orb. simpl andb.
              destruct (entry_from_text (c :: l')) as [e|[]] eqn:F; simpl;
                try (split; [split; [intros [m H]|]; discriminate|discriminate]).
              now apply entry_from_text_no_ValueError in F.
Qed.

Lemma contains_char_in (c : ascii) (s : pystr) :
  contains [c] s = true <-> In c s.
Proof.
  rewrite contains_char_true. split.
  - intros H. destruct (in_dec ascii_dec c s) as [I|I]; [assumption|].
    now apply count_zero_in in I.
  - intros I H. now apply count_zero_in in H.
Qed.

(** One line: a [ValueError] is a nesting violation, and conversely. *)
Lemma step_nesting (st : ParserState) (vexline : pystr) :
  ((exists m, step st vexline = Raise (ValueError m)) <->
   nesting_violation st vexline = true) /\
  (forall m, step st vexline = Raise (ValueError m) -> In m nesting_messages).
Proof.
  unfold nesting_violation, logical_line, step.
  destruct (strip vexline) as [|c r] eqn:S.
  - split; [split; [intros [m H]|]; discriminate|discriminate].
  - destruct (Ascii.eqb c "*").
    + destruct (entry_from_text vexline) as [e|[]] eqn:F; simpl;
        try (split; [split; [intros [m H]|]; discriminate|discriminate]).
      now apply entry_from_text_no_ValueError in F.
    + destruct (contains ";" vexline) eqn:C; simpl negb; cbv iota.
      * apply (contains_char_in ";"%char) in C.
        destruct (prev_line st) as [p|].
        -- change (block_open st) with (block_open (set_prev_line st None)).
           apply dispatch_nesting. apply in_strip; [|reflexivity].
           apply in_or_app. now right.
        -- rewrite <- S. apply dispatch_nesting. now apply in_strip.
      * destruct (prev_line st);
          (split; [split; [intros [m H]|]; discriminate|discriminate]).
Qed.

(** C8 (as the code has it): parsing ends in the [ValueError] of the
    nesting tests exactly when some line, the lines before it having been
    read without error, completes a line that begins with [def ] or
    [scan ] while a definition is open, or a line that begins with
    [enddef] or [endscan], whatever follows these letters, while none is;
    the lines after it play no part. *)
Theorem C8_nesting_errors (self : Vex) (vexlines : list pystr) :
  ((exists m, from_lines self vexlines = Raise (ValueError m)) <->
   (exists before vexline after st,
      vexlines = before ++ vexline :: after /\
      parse_lines (initial_state self) before = Ok st /\
      nesting_violation st vexline = true)) /\
  (forall m, from_lines self vexlines = Raise (ValueError m) ->
     In m nesting_messages).
Proof.
  unfold from_lines. generalize (initial_state self) as st.
  induction vexlines as [|l ls IH]; intros st.
  - simpl. split; [split|discriminate].
    + intros [m H]. discriminate.
    + intros (before & vexline & after & st' & E & _).
      now destruct before.
  - simpl. destruct (step_nesting st l) as [S1 S2].
    destruct (step st l) as [st1|e] eqn:St; simpl.
    + destruct (IH st1) as [I1 I2]. split; [|exact I2].
      rewrite I1. split.
      * intros (before & vexline & after & st' & -> & P & V).
        exists (l :: before), vexline, after, st'. simpl. rewrite St. simpl.
        repeat split; assumption.
      * intros (before & vexline & after & st' & E & P & V).
        destruct before as [|b before]; simpl in *.
        -- injection E as -> ->. injection P as ->.
           apply S1 in V as [m V]. discriminate.
        -- injection E as -> ->. rewrite St in P. simpl in P.
           exists before, vexline, after, st'. repeat split; assumption.
    + split.
      * split.
        -- intros [m H]. injection H as ->.
           exists [], l, ls, st. repeat split. apply S1. eauto.
        -- intros (before & vexline & after & st' & E & P & V).
           destruct before as [|b before]; simpl in *.
           ++ injection E as -> ->. injection P as ->.
              apply S1 in V as [m V]. injection V as ->. eauto.
           ++ injection E as -> ->. rewrite St in P. discriminate.
      * intros m H. injection H as ->. now apply S2.
Qed.

(** C8, against the claim as written: the line [enddefault = 1;] is no
    [enddef;] line and no block is open, yet it begins with [enddef] and
    the parse ends in the nesting error of [enddef]; so the errors are not
    exactly those of the claim's lines. *)
Lemma C8_counterexample :
  from_file (Vex_init "V") ("enddefault = 1;" ++ [NL]) =
    Raise (ValueError "enddef without a previous def") /\
  nesting_violation_as_claimed (initial_state (Vex_init "V"))
    ("enddefault = 1;" ++ [NL]) = false /\
  ~ (forall self vexlines,
       (exists m, from_lines self vexlines = Raise (ValueError m)) <->
       (exists before vexline after st,
          vexlines = before ++ vexline :: after /\
          parse_lines (initial_state self) before = Ok st /\
          nesting_violation_as_claimed st vexline = true)).
Proof.
  split; [reflexivity|]. split; [reflexivity|].
  intros H.
  destruct (proj1 (H (Vex_init "V") [str "enddefault = 1;" ++ [NL]]))
    as (before & vexline & after & st & E & P & V).
  - eexists. reflexivity.
  - destruct before as [|b before].
    + injection E as <- <-. injection P as <-. discriminate V.
    + injection E as _ E. now destruct before.
Qed.

(** * The round trip *)

(** ** Blanks and trimming *)


Lemma blank_nil : blank [].
Proof. reflexivity. Qed.

Lemma blank_app (a b : pystr) : blank a -> blank b -> blank (a ++ b).
Proof. unfold blank. rewrite forallb_app. now intros -> ->. Qed.

Lemma blank_app_inv (a b : pystr) : blank (a ++ b) -> blank a /\ blank b.
Proof. unfold blank. rewrite forallb_app. apply andb_prop. Qed.

Lemma blank_cons (c : ascii) (w : pystr) :
  blank (c :: w) <-> isspace c = true /\ blank w.
Proof. unfold blank. simpl. apply andb_true_iff. Qed.

Lemma lstrip_blank (w x : pystr) : blank w -> lstrip (w ++ x) = lstrip x.
Proof.
  induction w as [|c w IH]; intros B; [reflexivity|].
  apply blank_cons in B as [C B]. simpl. rewrite C. now apply IH.
Qed.

Lemma lstrip_blank_nil (w : pystr) : blank w -> lstrip w = [].
Proof. intros B. rewrite <- (app_nil_r w). now rewrite lstrip_blank. Qed.

Lemma lstrip_cons (c : ascii) (x : pystr) :
  isspace c = false -> lstrip (c :: x) = c :: x.
Proof. intros H. simpl. now rewrite H. Qed.

Lemma lstrip_fixed (x : pystr) :
  lstrip x = x <-> x = [] \/ exists c r, x = c :: r /\ isspace c = false.
Proof.
  split.
  - destruct x as [|c r]; [now left|]. intros H. right. exists c, r.
    split; [reflexivity|]. now apply (lstrip_head _ H).
  - intros [->|(c & r & -> & H)]; [reflexivity|now apply lstrip_cons].
Qed.

Lemma lstrip_idem (x : pystr) : lstrip (lstrip x) = lstrip x.
Proof.
  apply lstrip_fixed. destruct (lstrip x) as [|c r] eqn:E; [now left|].
  right. exists c, r. split; [reflexivity|]. now apply (lstrip_head _ E).
Qed.

Lemma lstrip_app (x y : pystr) : lstrip x <> [] -> lstrip (x ++ y) = lstrip x ++ y.
Proof.
  induction x as [|c x IH]; simpl; [congruence|].
  destruct (isspace c); [exact IH|reflexivity].
Qed.

Lemma rstrip_blank_nil (w : pystr) : blank w -> rstrip w = [].
Proof.
  induction w as [|c w IH]; intros B; [reflexivity|].
  apply blank_cons in B as [C B]. simpl. now rewrite IH, C.
Qed.

Lemma rstrip_app (x y : pystr) : rstrip y <> [] -> rstrip (x ++ y) = x ++ rstrip y.
Proof.
  intros N. induction x as [|c x IH]; [reflexivity|].
  simpl. rewrite IH. destruct (x ++ rstrip y) eqn:E; [|reflexivity].
  apply app_eq_nil in E as [_ E]. congruence.
Qed.

Lemma rstrip_blank (x w : pystr) : blank w -> rstrip (x ++ w) = rstrip x.
Proof.
  intros B. induction x as [|c x IH]; simpl; [now apply rstrip_blank_nil|].
  now rewrite IH.
Qed.

Lemma rstrip_last (x : pystr) (c : ascii) :
  isspace c = false -> rstrip (x ++ [c]) = x ++ [c].
Proof.
  intros H. rewrite rstrip_app; simpl; rewrite H; [reflexivity|discriminate].
Qed.

Lemma rstrip_cons (c : ascii) (x : pystr) :
  isspace c = false -> rstrip (c :: x) = c :: rstrip x.
Proof. intros H. simpl. destruct (rstrip x); [now rewrite H|reflexivity]. Qed.

Lemma rstrip_idem (x : pystr) : rstrip (rstrip x) = rstrip x.
Proof.
  induction x as [|c x IH]; [reflexivity|]. simpl.
  destruct (rstrip x) as [|y r] eqn:E.
  - destruct (isspace c) eqn:C; [reflexivity|]. simpl. now rewrite C.
  - simpl. simpl in IH. rewrite IH. reflexivity.
Qed.

Lemma rstrip_fixed_app (x y : pystr) :
  y <> [] -> rstrip y = y -> rstrip (x ++ y) = x ++ y.
Proof. intros N E. rewrite rstrip_app; rewrite E; [reflexivity|assumption]. Qed.


Lemma lstrip_rstrip_commute_head (x : pystr) :
  lstrip (rstrip (lstrip x)) = rstrip (lstrip x).
Proof.
  apply lstrip_fixed. destruct (lstrip x) as [|c r] eqn:E; [now left|].
  right. pose proof (lstrip_head _ E) as H. rewrite rstrip_cons by assumption.
  eauto.
Qed.

Lemma strip_trimmed (x : pystr) : trimmed (strip x).
Proof.
  split; unfold strip; [apply lstrip_rstrip_commute_head|apply rstrip_idem].
Qed.

Lemma trimmed_strip (y : pystr) : trimmed y <-> strip y = y.
Proof.
  split.
  - intros [L R]. unfold strip. now rewrite L.
  - intros <-. apply strip_trimmed.
Qed.

Lemma strip_idem (x : pystr) : strip (strip x) = strip x.
Proof. apply trimmed_strip, strip_trimmed. Qed.

(** Trimming takes the blanks of both ends away, and nothing else. *)
Lemma strip_unique (w1 y w2 : pystr) :
  blank w1 -> blank w2 -> trimmed y -> strip (w1 ++ y ++ w2) = y.
Proof.
  intros B1 B2 [L R]. unfold strip. rewrite lstrip_blank by assumption.
  destruct y as [|c r]; [simpl; now rewrite lstrip_blank_nil|].
  rewrite lstrip_app by (rewrite L; discriminate).
  rewrite L. rewrite rstrip_blank by assumption. exact R.
Qed.

Lemma strip_decompose (x : pystr) :
  exists w1 w2, x = w1 ++ strip x ++ w2 /\ blank w1 /\ blank w2.
Proof.
  destruct (lstrip_decompose x) as (w1 & E1 & B1).
  destruct (rstrip_decompose (lstrip x)) as (w2 & E2 & B2).
  exists w1, w2. unfold strip. repeat split; try assumption. congruence.
Qed.

Lemma strip_blank_l (w x : pystr) : blank w -> strip (w ++ x) = strip x.
Proof. intros B. unfold strip. now rewrite lstrip_blank. Qed.

Lemma strip_blank_r (x w : pystr) : blank w -> strip (x ++ w) = strip x.
Proof.
  intros B. destruct (strip_decompose x) as (w1 & w2 & E & B1 & B2).
  rewrite E at 1. rewrite <- !app_assoc.
  apply strip_unique; [assumption|now apply blank_app|apply strip_trimmed].
Qed.

Lemma strip_blank_nil (w : pystr) : blank w -> strip w = [].
Proof. intros B. unfold strip. now rewrite lstrip_blank_nil. Qed.

Lemma trimmed_nil : trimmed [].
Proof. split; reflexivity. Qed.

Lemma trimmed_head (c : ascii) (r : pystr) :
  trimmed (c :: r) -> isspace c = false.
Proof. intros [L _]. now apply (lstrip_head _ L). Qed.

Lemma trimmed_app (a b : pystr) :
  a <> [] -> b <> [] -> lstrip a = a -> rstrip b = b -> trimmed (a ++ b).
Proof.
  intros Na Nb L R. split.
  - rewrite lstrip_app; rewrite L; [reflexivity|assumption].
  - now apply rstrip_fixed_app.
Qed.

Lemma strip_head (x r : pystr) (c : ascii) :
  strip x = c :: r -> isspace c = false /\ exists r', lstrip x = c :: r'.
Proof.
  unfold strip. intros H.
  destruct (lstrip x) as [|c' r'] eqn:E; [discriminate|].
  pose proof (lstrip_head _ E) as S. rewrite rstrip_cons in H by assumption.
  injection H as -> _. eauto.
Qed.

Lemma lstrip_strip_head (x r : pystr) (c : ascii) :
  lstrip x = c :: r -> exists r', strip x = c :: r'.
Proof.
  intros E. unfold strip. rewrite E.
  rewrite rstrip_cons by apply (lstrip_head _ E). eauto.
Qed.

Lemma strip_nil_blank (x : pystr) : strip x = [] -> blank x.
Proof.
  intros H. destruct (strip_decompose x) as (w1 & w2 & E & B1 & B2).
  rewrite H in E. rewrite E. now apply blank_app.
Qed.

(** ** Cutting a text at a character *)

Lemma cut_at_first (c : ascii) (x : pystr) :
  count c x <> 0 -> exists a b, x = a ++ c :: b /\ count c a = 0.
Proof.
  induction x as [|y x IH]; simpl; [congruence|].
  destruct (Ascii.eqb y c) eqn:E.
  - apply ascii_eqb_true in E. subst y. intros _. now exists [], x.
  - simpl. intros H. destruct (IH H) as (a & b & -> & Z).
    exists (y :: a), b. simpl. now rewrite E.
Qed.

Lemma count_removelast (c : ascii) (x : pystr) :
  count c x = 0 -> count c (removelast x) = 0.
Proof.
  rewrite !count_zero_in. intros H I. apply H.
  destruct x as [|y x]; [assumption|].
  rewrite (app_removelast_last y) at 1 by discriminate.
  apply in_or_app. now left.
Qed.

Lemma count_strip (c : ascii) (x : pystr) : count c x = 0 -> count c (strip x) = 0.
Proof. rewrite !count_zero_in. intros H I. apply H. now apply strip_incl. Qed.

Lemma count_app_zero (c : ascii) (a b : pystr) :
  count c (a ++ b) = 0 <-> count c a = 0 /\ count c b = 0.
Proof. rewrite count_app. lia. Qed.

(** ** [readlines] *)

Lemma readlines_line (l rest : pystr) :
  count NL l = 0 -> readlines (l ++ NL :: rest) = (l ++ [NL]) :: readlines rest.
Proof.
  induction l as [|c l IH]; simpl; intros H.
  - reflexivity.
  - destruct (Ascii.eqb c NL); [discriminate|]. now rewrite IH.
Qed.

Lemma readlines_last (l : pystr) :
  count NL l = 0 -> l <> [] -> readlines l = [l].
Proof.
  induction l as [|c l IH]; simpl; intros H N; [congruence|].
  destruct (Ascii.eqb c NL); [discriminate|].
  destruct l as [|d l]; [reflexivity|]. now rewrite IH.
Qed.

Lemma readlines_app (a b : pystr) :
  readlines (a ++ NL :: b) = readlines (a ++ [NL]) ++ readlines b.
Proof.
  induction a as [|c a IH]; simpl.
  - reflexivity.
  - destruct (Ascii.eqb c NL); simpl; [now rewrite IH|].
    rewrite IH. destruct (readlines (a ++ [NL])) eqn:E; [|reflexivity].
    exfalso. clear -E. induction a as [|d a IH]; simpl in E.
    + discriminate.
    + destruct (Ascii.eqb d NL); [discriminate|].
      destruct (readlines (a ++ [NL])); [now apply IH|discriminate].
Qed.

Lemma physical_line (l : pystr) : count NL l = 0 -> physical (l ++ [NL]).
Proof.
  intros H. split; [now destruct l|]. now rewrite removelast_last.
Qed.

Lemma physical_cons (c : ascii) (l : pystr) :
  Ascii.eqb c NL = false -> physical l -> physical (c :: l).
Proof.
  intros E [N H]. split; [discriminate|].
  destruct l as [|d l]; [congruence|].
  change (count NL (removelast (c :: d :: l)))
    with ((if Ascii.eqb c NL then 1 else 0) + count NL (removelast (d :: l))).
  now rewrite E, H.
Qed.

Lemma readlines_physical (text : pystr) : Forall physical (readlines text).
Proof.
  induction text as [|c x IH]; simpl; [constructor|].
  destruct (Ascii.eqb c NL) eqn:E.
  - constructor; [|assumption]. split; [discriminate|reflexivity].
  - destruct (readlines x) as [|l ls].
    + constructor; [|constructor]. split; [discriminate|reflexivity].
    + inversion IH; subst. constructor; [|assumption].
      now apply physical_cons.
Qed.

(** A physical line is a text without a line break, with or without one
    at its end. *)
Lemma physical_inv (l : pystr) :
  physical l ->
  exists s, count NL s = 0 /\ (l = s ++ [NL] \/ (l = s /\ s <> [])).
Proof.
  intros [N H]. destruct (exists_last N) as (s & c & ->).
  rewrite removelast_last in H.
  destruct (Ascii.eqb c NL) eqn:E.
  - apply ascii_eqb_true in E. subst c. exists s. split; [assumption|now left].
  - exists (s ++ [c]). split.
    + rewrite count_app, H. simpl. now rewrite E.
    + right. split; [reflexivity|]. now destruct s.
Qed.

(** ** The line automaton *)

Lemma lrun_app (s : LineState) (a b : pystr) :
  lrun s (a ++ b) = lrun (lrun s a) b.
Proof. apply fold_left_app. Qed.

Lemma lrun_cons (s : LineState) (c : ascii) (x : pystr) :
  lrun s (c :: x) = lrun (lstep s c) x.
Proof. reflexivity. Qed.

Lemma lrun_fail (x : pystr) : lrun LFail x = LFail.
Proof. induction x as [|c x IH]; [reflexivity|exact IH]. Qed.

Lemma lrun_prefix (s : LineState) (a b : pystr) :
  lrun s (a ++ b) <> LFail -> lrun s a <> LFail.
Proof. rewrite lrun_app. intros H E. rewrite E, lrun_fail in H. congruence. Qed.

Lemma lle_refl (s : LineState) : lle s s = true.
Proof. now destruct s. Qed.

Lemma lle_trans (a b c : LineState) :
  lle a b = true -> lle b c = true -> lle a c = true.
Proof. destruct a, b, c; simpl; congruence. Qed.

Lemma lle_not_fail (a b : LineState) : lle a b = true -> a <> LFail -> b <> LFail.
Proof. destruct a, b; simpl; congruence. Qed.

Lemma lle_top (a : LineState) : lle a LIn = true.
Proof. now destruct a. Qed.

Lemma lle_step (a b : LineState) (c : ascii) :
  lle a b = true -> lle (lstep a c) (lstep b c) = true.
Proof.
  intros H.
  destruct (Ascii.eqb c NL) eqn:E1;
    [apply ascii_eqb_true in E1; subst c;
     destruct a, b; try discriminate H; reflexivity|].
  destruct (Ascii.eqb c ";") eqn:E2;
    [apply ascii_eqb_true in E2; subst c;
     destruct a, b; try discriminate H; reflexivity|].
  destruct (Ascii.eqb c "*") eqn:E3;
    [apply ascii_eqb_true in E3; subst c;
     destruct a, b; try discriminate H; reflexivity|].
  destruct a, b; try discriminate H; simpl; rewrite ?E1, ?E2, ?E3;
    destruct (isspace c); reflexivity.
Qed.

Lemma lle_run (a b : LineState) (x : pystr) :
  lle a b = true -> lle (lrun a x) (lrun b x) = true.
Proof.
  revert a b. induction x as [|c x IH]; intros a b H; [exact H|].
  rewrite !lrun_cons. apply IH. now apply lle_step.
Qed.

Lemma lle_lup (s : LineState) : lle s (lup s) = true.
Proof. now destruct s. Qed.

Lemma lup_mono (a b : LineState) : lle a b = true -> lle (lup a) (lup b) = true.
Proof. destruct a, b; simpl; congruence. Qed.

Lemma lup_idem (s : LineState) : lup (lup s) = lup s.
Proof. now destruct s. Qed.

Lemma lrun_equals_sign (s : LineState) : lrun s " = " = lup s.
Proof. now destruct s. Qed.

Lemma isspace_not_semicolon (c : ascii) :
  isspace c = true -> Ascii.eqb c ";" = false.
Proof.
  intros H. apply ascii_eqb_false. intros ->. discriminate.
Qed.

Lemma isspace_not_star (c : ascii) : isspace c = true -> Ascii.eqb c "*" = false.
Proof.
  intros H. apply ascii_eqb_false. intros ->. discriminate.
Qed.

Lemma not_isspace_not_NL (c : ascii) : isspace c = false -> Ascii.eqb c NL = false.
Proof.
  intros H. apply ascii_eqb_false. intros ->. discriminate.
Qed.

Lemma lstep_blank (s : LineState) (c : ascii) :
  isspace c = true -> lle (lup (lstep s c)) (lup s) = true.
Proof.
  intros H. destruct s; simpl; rewrite ?H, ?(isspace_not_semicolon _ H);
    destruct (Ascii.eqb c NL); reflexivity.
Qed.

(** Blanks leave the automaton no further than a blank-free text would. *)
Lemma lrun_blank (s : LineState) (w : pystr) :
  blank w -> lle (lrun s w) (lup s) = true.
Proof.
  revert s. induction w as [|c w IH]; intros s B; [apply lle_lup|].
  apply blank_cons in B as [C B]. rewrite lrun_cons.
  eapply lle_trans; [now apply IH|now apply lstep_blank].
Qed.

Lemma lrun_blank_line (s : LineState) (w : pystr) :
  blank w -> count NL w = 0 -> lrun s w = s.
Proof.
  revert s. induction w as [|c w IH]; intros s B N; [reflexivity|].
  apply blank_cons in B as [C B]. simpl in N.
  destruct (Ascii.eqb c NL) eqn:E; [discriminate|].
  rewrite lrun_cons, IH by assumption.
  destruct s; simpl; now rewrite ?E, ?C, ?(isspace_not_semicolon _ C).
Qed.

Lemma lstep_equals_sign (s : LineState) : lstep (lup s) "=" = lup s.
Proof. now destruct s. Qed.

(** Blanks, [=], blanks: no further than [ = ]. *)
Lemma lrun_around_equals (s : LineState) (w1 w2 : pystr) :
  blank w1 -> blank w2 -> lle (lrun s (w1 ++ "=" ++ w2)) (lup s) = true.
Proof.
  intros B1 B2. rewrite lrun_app. change ("=" ++ w2) with ("="%char :: w2).
  rewrite lrun_cons.
  eapply lle_trans; [now apply lrun_blank|].
  rewrite <- (lup_idem s). apply lup_mono. rewrite <- lstep_equals_sign.
  apply lle_step. now apply lrun_blank.
Qed.

(** *** One line *)

Lemma lrun_in_line (l : pystr) :
  count NL l = 0 ->
  lrun LIn l = (if contains ";" l then LSemi else LIn) /\ lrun LSemi l = LSemi.
Proof.
  induction l as [|c l IH]; intros N; [now split|].
  simpl in N. destruct (Ascii.eqb c NL) eqn:E; [discriminate|].
  destruct (IH N) as [I S]. rewrite !lrun_cons. simpl lstep. rewrite E.
  split; [|exact S].
  change (contains ";" (c :: l)) with (startswith ";" (c :: l) || contains ";" l).
  change (startswith ";" (c :: l)) with (Ascii.eqb ";" c && true).
  rewrite andb_true_r, (Ascii.eqb_sym ";" c).
  destruct (Ascii.eqb c ";"); [exact S|exact I].
Qed.

Lemma contains_blank_prefix (w x : pystr) :
  blank w -> contains ";" (w ++ x) = contains ";" x.
Proof.
  induction w as [|c w IH]; intros B; [reflexivity|].
  apply blank_cons in B as [C B].
  change (contains ";" ((c :: w) ++ x))
    with (Ascii.eqb ";" c && true || contains ";" (w ++ x)).
  rewrite andb_true_r, (Ascii.eqb_sym ";" c), (isspace_not_semicolon _ C).
  now apply IH.
Qed.

(** The state at the end of a line without a line break. *)
Lemma lrun_line (l : pystr) :
  count NL l = 0 ->
  lrun LStart l =
  match lstrip l with
  | [] => LStart
  | c :: _ => if Ascii.eqb c "*" then LFail
              else if contains ";" l then LSemi else LIn
  end.
Proof.
  intros N. destruct (lstrip_decompose l) as (w & E & B).
  assert (Nw : count NL w = 0 /\ count NL (lstrip l) = 0)
    by (apply count_app_zero; now rewrite <- E).
  destruct Nw as [Nw Nl]. rewrite E at 1. rewrite lrun_app.
  rewrite (lrun_blank_line _ B Nw).
  destruct (lstrip l) as [|c r] eqn:L; [reflexivity|].
  pose proof (lstrip_head _ L) as C.
  rewrite lrun_cons. simpl lstep.
  rewrite (not_isspace_not_NL _ C), C.
  destruct (Ascii.eqb c "*"); [apply lrun_fail|].
  simpl in Nl. rewrite (not_isspace_not_NL _ C) in Nl.
  destruct (lrun_in_line _ Nl) as [I S].
  rewrite E, (contains_blank_prefix _ B).
  change (contains ";" (c :: r)) with (Ascii.eqb ";" c && true || contains ";" r).
  rewrite andb_true_r, (Ascii.eqb_sym ";" c).
  destruct (Ascii.eqb c ";"); [exact S|exact I].
Qed.

(** A text that ends inside a line with a [;] is one such line, or a line
    without [;] followed by such a text. *)
Lemma lrun_statement (x : pystr) :
  lrun LStart x = LSemi ->
  count NL x = 0 \/
  exists l x', x = l ++ NL :: x' /\ count NL l = 0 /\
               lrun LStart l = LIn /\ lrun LStart x' = LSemi.
Proof.
  intros H. destruct (count NL x) eqn:N; [now left|]. right.
  destruct (@cut_at_first NL x) as (l & x' & E & Z); [lia|].
  exists l, x'. split; [exact E|]. split; [exact Z|].
  rewrite E, lrun_app, lrun_cons in H.
  destruct (lrun LStart l); simpl in H;
    try (rewrite lrun_fail in H; discriminate).
  split; [reflexivity|exact H].
Qed.

(** ** Reading one statement *)


Lemma set_prev_line_same (st : ParserState) :
  set_prev_line st (prev_line st) = st.
Proof. now destruct st. Qed.

Lemma contains_char_app (c : ascii) (a b : pystr) :
  contains [c] (a ++ b) = contains [c] a || contains [c] b.
Proof.
  rewrite !contains_char, count_app.
  destruct (count c a), (count c b); reflexivity.
Qed.

Lemma parse_lines_cons (st : ParserState) (l : pystr) (ls : list pystr) :
  parse_lines st (l :: ls) = (st' <- step st l ;; parse_lines st' ls).
Proof. reflexivity. Qed.

(** A line without [;] goes to the pending text. *)
Lemma step_pending (st : ParserState) (b : option pystr) (l : pystr) :
  count NL l = 0 -> lrun LStart l = LIn ->
  step (set_prev_line st b) (l ++ [NL]) =
  Ok (set_prev_line st (Some (pending_text b ++ l ++ [NL]))).
Proof.
  intros N R. rewrite lrun_line in R by assumption.
  destruct (lstrip l) as [|c r] eqn:L; [discriminate|].
  destruct (Ascii.eqb c "*") eqn:S; [discriminate|].
  destruct (contains ";" l) eqn:C; [discriminate|].
  destruct (lstrip_strip_head _ L) as [r' E].
  unfold step. rewrite (@strip_blank_r l [NL]) by reflexivity.
  rewrite E, S.
  change (contains ";" (l ++ [NL])) with (contains [";"%char] (l ++ [NL])).
  rewrite contains_char_app.
  change (contains [";"%char] l) with (contains ";" l). rewrite C.
  destruct b; reflexivity.
Qed.

(** A line with a [;] completes the pending text. *)
Lemma step_statement (st : ParserState) (b : option pystr) (l : pystr) :
  count NL l = 0 -> lrun LStart l = LSemi ->
  step (set_prev_line st b) (l ++ [NL]) =
  dispatch (set_prev_line st None) (strip (pending_text b ++ l)).
Proof.
  intros N R. rewrite lrun_line in R by assumption.
  destruct (lstrip l) as [|c r] eqn:L; [discriminate|].
  destruct (Ascii.eqb c "*") eqn:S; [discriminate|].
  destruct (contains ";" l) eqn:C; [|discriminate].
  destruct (lstrip_strip_head _ L) as [r' E].
  unfold step. rewrite (@strip_blank_r l [NL]) by reflexivity.
  rewrite E, S.
  change (contains ";" (l ++ [NL])) with (contains [";"%char] (l ++ [NL])).
  rewrite contains_char_app.
  change (contains [";"%char] l) with (contains ";" l). rewrite C.
  simpl negb. cbv iota. destruct b as [p|]; simpl prev_line; cbv iota.
  - rewrite app_assoc, strip_blank_r by reflexivity. reflexivity.
  - rewrite <- E. reflexivity.
Qed.

(** The lines of a statement are read as the one line they make. *)
Lemma parse_statement (x rest : pystr) :
  lrun LStart x = LSemi ->
  forall st b,
  parse_lines (set_prev_line st b) (readlines (x ++ NL :: rest)) =
  (st' <- dispatch (set_prev_line st None) (strip (pending_text b ++ x)) ;;
   parse_lines st' (readlines rest)).
Proof.
  remember (List.length x) as n eqn:Len. revert x Len.
  induction n as [n IH] using lt_wf_ind. intros x Len R st b.
  destruct (lrun_statement _ R) as [N|(l & x' & E & N & Rl & Rx)].
  - rewrite readlines_line by assumption. rewrite parse_lines_cons.
    now rewrite step_statement.
  - subst x. rewrite <- app_assoc. simpl app.
    rewrite readlines_line by assumption. rewrite parse_lines_cons.
    rewrite step_pending by assumption. simpl bind.
    rewrite (IH (List.length x')); [|subst n; rewrite length_app; simpl; lia|reflexivity|assumption].
    simpl pending_text. rewrite <- !app_assoc. reflexivity.
Qed.

Lemma parse_statement_fresh (x rest : pystr) (st : ParserState) :
  lrun LStart x = LSemi -> prev_line st = None ->
  parse_lines st (readlines (x ++ NL :: rest)) =
  (st' <- dispatch st (strip x) ;; parse_lines st' (readlines rest)).
Proof.
  intros R P. rewrite <- (set_prev_line_same st), P.
  rewrite parse_statement by assumption. reflexivity.
Qed.

(** ** Keywords at the head of a line *)

Lemma startswith_app (p a b : pystr) :
  startswith p a = true -> startswith p (a ++ b) = true.
Proof.
  revert a. induction p as [|x p IH]; intros a; [reflexivity|].
  destruct a as [|y a]; simpl; [discriminate|].
  destruct (Ascii.eqb x y); simpl; [apply IH|discriminate].
Qed.

Lemma startswith_app_other (c : ascii) (kw a rest : pystr) :
  ~ In c kw -> startswith kw (a ++ c :: rest) = startswith kw a.
Proof.
  revert a. induction kw as [|x kw IH]; intros a N; [reflexivity|].
  destruct a as [|y a]; simpl.
  - destruct (Ascii.eqb x c) eqn:E; [|reflexivity].
    apply ascii_eqb_true in E. subst x. elim N. now left.
  - rewrite IH; [reflexivity|]. intros I. apply N. now right.
Qed.

Lemma startswith_app_last (c : ascii) (p a rest : pystr) :
  ~ In c p -> startswith (p ++ [c]) (a ++ c :: rest) = true ->
  startswith (p ++ [c]) a = true \/ a = p.
Proof.
  revert a. induction p as [|x p IH]; intros a N H.
  - destruct a as [|y a]; [now right|]. left. simpl in *.
    destruct (Ascii.eqb c y); [reflexivity|discriminate].
  - destruct a as [|y a]; simpl in H.
    + destruct (Ascii.eqb x c) eqn:E; [|discriminate].
      apply ascii_eqb_true in E. subst x. elim N. now left.
    + simpl. destruct (Ascii.eqb x y) eqn:E; [|discriminate].
      apply ascii_eqb_true in E. subst y. simpl in *.
      destruct (IH a) as [L| ->]; [intros I; apply N; now right|exact H| |];
        [now left|now right].
Qed.

Lemma keyword_line_false (l : pystr) :
  keyword_line l = false <->
  startswith "$" l = false /\ startswith "def " l = false /\
  startswith "enddef" l = false /\ startswith "scan " l = false /\
  startswith "endscan" l = false.
Proof.
  unfold keyword_line. rewrite !orb_false_iff. tauto.
Qed.

(** A line that starts with no keyword goes to [entry_from_text]. *)
Lemma dispatch_entry (st : ParserState) (l : pystr) :
  l <> [] -> keyword_line l = false ->
  dispatch st l = (e <- entry_from_text l ;; Ok (route_entry st e)).
Proof.
  intros N K. apply keyword_line_false in K as (K0 & K1 & K2 & K3 & K4).
  rewrite dispatch_chain. destruct l as [|c l]; [congruence|].
  rewrite K1, K2, K3, K4.
  change (startswith "$" (c :: l)) with (Ascii.eqb "$" c && true) in K0.
  rewrite andb_true_r, Ascii.eqb_sym in K0. now rewrite K0.
Qed.

(** The key of a parameter, followed by a blank, starts with no keyword
    unless it is [def] or [scan]. *)
Lemma keyword_line_key (k rest : pystr) :
  keyword_line k = false -> k <> str "def" -> k <> str "scan" ->
  keyword_line (k ++ " "%char :: rest) = false.
Proof.
  intros K D S. apply keyword_line_false in K as (K0 & K1 & K2 & K3 & K4).
  apply keyword_line_false. repeat split.
  - rewrite startswith_app_other; [exact K0|]. simpl. intuition discriminate.
  - destruct (startswith "def " (k ++ " "%char :: rest)) eqn:E; [|reflexivity].
    apply (@startswith_app_last " "%char (str "def")) in E as [E|E];
      [change (startswith "def " k = true) in E; congruence|contradiction|].
    simpl. intuition discriminate.
  - rewrite startswith_app_other; [exact K2|]. simpl. intuition discriminate.
  - destruct (startswith "scan " (k ++ " "%char :: rest)) eqn:E; [|reflexivity].
    apply (@startswith_app_last " "%char (str "scan")) in E as [E|E];
      [change (startswith "scan " k = true) in E; congruence|contradiction|].
    simpl. intuition discriminate.
  - rewrite startswith_app_other; [exact K4|]. simpl. intuition discriminate.
Qed.

Lemma lrun_head_not_star (c : ascii) (r : pystr) :
  lrun LStart (c :: r) <> LFail -> isspace c = false -> Ascii.eqb c "*" = false.
Proof.
  intros R S. rewrite lrun_cons in R. simpl in R.
  rewrite (not_isspace_not_NL _ S), S in R.
  destruct (Ascii.eqb c "*"); [|reflexivity].
  now rewrite lrun_fail in R.
Qed.

(** ** Reading a written entry *)

Lemma trimmed_semicolon (v : pystr) : lstrip v = v -> trimmed (v ++ ";").
Proof.
  intros L. split.
  - destruct v as [|c r]; [reflexivity|].
    rewrite lstrip_app; rewrite L; [reflexivity|discriminate].
  - now apply rstrip_last.
Qed.

Lemma strip_value_semicolon (v : pystr) :
  lstrip v = v -> strip (" " ++ v ++ ";") = v ++ ";".
Proof.
  intros L. rewrite (@strip_blank_l " ") by reflexivity.
  now apply trimmed_strip, trimmed_semicolon.
Qed.

(** [entry_from_text] on a line whose value part is written [ = v;]. *)
Lemma entry_from_text_written (rk vt : pystr) :
  count "=" rk = 0 ->
  is_comment_line (rk ++ "=" ++ " " ++ vt ++ ";") = false ->
  lstrip vt = vt ->
  entry_from_text (rk ++ "=" ++ " " ++ vt ++ ";") =
    let value := if contains ":" vt then VList (split ":" vt) else VStr vt in
    if contains "ref " (strip rk) then
      if count "$" (strip rk) =? 1
      then Ok (mkEntry variable
                 (Some (strip (nth 1 (split "$" (strip rk)) []))) value)
      else Raise AssertionError
    else Ok (mkEntry parameter (Some (strip rk)) value).
Proof.
  intros K C L. rewrite entry_from_text_parts by assumption.
  set (text := rk ++ "=" ++ " " ++ vt ++ ";") in *.
  assert (R : raw_value text = " " ++ vt ++ ";") by now apply raw_value_first.
  assert (V : value_text text = vt).
  { unfold value_text. rewrite R, strip_value_semicolon by assumption.
    apply drop_terminator_semicolon. }
  assert (Hd : hd [] (split "=" text) = rk).
  { unfold text. change ("=" ++ " " ++ vt ++ ";")
      with ("="%char :: " " ++ vt ++ ";").
    now rewrite split_first. }
  assert (I : In "="%char (strip text)).
  { apply in_strip; [|reflexivity]. unfold text. apply in_or_app. right. now left. }
  assert (Cn : count "=" text <> 0).
  { unfold text. rewrite count_app. simpl. lia. }
  rewrite Hd, V, R, strip_value_semicolon by assumption.
  destruct (strip text) as [|c r]; [now elim I|].
  destruct (count "=" text); [congruence|]. simpl Nat.eqb. cbv iota.
  destruct (vt ++ ";") eqn:E; [now destruct vt|]. reflexivity.
Qed.

Lemma blank_spaces (n : nat) : blank (repeat " "%char n).
Proof. induction n; [reflexivity|exact IHn]. Qed.

Lemma count_NL_spaces (n : nat) : count NL (repeat " "%char n) = 0.
Proof. induction n; [reflexivity|exact IHn]. Qed.

Lemma lrun_spaces (s : LineState) (n : nat) : lrun s (repeat " "%char n) = s.
Proof. apply lrun_blank_line; [apply blank_spaces|apply count_NL_spaces]. Qed.

Lemma lstep_semicolon (s : LineState) : s <> LFail -> lstep s ";" = LSemi.
Proof. destruct s; simpl; congruence. Qed.

Lemma lrun_semicolon (s : LineState) (x : pystr) :
  lrun s x <> LFail -> lrun s (x ++ ";") = LSemi.
Proof. intros H. rewrite lrun_app. now apply lstep_semicolon. Qed.

Lemma is_comment_line_cons (c : ascii) (r : pystr) :
  trimmed (c :: r) -> is_comment_line (c :: r) = Ascii.eqb c "*".
Proof.
  intros T. unfold is_comment_line. apply trimmed_strip in T. now rewrite T.
Qed.

Lemma reparse_comment (c rest : pystr) (h : option nat) (st : ParserState) :
  count NL c = 0 -> strip ("*" ++ c) = "*" ++ c ->
  parse_lines st
    (readlines (Entry_to_string (mkEntry comment None (VStr c)) h ++ rest)) =
  parse_lines (route_entry st (mkEntry comment None (VStr c))) (readlines rest).
Proof.
  intros N S. unfold Entry_to_string, Entry_str. simpl e_type. cbv iota.
  simpl format_value.
  replace (("*" ++ c ++ [NL]) ++ rest) with (("*" ++ c) ++ NL :: rest)
    by (rewrite <- !app_assoc; reflexivity).
  rewrite readlines_line by exact N. rewrite parse_lines_cons.
  rewrite step_comment.
  - rewrite strip_blank_r by reflexivity. now rewrite S.
  - unfold is_comment_line. rewrite strip_blank_r by reflexivity. now rewrite S.
Qed.

Lemma written_parameter_line (k vt : pystr) :
  strip k = k -> lstrip vt = vt ->
  strip (k ++ " = " ++ vt ++ ";") =
  match k with
  | [] => "= " ++ vt ++ ";"
  | _ :: _ => k ++ " = " ++ vt ++ ";"
  end.
Proof.
  intros K L. destruct k as [|c r].
  - change ([] ++ " = " ++ vt ++ ";") with (" " ++ ("=" ++ " " ++ vt) ++ ";").
    rewrite (@strip_blank_l " ") by reflexivity.
    change ("= " ++ vt ++ ";") with (("=" ++ " " ++ vt) ++ ";").
    apply (proj1 (trimmed_strip _)). split; [reflexivity|]. now apply rstrip_last.
  - apply (proj1 (trimmed_strip _)). apply trimmed_strip in K as [Kl Kr].
    apply trimmed_app; [discriminate|discriminate|assumption|].
    change (" = " ++ vt ++ ";") with ((" = " ++ vt) ++ ";").
    now apply rstrip_last.
Qed.

Lemma reparse_parameter (k : pystr) (v : Value) (rest : pystr)
    (h : option nat) (st : ParserState) :
  wf_entry (mkEntry parameter (Some k) v) ->
  k <> str "def" -> k <> str "scan" -> prev_line st = None ->
  parse_lines st
    (readlines (Entry_to_string (mkEntry parameter (Some k) v) h ++ rest)) =
  parse_lines (route_entry st (mkEntry parameter (Some k) v)) (readlines rest).
Proof.
  intros W0 D S P. unfold wf_entry in W0. cbn [e_type e_key e_value] in W0.
  destruct W0 as (K & E & F & W & C & L & R).
  unfold Entry_to_string, Entry_str. simpl e_type. cbv iota.
  simpl render_key. simpl e_value.
  set (vt := render_value v) in *.
  set (s := match h with
            | Some n => repeat " "%char n
            | None => repeat " "%char 5
            end).
  assert (Bs : blank s) by (destruct h; apply blank_spaces).
  assert (Rs : lrun LStart s = LStart) by (destruct h; apply lrun_spaces).
  replace ((s ++ k ++ " = " ++ vt ++ ";" ++ [NL]) ++ rest)
    with ((s ++ (k ++ " = " ++ vt) ++ ";") ++ NL :: rest)
    by (rewrite <- !app_assoc; reflexivity).
  rewrite parse_statement_fresh; [|rewrite lrun_app, Rs; now apply lrun_semicolon|exact P].
  rewrite strip_blank_l by exact Bs. rewrite <- !app_assoc.
  rewrite written_parameter_line by assumption.
  assert (V : (if contains ":" vt then VList (split ":" vt) else VStr vt) = v)
    by (symmetry; exact C).
  destruct k as [|c r].
  - rewrite dispatch_entry; [|discriminate|reflexivity].
    change ("= " ++ vt ++ ";") with ([] ++ "=" ++ " " ++ vt ++ ";").
    rewrite entry_from_text_written; [|reflexivity| |exact L].
    + cbv zeta. change (strip []) with (@nil ascii).
      change (contains "ref " []) with false. cbv iota. now rewrite V.
    + change ([] ++ "=" ++ " " ++ vt ++ ";") with ("="%char :: " " ++ vt ++ ";").
      rewrite is_comment_line_cons; [reflexivity|].
      change ("="%char :: " " ++ vt ++ ";") with ("= " ++ vt ++ ";").
      rewrite <- (@written_parameter_line [] vt) by assumption.
      apply strip_trimmed.
  - assert (T : trimmed ((c :: r) ++ " = " ++ vt ++ ";")).
    { apply trimmed_strip. rewrite written_parameter_line by assumption.
      reflexivity. }
    rewrite dispatch_entry;
      [|discriminate|now apply (@keyword_line_key (c :: r) ("= " ++ vt ++ ";"))].
    replace ((c :: r) ++ " = " ++ vt ++ ";")
      with (((c :: r) ++ " ") ++ "=" ++ " " ++ vt ++ ";") in *
      by (rewrite <- !app_assoc; reflexivity).
    rewrite entry_from_text_written.
    + cbv zeta. rewrite strip_blank_r by reflexivity. rewrite K, F, V.
      reflexivity.
    + rewrite count_app, E. reflexivity.
    + simpl app in T |- *. rewrite is_comment_line_cons by exact T.
      apply trimmed_strip in K. apply trimmed_head in K.
      now apply (@lrun_head_not_star c (r ++ " = " ++ vt)).
    + exact L.
Qed.

Lemma written_variable_line (k vt : pystr) :
  strip k = k ->
  trimmed ("ref $" ++ k ++ " = " ++ vt ++ ";") /\ strip ("ref $" ++ k ++ " ") = "ref $" ++ k.
Proof.
  intros K. split.
  - apply trimmed_app; [discriminate|now destruct k|reflexivity|].
    change (k ++ " = " ++ vt ++ ";") with (k ++ (" = " ++ vt) ++ ";").
    rewrite app_assoc. now apply rstrip_last.
  - rewrite app_assoc, strip_blank_r by reflexivity.
    apply (proj1 (trimmed_strip _)). apply trimmed_strip in K as [Kl Kr].
    destruct k as [|c r]; [split; reflexivity|].
    apply trimmed_app; [discriminate|discriminate|reflexivity|assumption].
Qed.

Lemma reparse_variable (k : pystr) (v : Value) (rest : pystr)
    (h : option nat) (st : ParserState) :
  wf_entry (mkEntry variable (Some k) v) -> prev_line st = None ->
  parse_lines st
    (readlines (Entry_to_string (mkEntry variable (Some k) v) h ++ rest)) =
  parse_lines (route_entry st (mkEntry variable (Some k) v)) (readlines rest).
Proof.
  intros W0 P. unfold wf_entry in W0. cbn [e_type e_key e_value] in W0.
  destruct W0 as (K & E & F & C & L & R).
  unfold Entry_to_string, Entry_str. simpl e_type. cbv iota.
  simpl render_key. simpl e_value.
  set (vt := render_value v) in *.
  set (s := match h with
            | Some n => repeat " "%char n
            | None => repeat " "%char 5
            end).
  assert (Bs : blank s) by (destruct h; apply blank_spaces).
  assert (Rs : lrun LStart s = LStart) by (destruct h; apply lrun_spaces).
  replace ((s ++ "ref $" ++ k ++ " = " ++ vt ++ ";" ++ [NL]) ++ rest)
    with ((s ++ ("ref $" ++ k ++ " = " ++ vt) ++ ";") ++ NL :: rest)
    by (rewrite <- !app_assoc; reflexivity).
  rewrite parse_statement_fresh;
    [|rewrite lrun_app, Rs; apply lrun_semicolon; rewrite lrun_app; exact R|exact P].
  rewrite strip_blank_l by exact Bs. rewrite <- !app_assoc.
  destruct (written_variable_line vt K) as [T Sk].
  rewrite (proj1 (trimmed_strip _) T).
  rewrite dispatch_entry; [|discriminate|reflexivity].
  replace ("ref $" ++ k ++ " = " ++ vt ++ ";")
    with (("ref $" ++ k ++ " ") ++ "=" ++ " " ++ vt ++ ";") in *
    by (rewrite <- !app_assoc; reflexivity).
  assert (V : (if contains ":" vt then VList (split ":" vt) else VStr vt) = v)
    by (symmetry; exact C).
  rewrite entry_from_text_written.
  - cbv zeta. rewrite Sk, V.
    change (contains "ref " ("ref $" ++ k)) with true. cbv iota.
    change (count "$" ("ref $" ++ k)) with (S (count "$" k)). rewrite F.
    simpl Nat.eqb. cbv iota.
    change ("ref $" ++ k) with ("ref " ++ "$"%char :: k).
    rewrite split_first by reflexivity. rewrite split_no_sep by exact F.
    simpl nth. rewrite K. reflexivity.
  - rewrite !count_app, E. reflexivity.
  - unfold is_comment_line. rewrite (proj1 (trimmed_strip _) T). reflexivity.
  - exact L.
Qed.

(** The lines of a written entry give the entry back. *)
Lemma reparse_entry (e : Entry) (h : option nat) (st : ParserState)
    (rest : pystr) :
  wf_entry e -> keyword_key e = false -> prev_line st = None ->
  parse_lines st (readlines (Entry_to_string e h ++ rest)) =
  parse_lines (route_entry st e) (readlines rest).
Proof.
  destruct e as [t k v]. unfold keyword_key. simpl e_type. simpl e_key.
  intros W Kw P. destruct t, k as [k|]; try now elim W.
  - destruct v as [c|l]; [|now elim W]. destruct W as [N S].
    now apply reparse_comment.
  - apply orb_false_iff in Kw as [D S].
    apply pystr_eqb_false in D, S. now apply reparse_parameter.
  - now apply reparse_variable.
Qed.

(** ** Building a dictionary again from its items *)

Section OrderedDictRebuild.
Variable V : Type.
Implicit Types (d : odict V) (k : pykey) (v : V).

Lemma od_keys_app d d' : od_keys (d ++ d') = od_keys d ++ od_keys d'.
Proof. apply map_app. Qed.

(** A key that is not there goes last. *)
Lemma od_set_new k v d : ~ In k (od_keys d) -> od_set k v d = d ++ [(k, v)].
Proof.
  induction d as [|[k' v'] d IH]; simpl; intros N; [reflexivity|].
  destruct (pykey_eqb k k') eqn:E.
  - apply pykey_eqb_true in E. subst k'. tauto.
  - rewrite IH; tauto.
Qed.

Lemma od_get_new k d : ~ In k (od_keys d) -> od_get k d = None.
Proof. apply od_get_none_keys. Qed.

(** The last key, when it is nowhere else. *)
Lemma od_get_last k v d : ~ In k (od_keys d) -> od_get k (d ++ [(k, v)]) = Some v.
Proof.
  induction d as [|[k' v'] d IH]; simpl; intros N.
  - now rewrite pykey_eqb_refl.
  - destruct (pykey_eqb k k') eqn:E.
    + apply pykey_eqb_true in E. subst k'. tauto.
    + apply IH. tauto.
Qed.

Lemma od_set_last k v v' d :
  ~ In k (od_keys d) -> od_set k v' (d ++ [(k, v)]) = d ++ [(k, v')].
Proof.
  induction d as [|[k0 v0] d IH]; simpl; intros N.
  - now rewrite pykey_eqb_refl.
  - destruct (pykey_eqb k k0) eqn:E.
    + apply pykey_eqb_true in E. subst k0. tauto.
    + rewrite IH; tauto.
Qed.

Lemma NoDup_keys_head k v d d' :
  NoDup (od_keys (d ++ (k, v) :: d')) -> ~ In k (od_keys d).
Proof.
  rewrite od_keys_app. simpl. intros N I.
  apply NoDup_remove_2 in N. apply N. apply in_or_app. now left.
Qed.

Lemma od_get_in k v d : od_get k d = Some v -> In (k, v) d.
Proof.
  induction d as [|[k' v'] d IH]; simpl; [discriminate|].
  destruct (pykey_eqb k k') eqn:E.
  - apply pykey_eqb_true in E. subst k'. intros H. injection H as ->. now left.
  - intros H. right. now apply IH.
Qed.

Lemma od_set_Forall (P : pykey * V -> Prop) k v d :
  Forall P d -> P (k, v) -> Forall P (od_set k v d).
Proof.
  intros F H. induction d as [|[k' v'] d IH]; simpl.
  - now constructor.
  - inversion F; subst. destruct (pykey_eqb k k') eqn:E.
    + apply pykey_eqb_true in E. subst k'. now constructor.
    + constructor; [assumption|now apply IH].
Qed.

Lemma count_comments_app (is_c : V -> bool) d d' :
  count_comments is_c (d ++ d') = count_comments is_c d + count_comments is_c d'.
Proof. unfold count_comments. now rewrite filter_app, length_app. Qed.

Lemma count_comments_one (is_c : V -> bool) k v :
  count_comments is_c [(k, v)] = if is_c v then 1 else 0.
Proof. unfold count_comments. simpl. now destruct (is_c v). Qed.
End OrderedDictRebuild.

(** ** A definition from its entries *)

Lemma add_entry_comment (d : VexDefinition) (e : Entry) :
  is_comment e = true ->
  add_entry d e =
  mkDefinition (d_class d) (d_name d)
    (od_set (comment_key (S (d_number_comments d))) (One e) (d_entries d))
    (S (d_number_comments d)).
Proof. unfold is_comment, add_entry. now destruct (e_type e). Qed.

Lemma add_entry_other (d : VexDefinition) (e : Entry) :
  is_comment e = false ->
  add_entry d e =
  mkDefinition (d_class d) (d_name d)
    (od_set (e_key e)
       (match od_get (e_key e) (d_entries d) with
        | Some (Many l) => Many (l ++ [e])
        | Some (One e0) => Many [e0; e]
        | None => One e
        end) (d_entries d))
    (d_number_comments d).
Proof. unfold is_comment, add_entry. now destruct (e_type e). Qed.

(** The first entry of a key that is not there yet. *)
Lemma add_entry_first (cls : BlockClass) (name : pystr)
    (done : odict EntryOrList) (k : pykey) (e : Entry) :
  ~ In k (od_keys done) ->
  (if is_comment e
   then k = comment_key (S (count_comments starts_with_comment done))
   else e_key e = k) ->
  add_entry (mkDefinition cls name done
               (count_comments starts_with_comment done)) e =
  mkDefinition cls name (done ++ [(k, One e)])
    (count_comments starts_with_comment (done ++ [(k, One e)])).
Proof.
  intros N K. rewrite count_comments_app, count_comments_one.
  change (starts_with_comment (One e)) with (is_comment e).
  destruct (is_comment e) eqn:C.
  - rewrite add_entry_comment by assumption. simpl. subst k.
    rewrite od_set_new by assumption. f_equal. lia.
  - rewrite add_entry_other by assumption. simpl. subst k.
    rewrite od_get_new, od_set_new by assumption. f_equal. lia.
Qed.

Lemma add_entry_second (cls : BlockClass) (name : pystr)
    (done : odict EntryOrList) (k : pykey) (e0 e : Entry) (n : nat) :
  ~ In k (od_keys done) -> is_comment e = false -> e_key e = k ->
  add_entry (mkDefinition cls name (done ++ [(k, One e0)]) n) e =
  mkDefinition cls name (done ++ [(k, Many [e0; e])]) n.
Proof.
  intros N C K. rewrite add_entry_other by assumption. simpl. subst k.
  now rewrite od_get_last, od_set_last.
Qed.

Lemma add_entry_further (cls : BlockClass) (name : pystr)
    (done : odict EntryOrList) (k : pykey) (l rest : list Entry) (n : nat) :
  ~ In k (od_keys done) ->
  Forall (fun e => wf_entry e /\ is_comment e = false /\ e_key e = k) rest ->
  fold_left add_entry rest (mkDefinition cls name (done ++ [(k, Many l)]) n) =
  mkDefinition cls name (done ++ [(k, Many (l ++ rest))]) n.
Proof.
  intros N. revert l. induction rest as [|e rest IH]; intros l F.
  - now rewrite app_nil_r.
  - apply Forall_cons_iff in F as [(_ & C & K) F']. simpl fold_left.
    rewrite add_entry_other by assumption. simpl. rewrite K.
    rewrite od_get_last, od_set_last by assumption.
    rewrite IH by assumption. now rewrite <- app_assoc.
Qed.

Lemma all_entries_cons (k : pykey) (v : EntryOrList) (d : odict EntryOrList) :
  all_entries ((k, v) :: d) = entries_of v ++ all_entries d.
Proof. reflexivity. Qed.

Lemma count_comments_same_head (done : odict EntryOrList) (k : pykey)
    (v v' : EntryOrList) :
  starts_with_comment v = starts_with_comment v' ->
  count_comments starts_with_comment (done ++ [(k, v)]) =
  count_comments starts_with_comment (done ++ [(k, v')]).
Proof.
  intros H. now rewrite !count_comments_app, !count_comments_one, H.
Qed.

(** The entries of a well-formed dictionary, added one by one after the
    items [done], give the dictionary. *)
Lemma rebuild_entries (cls : BlockClass) (name : pystr)
    (todo done : odict EntryOrList) :
  NoDup (od_keys (done ++ todo)) -> Forall wf_item todo ->
  numbered starts_with_comment
    (count_comments starts_with_comment done) todo = true ->
  fold_left add_entry (all_entries todo)
    (mkDefinition cls name done (count_comments starts_with_comment done)) =
  mkDefinition cls name (done ++ todo)
    (count_comments starts_with_comment (done ++ todo)).
Proof.
  revert done. induction todo as [|[k v] todo IH]; intros done N F M.
  - now rewrite app_nil_r.
  - apply Forall_cons_iff in F as [W F'].
    pose proof (NoDup_keys_head _ _ _ _ N) as Nk.
    rewrite all_entries_cons, fold_left_app.
    replace (done ++ (k, v) :: todo) with ((done ++ [(k, v)]) ++ todo) in *
      by (rewrite <- app_assoc; reflexivity).
    simpl numbered in M.
    assert (M' : numbered starts_with_comment
                   (count_comments starts_with_comment (done ++ [(k, v)]))
                   todo = true).
    { rewrite count_comments_app, count_comments_one.
      destruct (starts_with_comment v).
      - apply andb_prop in M as [_ M]. now rewrite Nat.add_1_r.
      - now rewrite Nat.add_0_r. }
    assert (K : forall e, starts_with_comment v = is_comment e ->
              if is_comment e
              then k = comment_key (S (count_comments starts_with_comment done))
              else True).
    { intros e E. rewrite <- E. destruct (starts_with_comment v); [|exact I].
      apply andb_prop in M as [M _]. now apply pykey_eqb_true in M. }
    rewrite <- IH by assumption. f_equal.
    unfold wf_item in W. simpl in W. destruct v as [e|l].
    + destruct W as [_ Fu]. simpl entries_of. simpl fold_left.
      apply add_entry_first; [assumption|].
      specialize (K e eq_refl). unfold filed_under in Fu.
      destruct (is_comment e); [exact K|now apply Fu].
    + destruct l as [|e0 [|e1 rest]]; try now elim W.
      destruct W as (_ & Fu & Fr). simpl entries_of.
      change (fold_left add_entry (e0 :: e1 :: rest) ?d)
        with (fold_left add_entry rest (add_entry (add_entry d e0) e1)).
      rewrite (@add_entry_first cls name done k e0); [|assumption|].
      * pose proof Fr as Fr0.
        apply Forall_cons_iff in Fr0 as [(_ & C1 & K1) Fr'].
        rewrite add_entry_second by assumption.
        rewrite add_entry_further by assumption. f_equal.
        apply count_comments_same_head. reflexivity.
      * specialize (K e0 eq_refl). unfold filed_under in Fu.
        destruct (is_comment e0); [exact K|now apply Fu].
Qed.

Lemma rebuild_definition (d : VexDefinition) :
  wf_definition d -> definition_comments_in_sequence d = true ->
  fold_left add_entry (all_entries (d_entries d)) (empty_like d) =
  recount_definition d.
Proof.
  intros (_ & N & F) M.
  assert (E : empty_like d =
              mkDefinition (d_class d) (d_name d) []
                (count_comments starts_with_comment []))
    by (unfold empty_like; now destruct (d_class d)).
  rewrite E. now rewrite rebuild_entries.
Qed.

(** ** A section and a document from their items *)

Lemma recount_section_items_keys (d : odict SectionChild) :
  od_keys (recount_section_items d) = od_keys d.
Proof.
  unfold od_keys, recount_section_items. rewrite map_map. reflexivity.
Qed.

Lemma recount_vex_items_keys (d : odict VexChild) :
  od_keys (recount_vex_items d) = od_keys d.
Proof.
  unfold od_keys, recount_vex_items. rewrite map_map. reflexivity.
Qed.

Lemma add_definition_new (name : pystr) (done : odict SectionChild)
    (n : nat) (k : pykey) (c : SectionChild) :
  ~ In k (od_keys done) ->
  match c with
  | SDefinition d => k = Some (d_name d)
  | SEntry e => if is_comment e then k = comment_key (S n) else e_key e = k
  end ->
  add_definition (mkSection name done n) c =
  mkSection name (done ++ [(k, c)])
    (n + if section_child_is_comment c then 1 else 0).
Proof.
  intros N K. destruct c as [d|e]; simpl.
  - subst k. rewrite od_set_new by assumption. f_equal. lia.
  - unfold is_comment in *. destruct (e_type e); simpl; subst k;
      rewrite od_set_new by assumption; f_equal; lia.
Qed.

Lemma rebuild_section_items (name : pystr) (todo done : odict SectionChild) :
  NoDup (od_keys (done ++ todo)) -> Forall wf_section_item todo ->
  numbered section_child_is_comment
    (count_comments section_child_is_comment done) todo = true ->
  fold_left add_definition (map recount_section_child (od_values todo))
    (mkSection name (recount_section_items done)
       (count_comments section_child_is_comment done)) =
  mkSection name (recount_section_items (done ++ todo))
    (count_comments section_child_is_comment (done ++ todo)).
Proof.
  revert done. induction todo as [|[k c] todo IH]; intros done N F M.
  - now rewrite app_nil_r.
  - apply Forall_cons_iff in F as [W F'].
    pose proof (NoDup_keys_head _ _ _ _ N) as Nk.
    replace (done ++ (k, c) :: todo) with ((done ++ [(k, c)]) ++ todo) in *
      by (rewrite <- app_assoc; reflexivity).
    simpl numbered in M. simpl map. simpl fold_left.
    rewrite <- IH; [|assumption|assumption|].
    + f_equal.
      rewrite (@add_definition_new name _ _ k).
      * unfold recount_section_items. rewrite map_app. simpl map.
        rewrite count_comments_app, count_comments_one.
        now destruct c.
      * now rewrite recount_section_items_keys.
      * unfold wf_section_item in W. simpl in W.
        destruct c as [d|e]; simpl; [tauto|].
        destruct W as [_ Fu]. unfold filed_under in Fu.
        simpl in M. destruct (is_comment e); [|now apply Fu].
        apply andb_prop in M as [M _]. now apply pykey_eqb_true in M.
    + rewrite count_comments_app, count_comments_one.
      destruct (section_child_is_comment c).
      * apply andb_prop in M as [_ M]. now rewrite Nat.add_1_r.
      * now rewrite Nat.add_0_r.
Qed.

Lemma rebuild_section (s : VexSection) :
  NoDup (od_keys (s_definitions s)) -> Forall wf_section_item (s_definitions s) ->
  numbered section_child_is_comment 0 (s_definitions s) = true ->
  fold_left add_definition
    (map recount_section_child (od_values (s_definitions s)))
    (Section_init (s_name s)) =
  recount_section s.
Proof.
  intros N F M. apply (@rebuild_section_items (s_name s) (s_definitions s) []);
    assumption.
Qed.

Lemma add_section_new (name : pystr) (done : odict VexChild)
    (n : nat) (k : pykey) (c : VexChild) :
  ~ In k (od_keys done) ->
  match c with
  | VSection s => k = Some (s_name s)
  | VDefinition d => k = Some (d_name d)
  | VEntry e => if is_comment e then k = comment_key (S n) else e_key e = k
  end ->
  add_section (mkVex name done n) c =
  mkVex name (done ++ [(k, c)]) (n + if vex_child_is_comment c then 1 else 0).
Proof.
  intros N K. destruct c as [s|d|e]; simpl.
  - subst k. rewrite od_set_new by assumption. f_equal. lia.
  - subst k. rewrite od_set_new by assumption. f_equal. lia.
  - unfold is_comment in *. destruct (e_type e); simpl; subst k;
      rewrite od_set_new by assumption; f_equal; lia.
Qed.

Lemma rebuild_vex_items (name : pystr) (todo done : odict VexChild) :
  NoDup (od_keys (done ++ todo)) -> Forall wf_vex_item todo ->
  numbered vex_child_is_comment
    (count_comments vex_child_is_comment done) todo = true ->
  fold_left add_section (map recount_vex_child (od_values todo))
    (mkVex name (recount_vex_items done)
       (count_comments vex_child_is_comment done)) =
  mkVex name (recount_vex_items (done ++ todo))
    (count_comments vex_child_is_comment (done ++ todo)).
Proof.
  revert done. induction todo as [|[k c] todo IH]; intros done N F M.
  - now rewrite app_nil_r.
  - apply Forall_cons_iff in F as [W F'].
    pose proof (NoDup_keys_head _ _ _ _ N) as Nk.
    replace (done ++ (k, c) :: todo) with ((done ++ [(k, c)]) ++ todo) in *
      by (rewrite <- app_assoc; reflexivity).
    simpl numbered in M. simpl map. simpl fold_left.
    rewrite <- IH; [|assumption|assumption|].
    + f_equal.
      rewrite (@add_section_new name _ _ k).
      * unfold recount_vex_items. rewrite map_app. simpl map.
        rewrite count_comments_app, count_comments_one.
        now destruct c.
      * now rewrite recount_vex_items_keys.
      * unfold wf_vex_item in W. simpl in W.
        destruct c as [s|d|e]; simpl; [tauto|tauto|].
        destruct W as [_ Fu]. unfold filed_under in Fu.
        simpl in M. destruct (is_comment e); [|now apply Fu].
        apply andb_prop in M as [M _]. now apply pykey_eqb_true in M.
    + rewrite count_comments_app, count_comments_one.
      destruct (vex_child_is_comment c).
      * apply andb_prop in M as [_ M]. now rewrite Nat.add_1_r.
      * now rewrite Nat.add_0_r.
Qed.

Lemma rebuild_vex (v : Vex) :
  wf_vex v -> numbered vex_child_is_comment 0 (v_sections v) = true ->
  fold_left add_section (map recount_vex_child (od_values (v_sections v)))
    (Vex_init (v_name v)) =
  recount_vex v.
Proof.
  intros [N F] M. apply (@rebuild_vex_items (v_name v) (v_sections v) []);
    assumption.
Qed.

(** ** Reading the written entries of a container *)

Lemma reparse_entries (es : list Entry) (h : option nat) (rest : pystr) :
  Forall (fun e => wf_entry e /\ keyword_key e = false) es ->
  forall st, prev_line st = None ->
  parse_lines st
    (readlines (flat_map (fun e => Entry_to_string e h) es ++ rest)) =
  parse_lines (fold_left route_entry es st) (readlines rest).
Proof.
  induction es as [|e es IH]; intros F st P; [reflexivity|].
  apply Forall_cons_iff in F as [[W K] F]. simpl flat_map.
  rewrite <- app_assoc. rewrite reparse_entry by assumption.
  simpl fold_left. apply IH; [assumption|].
  now rewrite route_entry_prev_line.
Qed.

Lemma route_entry_definition (st : ParserState) (d : VexDefinition) (e : Entry) :
  current_definition st = Some d ->
  route_entry st e =
  mkState (st_self st) (prev_line st) (current_section st)
    (Some (add_entry d e)).
Proof. intros H. unfold route_entry. now rewrite H. Qed.

Lemma route_entry_section (st : ParserState) (s : VexSection) (e : Entry) :
  current_definition st = None -> current_section st = Some s ->
  route_entry st e =
  mkState (st_self st) (prev_line st)
    (Some (add_definition s (SEntry e))) None.
Proof. intros H1 H2. unfold route_entry. now rewrite H1, H2. Qed.

Lemma route_entry_top (st : ParserState) (e : Entry) :
  current_definition st = None -> current_section st = None ->
  route_entry st e =
  mkState (add_section (st_self st) (VEntry e)) (prev_line st) None None.
Proof. intros H1 H2. unfold route_entry. now rewrite H1, H2. Qed.

Lemma route_entries_definition (es : list Entry) (st : ParserState)
    (d : VexDefinition) :
  current_definition st = Some d ->
  fold_left route_entry es st =
  mkState (st_self st) (prev_line st) (current_section st)
    (Some (fold_left add_entry es d)).
Proof.
  revert st d. induction es as [|e es IH]; intros st d H; simpl.
  - destruct st. simpl in *. now subst.
  - rewrite (route_entry_definition _ _ H). now rewrite (IH _ (add_entry d e)).
Qed.

(** ** Reading the written head and end of a block *)

Lemma skipn_length_app (A : Type) (a b : list A) :
  skipn (List.length a) (a ++ b) = b.
Proof. induction a; [reflexivity|assumption]. Qed.

Lemma firstn_length_app (A : Type) (a b : list A) :
  firstn (List.length a) (a ++ b) = a.
Proof. induction a as [|x a IH]; [reflexivity|simpl; now rewrite IH]. Qed.

Lemma index_first (c : ascii) (a b : pystr) :
  count c a = 0 -> index c (a ++ c :: b) = Some (List.length a).
Proof.
  induction a as [|x a IH]; simpl; intros H.
  - now rewrite Ascii.eqb_refl.
  - destruct (Ascii.eqb x c); [discriminate|]. now rewrite IH.
Qed.

Lemma name_upto_semicolon_written (kw name rest : pystr) :
  count ";" kw = 0 -> count ";" name = 0 ->
  name_upto_semicolon (List.length kw) (kw ++ name ++ ";" ++ rest) = Ok name.
Proof.
  intros K N. unfold name_upto_semicolon.
  replace (kw ++ name ++ ";" ++ rest) with ((kw ++ name) ++ ";"%char :: rest)
    by (rewrite <- app_assoc; reflexivity).
  rewrite index_first by (rewrite count_app; lia).
  unfold slice. rewrite length_app.
  replace (List.length kw + List.length name - List.length kw)
    with (List.length name) by lia.
  rewrite <- app_assoc, skipn_length_app, firstn_length_app. reflexivity.
Qed.

Lemma startswith_self (p x : pystr) : startswith p (p ++ x) = true.
Proof.
  induction p as [|c p IH]; [reflexivity|]. simpl.
  now rewrite Ascii.eqb_refl.
Qed.

Lemma written_head_line (kw name : pystr) (c : ascii) (r : pystr) :
  kw = c :: r -> isspace c = false -> lrun LStart kw = LIn ->
  lrun LIn name <> LFail ->
  lrun LStart (kw ++ name ++ ";") = LSemi /\
  strip (kw ++ name ++ ";") = kw ++ name ++ ";".
Proof.
  intros E S R N. split.
  - rewrite app_assoc. apply lrun_semicolon. now rewrite lrun_app, R.
  - apply (proj1 (trimmed_strip _)). apply trimmed_app.
    + subst kw. discriminate.
    + now destruct name.
    + subst kw. now apply lstrip_cons.
    + now apply rstrip_last.
Qed.

Lemma bind_ok (A B : Type) (a : A) (f : A -> result B) : bind (Ok a) f = f a.
Proof. reflexivity. Qed.

Lemma dispatch_keywords (st : ParserState) (l : pystr) :
  l <> [] -> startswith "$" l = false ->
  dispatch st l =
  if startswith "def " l then open_definition st Definition_init 4 l
  else if startswith "enddef" l then
    close_definition st "enddef without a previous def"
  else if startswith "scan " l then open_definition st Scan_init 5 l
  else if startswith "endscan" l then
    close_definition st "endscan without a previous scan"
  else e <- entry_from_text l ;; Ok (route_entry st e).
Proof.
  intros N S. rewrite dispatch_chain. destruct l as [|c l]; [congruence|].
  change (startswith "$" (c :: l)) with (Ascii.eqb "$" c && true) in S.
  rewrite andb_true_r, Ascii.eqb_sym in S. now rewrite S.
Qed.

Lemma dispatch_section (st : ParserState) (name : pystr) :
  count ";" name = 0 ->
  dispatch st ("$" ++ name ++ ";") =
  Ok (mkState (match current_section st with
               | Some s => add_section (st_self st) (VSection s)
               | None => st_self st
               end) (prev_line st) (Some (Section_init name))
        (current_definition st)).
Proof.
  intros N. rewrite dispatch_chain.
  change ("$" ++ name ++ ";") with ("$"%char :: name ++ ";").
  cbv iota. rewrite Ascii.eqb_refl. cbv zeta.
  assert (H : name_upto_semicolon 1 ("$"%char :: name ++ ";") = Ok name)
    by (apply (@name_upto_semicolon_written (str "$") name []);
        [reflexivity|assumption]).
  rewrite H. reflexivity.
Qed.

Lemma dispatch_def (st : ParserState) (name : pystr) :
  count ";" name = 0 -> current_definition st = None ->
  dispatch st ("def " ++ name ++ ";") =
  Ok (mkState (st_self st) (prev_line st) (current_section st)
        (Some (Definition_init name))).
Proof.
  intros N C. rewrite dispatch_keywords; [|discriminate|reflexivity].
  rewrite startswith_self. unfold open_definition. rewrite C.
  assert (H : name_upto_semicolon 4 ("def " ++ name ++ ";") = Ok name)
    by (apply (@name_upto_semicolon_written (str "def ") name []);
        [reflexivity|assumption]).
  rewrite H. reflexivity.
Qed.

Lemma dispatch_scan (st : ParserState) (name : pystr) :
  count ";" name = 0 -> current_definition st = None ->
  dispatch st ("scan " ++ name ++ ";") =
  Ok (mkState (st_self st) (prev_line st) (current_section st)
        (Some (Scan_init name))).
Proof.
  intros N C. rewrite dispatch_keywords; [|discriminate|reflexivity].
  change (startswith "def " ("scan " ++ name ++ ";")) with false.
  change (startswith "enddef" ("scan " ++ name ++ ";")) with false.
  rewrite startswith_self. cbv iota. unfold open_definition. rewrite C.
  assert (H : name_upto_semicolon 5 ("scan " ++ name ++ ";") = Ok name)
    by (apply (@name_upto_semicolon_written (str "scan ") name []);
        [reflexivity|assumption]).
  rewrite H. reflexivity.
Qed.

Lemma dispatch_enddef (st : ParserState) (d : VexDefinition) (s : VexSection) :
  current_definition st = Some d -> current_section st = Some s ->
  dispatch st "enddef;" =
  Ok (mkState (st_self st) (prev_line st)
        (Some (add_definition s (SDefinition d))) None).
Proof.
  intros D S. rewrite dispatch_keywords; [|discriminate|reflexivity].
  change (startswith "def " "enddef;") with false.
  change (startswith "enddef" "enddef;") with true. cbv iota.
  unfold close_definition. now rewrite D, S.
Qed.

Lemma dispatch_endscan (st : ParserState) (d : VexDefinition) (s : VexSection) :
  current_definition st = Some d -> current_section st = Some s ->
  dispatch st "endscan;" =
  Ok (mkState (st_self st) (prev_line st)
        (Some (add_definition s (SDefinition d))) None).
Proof.
  intros D S. rewrite dispatch_keywords; [|discriminate|reflexivity].
  change (startswith "def " "endscan;") with false.
  change (startswith "enddef" "endscan;") with false.
  change (startswith "scan " "endscan;") with false.
  change (startswith "endscan" "endscan;") with true. cbv iota.
  unfold close_definition. now rewrite D, S.
Qed.

Lemma wf_item_entries (kv : pykey * EntryOrList) :
  wf_item kv -> Forall wf_entry (entries_of (snd kv)).
Proof.
  destruct kv as [k [e|l]]; unfold wf_item; simpl.
  - intros [W _]. now repeat constructor.
  - destruct l as [|e0 [|e1 rest]]; try tauto.
    intros (W0 & _ & F). constructor; [assumption|].
    eapply Forall_impl; [|exact F]. simpl. tauto.
Qed.

Lemma wf_all_entries (d : odict EntryOrList) :
  Forall wf_item d -> Forall wf_entry (all_entries d).
Proof.
  induction d as [|kv d IH]; intros F; [constructor|].
  apply Forall_cons_iff in F as [W F]. unfold all_entries. simpl.
  apply Forall_app. split; [now apply wf_item_entries|now apply IH].
Qed.

Lemma entries_str_all (d : odict EntryOrList) :
  entries_str d = flat_map (fun e => Entry_to_string e None) (all_entries d).
Proof.
  unfold entries_str, all_entries.
  induction (od_values d) as [|v vs IH]; [reflexivity|].
  simpl. rewrite flat_map_app, <- IH. f_equal.
  destruct v as [e|l]; simpl; [now rewrite app_nil_r|reflexivity].
Qed.

Lemma readable_entries (es : list Entry) :
  Forall wf_entry es -> forallb (fun e => negb (keyword_key e)) es = true ->
  Forall (fun e => wf_entry e /\ keyword_key e = false) es.
Proof.
  induction es as [|e es IH]; intros F K; [constructor|].
  apply Forall_cons_iff in F as [W F]. simpl in K.
  apply andb_prop in K as [K1 K2]. apply negb_true_iff in K1.
  constructor; [tauto|now apply IH].
Qed.

(** The lines of a written block give it back, up to its counter. *)
Lemma reparse_definition (d : VexDefinition) (rest : pystr)
    (st : ParserState) (s : VexSection) :
  wf_definition d -> definition_free_of_keyword_keys d = true ->
  definition_comments_in_sequence d = true ->
  prev_line st = None -> current_definition st = None ->
  current_section st = Some s ->
  parse_lines st (readlines (Definition_to_string d ++ rest)) =
  parse_lines
    (mkState (st_self st) None
       (Some (add_definition s (SDefinition (recount_definition d)))) None)
    (readlines rest).
Proof.
  intros W K M P D S. destruct st as [self p cs cd].
  simpl in P, D, S. subst p cd cs.
  cbn [st_self prev_line current_section current_definition].
  pose proof W as ([Ns Nr] & Nd & F).
  pose proof (readable_entries (wf_all_entries F) K) as R.
  pose proof (rebuild_definition W M) as B.
  unfold Definition_to_string, empty_like in *.
  destruct (d_class d); [unfold Definition_str|unfold Scan_str].
  - replace (("def " ++ d_name d ++ ";" ++ [NL] ++ entries_str (d_entries d)
                ++ "enddef;" ++ [NL]) ++ rest)
      with (("def " ++ d_name d ++ ";") ++ NL ::
            (entries_str (d_entries d) ++ "enddef;" ++ NL :: rest))
      by (rewrite <- !app_assoc; reflexivity).
    destruct (@written_head_line (str "def ") (d_name d) "d"%char (str "ef "))
      as [L T]; [reflexivity|reflexivity|reflexivity|assumption|].
    rewrite parse_statement_fresh; [|assumption|reflexivity].
    rewrite T, dispatch_def; [|assumption|reflexivity]. rewrite bind_ok.
    rewrite entries_str_all, reparse_entries; [|exact R|reflexivity].
    rewrite (@route_entries_definition _ _ (Definition_init (d_name d)));
      [|reflexivity].
    rewrite B. cbn [st_self prev_line current_section current_definition].
    rewrite (@parse_statement_fresh (str "enddef;"));
      [|reflexivity|reflexivity].
    change (strip "enddef;") with (str "enddef;").
    rewrite (@dispatch_enddef _ (recount_definition d) s);
      [|reflexivity|reflexivity].
    reflexivity.
  - replace (("scan " ++ d_name d ++ ";" ++ [NL] ++ entries_str (d_entries d)
                ++ "endscan;" ++ [NL]) ++ rest)
      with (("scan " ++ d_name d ++ ";") ++ NL ::
            (entries_str (d_entries d) ++ "endscan;" ++ NL :: rest))
      by (rewrite <- !app_assoc; reflexivity).
    destruct (@written_head_line (str "scan ") (d_name d) "s"%char (str "can "))
      as [L T]; [reflexivity|reflexivity|reflexivity|assumption|].
    rewrite parse_statement_fresh; [|assumption|reflexivity].
    rewrite T, dispatch_scan; [|assumption|reflexivity]. rewrite bind_ok.
    rewrite entries_str_all, reparse_entries; [|exact R|reflexivity].
    rewrite (@route_entries_definition _ _ (Scan_init (d_name d)));
      [|reflexivity].
    rewrite B. cbn [st_self prev_line current_section current_definition].
    rewrite (@parse_statement_fresh (str "endscan;"));
      [|reflexivity|reflexivity].
    change (strip "endscan;") with (str "endscan;").
    rewrite (@dispatch_endscan _ (recount_definition d) s);
      [|reflexivity|reflexivity].
    reflexivity.
Qed.

(** ** Reading a written section *)

Lemma reparse_section_children (cs : list SectionChild) (rest : pystr)
    (self : Vex) :
  Forall readable_section_child cs ->
  forall s,
  parse_lines (mkState self None (Some s) None)
    (readlines (flat_map SectionChild_to_string cs ++ rest)) =
  parse_lines
    (mkState self None
       (Some (fold_left add_definition (map recount_section_child cs) s)) None)
    (readlines rest).
Proof.
  induction cs as [|c cs IH]; intros F s; [reflexivity|].
  apply Forall_cons_iff in F as [R F]. simpl flat_map.
  rewrite <- app_assoc. destruct c as [d|e]; simpl in R.
  - destruct R as (W & K & M). simpl SectionChild_to_string.
    rewrite (@reparse_definition d _ _ s); try assumption; try reflexivity.
    simpl. now apply IH.
  - destruct R as [W K]. simpl SectionChild_to_string.
    rewrite reparse_entry; [|assumption|assumption|reflexivity].
    rewrite (@route_entry_section _ s); [|reflexivity|reflexivity].
    simpl. now apply IH.
Qed.

Lemma readable_section_children (s : VexSection) :
  Forall wf_section_item (s_definitions s) ->
  section_free_of_keyword_keys s = true ->
  section_comments_in_sequence s = true ->
  Forall readable_section_child (od_values (s_definitions s)).
Proof.
  unfold section_free_of_keyword_keys, section_comments_in_sequence.
  intros F K M. apply andb_prop in M as [_ M].
  induction (s_definitions s) as [|[k c] items IH]; [constructor|].
  apply Forall_cons_iff in F as [W F]. simpl in K, M.
  apply andb_prop in K as [K1 K2]. apply andb_prop in M as [M1 M2].
  constructor; [|now apply IH].
  unfold wf_section_item in W. simpl in W. destruct c as [d|e]; simpl.
  - tauto.
  - apply negb_true_iff in K1. tauto.
Qed.

(** The lines of a written section open it and fill it; the section that
    was open goes to the document. *)
Lemma reparse_section (s : VexSection) (rest : pystr) (st : ParserState) :
  wf_section s -> section_free_of_keyword_keys s = true ->
  section_comments_in_sequence s = true ->
  prev_line st = None -> current_definition st = None ->
  parse_lines st (readlines (Section_to_string s ++ rest)) =
  parse_lines (mkState (finish st) None (Some (recount_section s)) None)
    (readlines rest).
Proof.
  intros W K M P D. destruct st as [self p cs cd]. simpl in P, D. subst p cd.
  pose proof W as ([Ns Nr] & Nd & F).
  pose proof (readable_section_children _ F K M) as R.
  unfold Section_to_string, Section_str.
  replace (("$" ++ s_name s ++ ";" ++ [NL]
              ++ flat_map SectionChild_to_string (od_values (s_definitions s)))
             ++ rest)
    with (("$" ++ s_name s ++ ";") ++ NL ::
          (flat_map SectionChild_to_string (od_values (s_definitions s))
             ++ rest))
    by (rewrite <- !app_assoc; reflexivity).
  destruct (@written_head_line (str "$") (s_name s) "$"%char [])
    as [L T]; [reflexivity|reflexivity|reflexivity|assumption|].
  rewrite parse_statement_fresh; [|assumption|reflexivity].
  rewrite T, dispatch_section by assumption. rewrite bind_ok.
  cbn [st_self prev_line current_section current_definition].
  rewrite reparse_section_children by assumption.
  apply andb_prop in M as [M _].
  rewrite rebuild_section by assumption. reflexivity.
Qed.

(** ** Reading a written document *)

Lemma readable_vex_children (v : Vex) :
  wf_vex v -> free_of_keyword_keys v = true -> comments_in_sequence v = true ->
  Forall readable_vex_child (od_values (v_sections v)).
Proof.
  unfold free_of_keyword_keys, comments_in_sequence.
  intros [_ F] K M. apply andb_prop in M as [_ M].
  induction (v_sections v) as [|[k c] items IH]; [constructor|].
  apply Forall_cons_iff in F as [W F]. simpl in K, M.
  apply andb_prop in K as [K1 K2]. apply andb_prop in M as [M1 M2].
  constructor; [|now apply IH].
  unfold wf_vex_item in W. simpl in W. destruct c as [s|d|e]; simpl.
  - tauto.
  - exact W.
  - apply negb_true_iff in K1. tauto.
Qed.

Lemma finish_top (self : Vex) (p : option pystr) (d : option VexDefinition) :
  finish (mkState self p None d) = self.
Proof. reflexivity. Qed.

Lemma reparse_vex_items (items : odict VexChild) (rest : pystr) :
  Forall readable_vex_child (od_values items) ->
  forall st,
  prev_line st = None -> current_definition st = None ->
  (current_section st = None /\ entries_before_sections items = true) \/
  forallb (fun kc => negb (is_top_entry kc)) items = true ->
  exists st',
    parse_lines st
      (readlines (flat_map VexChild_to_string (od_values items) ++ rest)) =
    parse_lines st' (readlines rest) /\
    prev_line st' = None /\ current_definition st' = None /\
    finish st' =
    fold_left add_section (map recount_vex_child (od_values items)) (finish st).
Proof.
  induction items as [|[k c] items IH]; intros F st P D O.
  - exists st. repeat split; assumption.
  - simpl od_values in F. apply Forall_cons_iff in F as [R F].
    simpl od_values. simpl flat_map. rewrite <- app_assoc.
    destruct c as [s|d|e]; simpl in R; [|contradiction|].
    + destruct R as (W & K & M). simpl VexChild_to_string.
      rewrite reparse_section by assumption.
      destruct (IH F (mkState (finish st) None (Some (recount_section s)) None))
        as (st' & E & P' & D' & Fi); [reflexivity|reflexivity| |].
      * right. destruct O as [[_ O]|O]; simpl in O; exact O.
      * exists st'. repeat split; assumption.
    + destruct R as [W K]. simpl VexChild_to_string.
      destruct O as [[C O]|O]; [|discriminate O].
      rewrite reparse_entry by assumption.
      rewrite route_entry_top by assumption.
      destruct (IH F (mkState (add_section (st_self st) (VEntry e))
                        (prev_line st) None None))
        as (st' & E & P' & D' & Fi); [exact P|reflexivity| |].
      * left. split; [reflexivity|exact O].
      * exists st'. repeat split; try assumption. rewrite Fi.
        simpl map. simpl fold_left. rewrite finish_top.
        unfold finish. now rewrite C.
Qed.

(** Reading the text of a well-formed document gives the document, its
    counters set to the numbers of its comments. *)
Lemma reparse_vex (v : Vex) :
  wf_vex v -> free_of_keyword_keys v = true -> comments_in_sequence v = true ->
  entries_before_sections (v_sections v) = true ->
  from_file (Vex_init (v_name v)) (Vex_to_string v) = Ok (recount_vex v).
Proof.
  intros W K M O. pose proof (readable_vex_children W K M) as R.
  unfold from_file, from_lines, Vex_to_string, Vex_str.
  rewrite <- (app_nil_r (flat_map _ _)).
  destruct (@reparse_vex_items (v_sections v) [] R
              (initial_state (Vex_init (v_name v))))
    as (st' & E & _ & _ & Fi); [reflexivity|reflexivity| |].
  - left. split; [reflexivity|exact O].
  - rewrite E. simpl readlines. simpl parse_lines. rewrite bind_ok.
    rewrite Fi. apply andb_prop in M as [M _]. f_equal.
    now apply rebuild_vex.
Qed.

Lemma erase_recount_definition (d : VexDefinition) :
  erase_definition (recount_definition d) = erase_definition d.
Proof. reflexivity. Qed.

Lemma erase_recount_section (s : VexSection) :
  erase_section (recount_section s) = erase_section s.
Proof.
  unfold erase_section, recount_section. simpl. f_equal.
  rewrite map_map. apply map_ext. intros [k c]. simpl. now destruct c.
Qed.

Lemma recount_same_structure (v : Vex) : same_structure (recount_vex v) v.
Proof.
  unfold same_structure, erase_vex, recount_vex. simpl. f_equal.
  rewrite map_map. apply map_ext. intros [k c]. simpl.
  destruct c as [s|d|e]; simpl; [|reflexivity|reflexivity].
  now rewrite erase_recount_section.
Qed.

(** ** What the parser builds is well formed *)

Lemma is_comment_type (e : Entry) : is_comment e = true <-> e_type e = comment.
Proof. unfold is_comment. destruct (e_type e); split; congruence. Qed.

Lemma add_entry_wf (d : VexDefinition) (e : Entry) :
  wf_definition d -> wf_entry e -> wf_definition (add_entry d e).
Proof.
  intros (Wn & Nd & F) We. destruct (is_comment e) eqn:C.
  - rewrite add_entry_comment by assumption.
    split; [exact Wn|]. split; [now apply od_set_NoDup|].
    apply od_set_Forall; [assumption|]. split; [assumption|].
    unfold filed_under. simpl. congruence.
  - rewrite add_entry_other by assumption.
    split; [exact Wn|]. split; [now apply od_set_NoDup|].
    apply od_set_Forall; [assumption|]. simpl d_entries.
    destruct (od_get (e_key e) (d_entries d)) as [[e0|l]|] eqn:G.
    + apply od_get_in in G. rewrite Forall_forall in F. apply F in G.
      destruct G as [W0 F0]. simpl in W0, F0. unfold wf_item. simpl.
      repeat split; try assumption. now repeat constructor.
    + apply od_get_in in G. rewrite Forall_forall in F. apply F in G.
      unfold wf_item in *. simpl in *.
      destruct l as [|e0 [|e1 rest]]; try contradiction.
      destruct G as (W0 & F0 & Fr). simpl.
      repeat split; try assumption.
      change (e1 :: rest ++ [e]) with ((e1 :: rest) ++ [e]).
      apply Forall_app. split; [assumption|]. now repeat constructor.
    + unfold wf_item, filed_under. simpl. tauto.
Qed.

Lemma add_definition_wf (s : VexSection) (c : SectionChild) :
  wf_section s ->
  match c with
  | SDefinition d => wf_definition d
  | SEntry e => wf_entry e
  end ->
  wf_section (add_definition s c).
Proof.
  intros (Wn & Nd & F) Wc. unfold add_definition. destruct c as [d|e].
  - split; [exact Wn|]. split; [now apply od_set_NoDup|].
    apply od_set_Forall; [assumption|]. unfold wf_section_item. simpl. tauto.
  - destruct (e_type e) eqn:T;
      (split; [exact Wn|]; split; [now apply od_set_NoDup|];
       apply od_set_Forall; [assumption|];
       unfold wf_section_item, filed_under, is_comment; simpl;
       rewrite ?T; split; [assumption|congruence]).
Qed.

Lemma add_section_wf (v : Vex) (c : VexChild) :
  wf_vex v ->
  match c with
  | VSection s => wf_section s
  | VDefinition _ => False
  | VEntry e => wf_entry e
  end ->
  wf_vex (add_section v c).
Proof.
  intros (Nd & F) Wc. unfold add_section. destruct c as [s|d|e].
  - split; [now apply od_set_NoDup|].
    apply od_set_Forall; [assumption|]. unfold wf_vex_item. simpl. tauto.
  - contradiction.
  - destruct (e_type e) eqn:T;
      (split; [now apply od_set_NoDup|];
       apply od_set_Forall; [assumption|];
       unfold wf_vex_item, filed_under, is_comment; simpl;
       rewrite ?T; split; [assumption|congruence]).
Qed.

Lemma route_entry_wf (st : ParserState) (e : Entry) :
  wf_state st -> wf_entry e -> wf_state (route_entry st e).
Proof.
  intros (Wv & Wp & Ws & Wd) We. unfold route_entry, wf_state.
  destruct (current_definition st) as [d|]; simpl.
  - split; [exact Wv|]. split; [exact Wp|]. split; [exact Ws|].
    now apply add_entry_wf.
  - destruct (current_section st) as [s|]; simpl.
    + split; [exact Wv|]. split; [exact Wp|]. split; [|exact I].
      now apply (@add_definition_wf s (SEntry e)).
    + split; [|tauto]. now apply (@add_section_wf _ (VEntry e)).
Qed.

Lemma finish_wf (st : ParserState) : wf_state st -> wf_vex (finish st).
Proof.
  intros (Wv & _ & Ws & _). unfold finish.
  destruct (current_section st) as [s|]; [|assumption].
  now apply (@add_section_wf _ (VSection s)).
Qed.

Lemma close_definition_wf (st st' : ParserState) (msg : pystr) :
  wf_state st -> close_definition st msg = Ok st' -> wf_state st'.
Proof.
  intros (Wv & Wp & Ws & Wd). unfold close_definition.
  destruct (current_definition st) as [d|]; [|discriminate].
  destruct (current_section st) as [s|]; [|discriminate].
  intros H. injection H as <-. unfold wf_state. simpl.
  split; [exact Wv|]. split; [exact Wp|]. split; [|exact I].
  now apply (@add_definition_wf s (SDefinition d)).
Qed.

(** *** Lines *)

(** A physical line without its line break. *)
Lemma physical_body (l : pystr) :
  physical l -> exists s, count NL s = 0 /\ strip l = strip s.
Proof.
  intros P. destruct (physical_inv P) as (s & N & [E|[E _]]); exists s; subst l.
  - split; [exact N|now apply strip_blank_r].
  - now split.
Qed.

Lemma comment_entry_wf (l : pystr) :
  physical l -> is_comment_line l = true ->
  wf_entry (mkEntry comment None (VStr (tl (strip l)))).
Proof.
  intros P C. destruct (physical_body P) as (s & N & E).
  unfold is_comment_line in C. unfold wf_entry. cbn [e_type e_key e_value].
  assert (Z : count NL (strip l) = 0) by (rewrite E; now apply count_strip).
  pose proof (strip_idem l) as I.
  destruct (strip l) as [|c r] eqn:S; [discriminate|].
  apply ascii_eqb_true in C. subst c. split.
  - exact Z.
  - exact I.
Qed.

(** The state at the end of a line that does not open the text. *)
Lemma lrun_line_from (s0 : LineState) (s r : pystr) (c : ascii) :
  s0 = LStart \/ s0 = LIn ->
  count NL s = 0 -> lstrip s = c :: r -> Ascii.eqb c "*" = false ->
  lrun s0 s = if contains ";" s then LSemi else LIn.
Proof.
  intros [->| ->] N L S.
  - rewrite lrun_line by assumption. now rewrite L, S.
  - now apply lrun_in_line.
Qed.

Lemma wf_pending_run (b : option pystr) :
  wf_pending b ->
  lrun LStart (pending_text b) = LStart \/ lrun LStart (pending_text b) = LIn.
Proof. destruct b; simpl; [tauto|now left]. Qed.

(** A line without [;] leaves a pending text of the same kind. *)
Lemma pending_extends (b : option pystr) (l r : pystr) (c : ascii) :
  wf_pending b -> physical l -> strip l = c :: r ->
  Ascii.eqb c "*" = false -> contains ";" l = false ->
  wf_pending (Some (pending_text b ++ l)).
Proof.
  intros Wb P S C Sc. apply wf_pending_run in Wb.
  destruct (physical_inv P) as (s & N & E).
  assert (Ss : strip s = c :: r).
  { destruct E as [->|[-> _]]; [|exact S].
    now rewrite strip_blank_r in S. }
  assert (Cs : contains ";" s = false).
  { destruct E as [->|[-> _]]; [|exact Sc].
    change (contains ";" (s ++ [NL])) with (contains [";"%char] (s ++ [NL])) in Sc.
    rewrite contains_char_app in Sc. now apply orb_false_iff in Sc as [Sc _]. }
  destruct (strip_head _ Ss) as [_ [r' L]].
  pose proof (@lrun_line_from _ _ _ _ Wb N L C) as R. rewrite Cs in R.
  simpl. destruct E as [->|[-> _]].
  - left. now rewrite app_assoc, !lrun_app, R.
  - right. now rewrite lrun_app.
Qed.

Lemma lrun_blank_semi (s0 : LineState) (w : pystr) :
  blank w -> lrun s0 w = LSemi -> s0 = LSemi.
Proof.
  revert s0. induction w as [|c w IH]; intros s0 B R; [exact R|].
  apply blank_cons in B as [C B]. rewrite lrun_cons in R.
  apply IH in R; [|assumption].
  destruct s0; simpl in R; rewrite ?C, ?(isspace_not_semicolon _ C) in R;
    try reflexivity; destruct (Ascii.eqb c NL); discriminate.
Qed.

Lemma lrun_blank_start (w : pystr) :
  blank w -> lrun LStart w = LStart \/ lrun LStart w = LFail.
Proof.
  induction w as [|c w IH]; intros B; [now left|].
  apply blank_cons in B as [C B]. rewrite lrun_cons. simpl. rewrite C.
  destruct (Ascii.eqb c NL); [right; apply lrun_fail|now apply IH].
Qed.

(** Trimming keeps a statement a statement. *)
Lemma lrun_strip_semi (x : pystr) :
  lrun LStart x = LSemi -> lrun LStart (strip x) = LSemi.
Proof.
  intros R. destruct (strip_decompose x) as (w1 & w2 & E & B1 & B2).
  rewrite E, !lrun_app in R.
  destruct (lrun_blank_start B1) as [S|S]; rewrite S in R.
  - now apply lrun_blank_semi in R.
  - now rewrite !lrun_fail in R.
Qed.

(** The line that completes a pending text makes a statement with it. *)
Lemma complete_line_run (b : option pystr) (l r : pystr) (c : ascii) :
  wf_pending b -> physical l -> strip l = c :: r ->
  Ascii.eqb c "*" = false -> contains ";" l = true ->
  lrun LStart (strip (pending_text b ++ l)) = LSemi.
Proof.
  intros Wb P S C Sc. apply wf_pending_run in Wb.
  destruct (physical_inv P) as (s & N & E).
  assert (Ss : strip s = c :: r).
  { destruct E as [->|[-> _]]; [|exact S].
    now rewrite strip_blank_r in S. }
  assert (Cs : contains ";" s = true).
  { destruct E as [->|[-> _]]; [|exact Sc].
    change (contains ";" (s ++ [NL])) with (contains [";"%char] (s ++ [NL])) in Sc.
    rewrite contains_char_app in Sc. now rewrite orb_false_r in Sc. }
  destruct (strip_head _ Ss) as [_ [r' L]].
  pose proof (@lrun_line_from _ _ _ _ Wb N L C) as R. rewrite Cs in R.
  assert (X : strip (pending_text b ++ l) = strip (pending_text b ++ s)).
  { destruct E as [->|[-> _]]; [|reflexivity].
    now rewrite app_assoc, strip_blank_r. }
  rewrite X. apply lrun_strip_semi. now rewrite lrun_app.
Qed.

(** *** Names *)

Lemma index_skip (c : ascii) (kw u : pystr) :
  count c kw = 0 ->
  index c (kw ++ u) = option_map (Nat.add (List.length kw)) (index c u).
Proof.
  induction kw as [|x kw IH]; simpl; intros H.
  - now destruct (index c u).
  - destruct (Ascii.eqb x c); [discriminate|]. rewrite IH by assumption.
    now destruct (index c u).
Qed.

Lemma index_split (c : ascii) (u : pystr) (j : nat) :
  index c u = Some j ->
  u = firstn j u ++ c :: skipn (S j) u /\ count c (firstn j u) = 0.
Proof.
  revert j. induction u as [|x u IH]; simpl; intros j H; [discriminate|].
  destruct (Ascii.eqb x c) eqn:E.
  - injection H as <-. apply ascii_eqb_true in E. subst x. now split.
  - destruct (index c u) as [i|]; [|discriminate]. injection H as <-.
    destruct (IH i eq_refl) as [U Z]. simpl. rewrite E. split; [|exact Z].
    f_equal. exact U.
Qed.

Lemma startswith_split (p t : pystr) :
  startswith p t = true -> t = p ++ skipn (List.length p) t.
Proof.
  revert t. induction p as [|a p IH]; intros t H; [reflexivity|].
  destruct t as [|b t]; simpl in H; [discriminate|].
  destruct (Ascii.eqb a b) eqn:E; [|discriminate].
  apply ascii_eqb_true in E. subst b. simpl. f_equal. now apply IH.
Qed.

(** The name read between a keyword and the first [;] can be written
    back. *)
Lemma name_wf (kw u name : pystr) :
  lrun LStart kw = LIn -> count ";" kw = 0 ->
  name_upto_semicolon (List.length kw) (kw ++ u) = Ok name ->
  lrun LStart (kw ++ u) <> LFail ->
  wf_name name.
Proof.
  intros K Z H R. unfold name_upto_semicolon in H.
  rewrite index_skip in H by assumption.
  destruct (index ";" u) as [j|] eqn:I; [|discriminate]. simpl in H.
  injection H as <-. unfold slice.
  replace (List.length kw + j - List.length kw) with j by lia.
  rewrite skipn_length_app.
  destruct (index_split _ _ I) as [U C]. split; [exact C|].
  rewrite lrun_app, K, U in R. now apply lrun_prefix in R.
Qed.

(** *** Entries *)

Lemma lrun_normalize (s s' : LineState) (key w1 w2 vt z : pystr) :
  lle s s' = true -> blank w1 -> blank w2 ->
  lrun s (key ++ (w1 ++ "=" ++ w2) ++ vt ++ z) <> LFail ->
  lrun s' (key ++ " = " ++ vt) <> LFail.
Proof.
  intros L B1 B2 R.
  replace (key ++ (w1 ++ "=" ++ w2) ++ vt ++ z)
    with (((key ++ (w1 ++ "=" ++ w2)) ++ vt) ++ z) in R
    by (rewrite <- !app_assoc; reflexivity).
  apply lrun_prefix in R. rewrite lrun_app, lrun_app in R.
  rewrite app_assoc, !lrun_app, lrun_equals_sign.
  refine (lle_not_fail _ R). apply lle_run.
  eapply lle_trans; [now apply lrun_around_equals|].
  apply lup_mono. now apply lle_run.
Qed.

Lemma lstrip_prefix (a b : pystr) : lstrip (a ++ b) = a ++ b -> lstrip a = a.
Proof.
  destruct a as [|c a]; [reflexivity|]. simpl app. intros H.
  apply lstrip_cons. now apply (lstrip_head _ H).
Qed.

Lemma trimmed_prefix (k0 x : pystr) :
  trimmed (k0 ++ x) -> exists w, k0 = strip k0 ++ w /\ blank w.
Proof.
  intros [L _]. apply lstrip_prefix in L. unfold strip. rewrite L.
  apply rstrip_decompose.
Qed.

Lemma rstrip_nil_blank (x : pystr) : rstrip x = [] -> blank x.
Proof.
  intros H. destruct (rstrip_decompose x) as (w & E & B).
  rewrite H in E. now rewrite E.
Qed.

Lemma trimmed_suffix (x rv : pystr) :
  trimmed (x ++ rv) -> strip rv <> [] ->
  exists w, rv = w ++ strip rv /\ blank w.
Proof.
  intros [_ R] N.
  assert (Nr : rstrip rv <> []).
  { intros E. apply N. now apply strip_blank_nil, rstrip_nil_blank. }
  rewrite rstrip_app in R by assumption. apply app_inv_head in R.
  destruct (lstrip_decompose rv) as (w & E & B). exists w. split; [|exact B].
  rewrite E in R at 1. unfold strip in *.
  rewrite rstrip_app in R by assumption.
  rewrite E in R at 2. apply app_inv_head in R. rewrite R. exact E.
Qed.

Lemma drop_terminator_prefix (v : pystr) :
  exists z, v = drop_terminator v ++ z.
Proof.
  destruct v as [|c v]; [now exists []|].
  destruct (@exists_last _ (c :: v)) as (y & d & ->); [discriminate|].
  destruct (Ascii.eqb d ";") eqn:E.
  - apply ascii_eqb_true in E. subst d. exists (str ";").
    change (y ++ [";"%char]) with (y ++ ";").
    now rewrite drop_terminator_semicolon.
  - apply ascii_eqb_false in E. exists [].
    rewrite drop_terminator_other by assumption. now rewrite app_nil_r.
Qed.

Lemma canonical_of_text (vt : pystr) :
  let v := if contains ":" vt then VList (split ":" vt) else VStr vt in
  render_value v = vt /\ canonical_value v.
Proof.
  assert (R : render_value
                (if contains ":" vt then VList (split ":" vt) else VStr vt) = vt).
  { destruct (contains ":" vt); [apply (join_split ":"%char)|reflexivity]. }
  split; [exact R|]. unfold canonical_value. now rewrite R.
Qed.

Lemma keyword_line_prefix (a b : pystr) :
  keyword_line (a ++ b) = false -> keyword_line a = false.
Proof.
  rewrite !keyword_line_false. intros (K0 & K1 & K2 & K3 & K4).
  repeat split;
    match goal with
    | |- startswith ?p a = false =>
        destruct (startswith p a) eqn:E; [|reflexivity];
        apply (@startswith_app p a b) in E; congruence
    end.
Qed.

Lemma entry_from_text_has_equals (t : pystr) (e : Entry) :
  is_comment_line t = false -> entry_from_text t = Ok e -> count "=" t <> 0.
Proof.
  intros C H E. rewrite entry_from_text_parts in H by assumption.
  rewrite E in H. simpl in H. now destruct (strip t).
Qed.

(** [entry_from_text] on a line cut at its first [=]. *)
Lemma entry_from_text_cut (k0 rv : pystr) :
  count "=" k0 = 0 -> is_comment_line (k0 ++ "=" ++ rv) = false ->
  entry_from_text (k0 ++ "=" ++ rv) =
  match strip rv with
  | [] => Raise IndexError
  | _ :: _ =>
      let vt := drop_terminator (strip rv) in
      let value := if contains ":" vt then VList (split ":" vt) else VStr vt in
      if contains "ref " (strip k0) then
        if count "$" (strip k0) =? 1
        then Ok (mkEntry variable
                   (Some (strip (nth 1 (split "$" (strip k0)) []))) value)
        else Raise AssertionError
      else Ok (mkEntry parameter (Some (strip k0)) value)
  end.
Proof.
  intros K C. rewrite entry_from_text_parts by assumption.
  set (text := k0 ++ "=" ++ rv) in *.
  assert (R : raw_value text = rv) by now apply raw_value_first.
  assert (V : value_text text = drop_terminator (strip rv))
    by (unfold value_text; now rewrite R).
  assert (Hd : hd [] (split "=" text) = k0).
  { unfold text. change ("=" ++ rv) with ("="%char :: rv).
    now rewrite split_first. }
  assert (I : In "="%char (strip text)).
  { apply in_strip; [|reflexivity]. unfold text. apply in_or_app. right. now left. }
  assert (Cn : count "=" text <> 0).
  { unfold text. rewrite count_app. simpl. lia. }
  rewrite Hd, V, R.
  destruct (strip text) as [|c r]; [now elim I|].
  destruct (count "=" text); [congruence|]. reflexivity.
Qed.

(** The entry read from a trimmed statement that starts with no keyword
    can be written back. *)
Lemma entry_from_text_wf (t : pystr) (e : Entry) :
  lrun LStart t = LSemi -> trimmed t -> keyword_line t = false ->
  entry_from_text t = Ok e -> wf_entry e.
Proof.
  intros R T K H.
  assert (C : is_comment_line t = false).
  { destruct t as [|c0 t0]; [discriminate R|].
    rewrite is_comment_line_cons by exact T.
    apply (@lrun_head_not_star c0 t0); [rewrite R; discriminate|].
    now apply (trimmed_head T). }
  destruct (@cut_at_first "="%char t) as (k0 & rv & E & Zk);
    [now apply (@entry_from_text_has_equals _ _ C H)|].
  change (k0 ++ "="%char :: rv) with (k0 ++ "=" ++ rv) in E. subst t.
  rewrite entry_from_text_cut in H by assumption.
  destruct (strip rv) as [|v0c v0r] eqn:Sv; [discriminate|].
  rewrite <- Sv in H.
  assert (Nv : strip rv <> []) by (rewrite Sv; discriminate).
  clear Sv v0c v0r. cbv zeta in H.
  destruct (@trimmed_prefix _ _ T) as (w1 & E1 & B1).
  replace (k0 ++ "=" ++ rv) with ((k0 ++ "=") ++ rv) in T
    by (rewrite <- app_assoc; reflexivity).
  destruct (@trimmed_suffix _ _ T Nv) as (w2 & E2 & B2).
  destruct (drop_terminator_prefix (strip rv)) as (z & Ez).
  set (key0 := strip k0) in *. set (vt := drop_terminator (strip rv)) in *.
  destruct (canonical_of_text vt) as [Rv Cv].
  set (value := if contains ":" vt then VList (split ":" vt) else VStr vt) in *.
  assert (Lv : lstrip vt = vt).
  { apply (@lstrip_prefix vt z). rewrite <- Ez. apply strip_trimmed. }
  assert (Tx : k0 ++ "=" ++ rv = key0 ++ (w1 ++ "=" ++ w2) ++ vt ++ z).
  { rewrite E1 at 1. rewrite E2 at 1. rewrite Ez at 1.
    rewrite <- !app_assoc. reflexivity. }
  assert (Rt : lrun LStart (key0 ++ (w1 ++ "=" ++ w2) ++ vt ++ z) <> LFail)
    by (rewrite <- Tx, R; discriminate).
  assert (Zk0 : count "=" key0 = 0) by now apply count_strip.
  destruct (contains "ref " key0) eqn:Ref.
  - destruct (count "$" key0 =? 1) eqn:D; [|discriminate].
    apply Nat.eqb_eq in D. injection H as <-.
    destruct (@cut_at_first "$"%char key0) as (a & b & Ek & Za); [lia|].
    assert (Zb : count "$" b = 0).
    { rewrite Ek, count_app in D. simpl in D. lia. }
    assert (Sp : nth 1 (split "$" key0) [] = b).
    { rewrite Ek, split_first by assumption.
      now rewrite split_no_sep. }
    rewrite Sp. destruct (strip_decompose b) as (wb & wb' & Eb & Bb & Bb').
    unfold wf_entry. cbn [e_type e_key e_value]. rewrite Rv.
    split; [apply strip_idem|]. split.
    { apply count_strip. rewrite Ek, count_app in Zk0. simpl in Zk0. lia. }
    split; [now apply count_strip|]. split; [exact Cv|]. split; [exact Lv|].
    assert (Ty : key0 ++ (w1 ++ "=" ++ w2) ++ vt ++ z =
                 (a ++ "$"%char :: wb) ++
                 strip b ++ ((wb' ++ w1) ++ "=" ++ w2) ++ vt ++ z).
    { rewrite Ek. rewrite Eb at 1. rewrite <- !app_assoc. simpl.
      rewrite <- !app_assoc. reflexivity. }
    rewrite Ty, lrun_app in Rt.
    refine (@lrun_normalize _ _ _ _ _ _ _ _ _ _ Rt);
      [apply lle_top|now apply blank_app|assumption].
  - injection H as <-. unfold wf_entry. cbn [e_type e_key e_value].
    rewrite Rv.
    split; [apply strip_idem|]. split; [exact Zk0|]. split; [exact Ref|].
    split.
    { apply (@keyword_line_prefix key0 ((w1 ++ "=" ++ w2) ++ vt ++ z)).
      now rewrite <- Tx. }
    split; [exact Cv|]. split; [exact Lv|].
    refine (@lrun_normalize _ _ _ _ _ _ _ _ _ _ Rt);
      [apply lle_refl|assumption|assumption].
Qed.

(** *** The loop keeps the state well formed *)

Lemma empty_section_wf (name : pystr) : wf_name name -> wf_section (Section_init name).
Proof. intros W. split; [exact W|]. split; constructor. Qed.

Lemma empty_definition_wf (name : pystr) :
  wf_name name ->
  wf_definition (Definition_init name) /\ wf_definition (Scan_init name).
Proof. intros W. split; (split; [exact W|]; split; constructor). Qed.

Lemma open_definition_wf (st st' : ParserState) (kw t : pystr)
    (init : pystr -> VexDefinition) :
  wf_state st -> (forall name, wf_name name -> wf_definition (init name)) ->
  lrun LStart kw = LIn -> count ";" kw = 0 ->
  startswith kw t = true -> lrun LStart t <> LFail ->
  open_definition st init (List.length kw) t = Ok st' -> wf_state st'.
Proof.
  intros (Wv & Wp & Ws & Wd) Wi K Z S R. unfold open_definition.
  destruct (current_definition st); [discriminate|].
  apply startswith_split in S. rewrite S in R |- *.
  destruct (name_upto_semicolon (List.length kw) (kw ++ skipn (List.length kw) t))
    as [name|] eqn:N; [|discriminate].
  intros H. simpl in H. injection H as <-.
  apply name_wf in N; try assumption.
  split; [exact Wv|]. split; [exact Wp|]. split; [exact Ws|]. now apply Wi.
Qed.

Lemma dispatch_wf (st st' : ParserState) (t : pystr) :
  wf_state st -> lrun LStart t = LSemi -> trimmed t ->
  dispatch st t = Ok st' -> wf_state st'.
Proof.
  intros W R T H.
  assert (Rn : lrun LStart t <> LFail) by (rewrite R; discriminate).
  destruct t as [|c t0]; [discriminate R|].
  destruct (Ascii.eqb c "$") eqn:D.
  - apply ascii_eqb_true in D. subst c. rewrite dispatch_chain in H.
    cbv iota in H. rewrite Ascii.eqb_refl in H. cbv zeta in H.
    destruct (name_upto_semicolon 1 ("$"%char :: t0)) as [name|] eqn:N;
      [|discriminate].
    simpl in H. injection H as <-.
    apply (@name_wf (str "$") t0 name) in N;
      [|reflexivity|reflexivity|exact Rn].
    destruct W as (Wv & Wp & Ws & Wd).
    split; [|split; [exact Wp|split; [now apply empty_section_wf|exact Wd]]].
    simpl. destruct (current_section st) as [s|]; [|exact Wv].
    now apply (@add_section_wf _ (VSection s)).
  - assert (S0 : startswith "$" (c :: t0) = false).
    { change (startswith "$" (c :: t0)) with (Ascii.eqb "$" c && true).
      now rewrite andb_true_r, Ascii.eqb_sym. }
    rewrite dispatch_keywords in H; [|discriminate|exact S0].
    destruct (startswith "def " (c :: t0)) eqn:S1.
    { apply (@open_definition_wf st st' (str "def ") (c :: t0) Definition_init);
        try assumption; try reflexivity.
      intros name Wn. now apply empty_definition_wf. }
    destruct (startswith "enddef" (c :: t0)) eqn:S2.
    { now apply (@close_definition_wf _ _ _ W H). }
    destruct (startswith "scan " (c :: t0)) eqn:S3.
    { apply (@open_definition_wf st st' (str "scan ") (c :: t0) Scan_init);
        try assumption; try reflexivity.
      intros name Wn. now apply empty_definition_wf. }
    destruct (startswith "endscan" (c :: t0)) eqn:S4.
    { now apply (@close_definition_wf _ _ _ W H). }
    destruct (entry_from_text (c :: t0)) as [e|] eqn:E; [|discriminate].
    simpl in H. injection H as <-.
    apply route_entry_wf; [exact W|].
    apply (@entry_from_text_wf (c :: t0)); try assumption.
    apply keyword_line_false. repeat split; assumption.
Qed.

Lemma set_prev_line_wf (st : ParserState) (p : option pystr) :
  wf_state st -> wf_pending p -> wf_state (set_prev_line st p).
Proof.
  intros (Wv & _ & Ws & Wd) Wp.
  split; [exact Wv|]. split; [exact Wp|]. split; [exact Ws|exact Wd].
Qed.

Lemma step_wf (st st' : ParserState) (l : pystr) :
  wf_state st -> physical l -> step st l = Ok st' -> wf_state st'.
Proof.
  intros W P H. pose proof W as (_ & Wp & _). unfold step in H.
  destruct (strip l) as [|c r] eqn:S; [discriminate|].
  destruct (Ascii.eqb c "*") eqn:C.
  - assert (Cl : is_comment_line l = true)
      by (unfold is_comment_line; now rewrite S).
    rewrite (entry_from_text_comment _ Cl) in H. simpl in H.
    injection H as <-. apply route_entry_wf; [exact W|].
    now apply comment_entry_wf.
  - destruct (contains ";" l) eqn:Sc; cbn [negb] in H.
    + pose proof (@complete_line_run _ _ _ _ Wp P S C Sc) as R.
      destruct (prev_line st) as [p|].
      * apply (@dispatch_wf (set_prev_line st None) st' (strip (p ++ l)));
          [now apply set_prev_line_wf|exact R|apply strip_trimmed|exact H].
      * apply (@dispatch_wf st st' (strip l));
          [exact W|exact R|apply strip_trimmed|rewrite S; exact H].
    + pose proof (@pending_extends _ _ _ _ Wp P S C Sc) as E.
      destruct (prev_line st) as [p|]; injection H as <-;
        (apply set_prev_line_wf; [exact W|exact E]).
Qed.

Lemma parse_lines_wf (vexlines : list pystr) (st st' : ParserState) :
  Forall physical vexlines -> wf_state st ->
  parse_lines st vexlines = Ok st' -> wf_state st'.
Proof.
  revert st. induction vexlines as [|l ls IH]; intros st F W H.
  - simpl in H. now injection H as <-.
  - apply Forall_cons_iff in F as [P F]. rewrite parse_lines_cons in H.
    destruct (step st l) as [st1|] eqn:S; [|discriminate].
    rewrite bind_ok in H. apply (IH st1); try assumption.
    now apply (@step_wf _ _ _ W P S).
Qed.

Lemma initial_state_wf (name : pystr) : wf_state (initial_state (Vex_init name)).
Proof.
  split; [split; constructor|]. split; [exact I|]. split; exact I.
Qed.

(** Whatever [from_file] builds from a text is well formed. *)
Lemma from_file_wf (name text : pystr) (v : Vex) :
  from_file (Vex_init name) text = Ok v -> wf_vex v.
Proof.
  unfold from_file, from_lines. intros H.
  destruct (parse_lines (initial_state (Vex_init name)) (readlines text))
    as [st|] eqn:P; [|discriminate].
  rewrite bind_ok in H. injection H as <-. apply finish_wf.
  apply (@parse_lines_wf _ _ _ (readlines_physical text) (initial_state_wf name) P).
Qed.

(** *** The name of the document *)

Lemma add_section_name (v : Vex) (c : VexChild) :
  v_name (add_section v c) = v_name v.
Proof.
  unfold add_section. destruct c as [s|d|e]; try reflexivity.
  now destruct (e_type e).
Qed.

Lemma route_entry_name (st : ParserState) (e : Entry) :
  v_name (st_self (route_entry st e)) = v_name (st_self st).
Proof.
  unfold route_entry.
  destruct (current_definition st), (current_section st); cbn [st_self];
    try reflexivity. apply add_section_name.
Qed.

Lemma dispatch_name (st st' : ParserState) (t : pystr) :
  dispatch st t = Ok st' -> v_name (st_self st') = v_name (st_self st).
Proof.
  rewrite dispatch_chain. destruct t as [|c t0]; [discriminate|].
  unfold open_definition, close_definition.
  repeat match goal with
  | |- context [if ?b then _ else _] => destruct b
  | |- context [match current_definition st with _ => _ end] =>
      destruct (current_definition st)
  | |- context [match current_section st with _ => _ end] =>
      destruct (current_section st)
  | |- context [name_upto_semicolon ?n ?l] =>
      destruct (name_upto_semicolon n l)
  | |- context [entry_from_text ?l] => destruct (entry_from_text l)
  end; cbn [bind]; intros H; try discriminate; injection H as <-;
    cbn [st_self]; try reflexivity; try apply add_section_name;
    try apply route_entry_name.
Qed.

Lemma step_name (st st' : ParserState) (l : pystr) :
  step st l = Ok st' -> v_name (st_self st') = v_name (st_self st).
Proof.
  unfold step. destruct (strip l) as [|c r]; [discriminate|].
  destruct (Ascii.eqb c "*").
  - destruct (entry_from_text l); [|discriminate]. cbn [bind]. intros H.
    injection H as <-. apply route_entry_name.
  - destruct (contains ";" l); cbn [negb].
    + destruct (prev_line st); intros H; now apply dispatch_name in H.
    + destruct (prev_line st); intros H; now injection H as <-.
Qed.

Lemma parse_lines_name (vexlines : list pystr) (st st' : ParserState) :
  parse_lines st vexlines = Ok st' ->
  v_name (st_self st') = v_name (st_self st).
Proof.
  revert st. induction vexlines as [|l ls IH]; intros st H.
  - simpl in H. now injection H as <-.
  - rewrite parse_lines_cons in H.
    destruct (step st l) as [st1|] eqn:S; [|discriminate].
    rewrite bind_ok in H. rewrite (IH _ H). exact (@step_name _ _ _ S).
Qed.

Lemma from_file_name (name text : pystr) (v : Vex) :
  from_file (Vex_init name) text = Ok v -> v_name v = name.
Proof.
  unfold from_file, from_lines. intros H.
  destruct (parse_lines (initial_state (Vex_init name)) (readlines text))
    as [st|] eqn:P; [|discriminate].
  rewrite bind_ok in H. injection H as <-.
  apply parse_lines_name in P. simpl in P. unfold finish.
  destruct (current_section st); [rewrite add_section_name|]; exact P.
Qed.


(** C1 (as the code has it): a document read from a text, in which no
    parameter has the key [def] or [scan], the comments of every container
    sit under [comment-1], [comment-2], ... in order, and no entry of the
    top level comes after a section, is read back from its own text: the
    same keys in the same order, the same kinds, the same values. *)
Theorem C1_round_trip (name text : pystr) (D : Vex) :
  from_file (Vex_init name) text = Ok D ->
  free_of_keyword_keys D = true ->
  comments_in_sequence D = true ->
  entries_before_sections (v_sections D) = true ->
  exists D',
    from_file (Vex_init name) (Vex_to_string D) = Ok D' /\
    same_structure D' D.
Proof.
  intros H K M O. exists (recount_vex D). split.
  - rewrite <- (from_file_name _ _ H).
    apply reparse_vex; try assumption. exact (from_file_wf _ _ H).
  - apply recount_same_structure.
Qed.

Lemma C1_round_trip_witness :
  exists D',
    from_file (Vex_init "sample") (Vex_to_string sample_document) = Ok D' /\
    same_structure D' sample_document.
Proof.
  apply (@C1_round_trip (str "sample") sample_text sample_document);
    vm_compute; reflexivity.
Defined.

(** C1, against the claim as written: the line [def=1;] is read as the
    parameter [def]; written back it is [def = 1;], which is read as the
    head of a block, and the document read from it is empty. *)
Lemma C1_counterexample :
  exists D D',
    from_file (Vex_init "V") ("def=1;" ++ [NL]) = Ok D /\
    from_file (Vex_init "V") (Vex_to_string D) = Ok D' /\
    v_sections D =
      [(Some (str "def"),
        VEntry (mkEntry parameter (Some (str "def")) (VStr "1")))] /\
    v_sections D' = [] /\
    ~ same_structure D' D.
Proof.
  eexists. eexists. split; [vm_compute; reflexivity|].
  split; [vm_compute; reflexivity|]. split; [reflexivity|].
  split; [reflexivity|]. unfold same_structure. vm_compute. discriminate.
Qed.

(** The two other conditions are needed as well.  A key [comment-2] given
    before two comments of a block is taken over by the second comment, at
    the place of the key: read back, the comments are numbered in the order
    of the text. *)
Example round_trip_needs_comments_in_sequence :
  exists D D',
    from_file (Vex_init "V")
      ("$S;" ++ [NL] ++ "def d;" ++ [NL] ++ "comment-2 = x;" ++ [NL]
         ++ "* one" ++ [NL] ++ "* two" ++ [NL] ++ "enddef;" ++ [NL]) = Ok D /\
    free_of_keyword_keys D = true /\
    comments_in_sequence D = false /\
    entries_before_sections (v_sections D) = true /\
    from_file (Vex_init "V") (Vex_to_string D) = Ok D' /\
    ~ same_structure D' D.
Proof.
  eexists. eexists. split; [vm_compute; reflexivity|].
  do 3 (split; [reflexivity|]). split; [vm_compute; reflexivity|].
  unfold same_structure. vm_compute. discriminate.
Qed.

(** An entry of the top level whose key is the name of a later section
    gives its place to the section; read back, the entries that follow go
    into that section. *)
Example round_trip_needs_entries_before_sections :
  exists D D',
    from_file (Vex_init "V")
      ("A = 1;" ++ [NL] ++ "* note" ++ [NL] ++ "$A;" ++ [NL]) = Ok D /\
    free_of_keyword_keys D = true /\
    comments_in_sequence D = true /\
    entries_before_sections (v_sections D) = false /\
    from_file (Vex_init "V") (Vex_to_string D) = Ok D' /\
    ~ same_structure D' D.
Proof.
  eexists. eexists. split; [vm_compute; reflexivity|].
  do 3 (split; [reflexivity|]). split; [vm_compute; reflexivity|].
  unfold same_structure. vm_compute. discriminate.
Qed.

(** * Further properties *)

(** ** Entries: writing and reading back *)

(** Whether a line is a comment is settled by its first character that is
    no blank. *)
Lemma is_comment_line_head (w r : pystr) (c : ascii) :
  blank w -> isspace c = false ->
  is_comment_line (w ++ c :: r) = Ascii.eqb c "*".
Proof.
  intros B C. unfold is_comment_line. rewrite strip_blank_l by assumption.
  destruct (@lstrip_strip_head (c :: r) r c) as [r' E];
    [now apply lstrip_cons|].
  now rewrite E.
Qed.

Lemma contains_prefix (p s : pystr) : startswith p s = true -> contains p s = true.
Proof. intros H. destruct s; simpl; now rewrite H. Qed.

(** [entry_from_text] on a line cut at its first [=], the text after it
    holding a value. *)
Lemma entry_from_text_cut_value (k0 rv : pystr) :
  count "=" k0 = 0 -> is_comment_line (k0 ++ "=" ++ rv) = false ->
  strip rv <> [] ->
  entry_from_text (k0 ++ "=" ++ rv) =
  let vt := drop_terminator (strip rv) in
  let value := if contains ":" vt then VList (split ":" vt) else VStr vt in
  if contains "ref " (strip k0) then
    if count "$" (strip k0) =? 1
    then Ok (mkEntry variable
               (Some (strip (nth 1 (split "$" (strip k0)) []))) value)
    else Raise AssertionError
  else Ok (mkEntry parameter (Some (strip k0)) value).
Proof.
  intros K C N. rewrite entry_from_text_cut by assumption.
  destruct (strip rv) eqn:S; [congruence|reflexivity].
Qed.

(** The line [Entry.__str__] writes for a key and a value text, read. *)
Lemma entry_from_text_line (s key vt : pystr) :
  blank s -> count "=" key = 0 -> strip key = key -> lstrip vt = vt ->
  is_comment_line (s ++ key ++ " = " ++ vt ++ ";" ++ [NL]) = false ->
  entry_from_text (s ++ key ++ " = " ++ vt ++ ";" ++ [NL]) =
  let value := if contains ":" vt then VList (split ":" vt) else VStr vt in
  if contains "ref " key then
    if count "$" key =? 1
    then Ok (mkEntry variable (Some (strip (nth 1 (split "$" key) []))) value)
    else Raise AssertionError
  else Ok (mkEntry parameter (Some key) value).
Proof.
  intros B K T L C.
  assert (E : s ++ key ++ " = " ++ vt ++ ";" ++ [NL] =
              (s ++ key ++ " ") ++ "=" ++ (" " ++ vt ++ ";" ++ [NL])).
  { rewrite <- !app_assoc. reflexivity. }
  rewrite E in C |- *.
  assert (Sv : strip (" " ++ vt ++ ";" ++ [NL]) = vt ++ ";").
  { replace (" " ++ vt ++ ";" ++ [NL]) with ((" " ++ vt ++ ";") ++ [NL])
      by (rewrite <- !app_assoc; reflexivity).
    rewrite strip_blank_r by reflexivity. now apply strip_value_semicolon. }
  assert (Sk : strip (s ++ key ++ " ") = key).
  { apply strip_unique; [assumption|reflexivity|].
    now apply (proj2 (trimmed_strip _)). }
  rewrite entry_from_text_cut_value.
  - rewrite Sv, Sk, drop_terminator_semicolon. reflexivity.
  - rewrite !count_app, K.
    assert (Z : count "=" s = 0).
    { apply count_zero_in. now apply forallb_isspace_not_in. }
    now rewrite Z.
  - exact C.
  - rewrite Sv. now destruct vt.
Qed.

(** The value text an entry read from a line is written with. *)
Lemma value_text_written (rv : pystr) :
  strip rv <> [] ->
  let vt := drop_terminator (strip rv) in
  lstrip vt = vt /\
  render_value (if contains ":" vt then VList (split ":" vt) else VStr vt) = vt.
Proof.
  intros N vt. split.
  - destruct (drop_terminator_prefix (strip rv)) as (z & Ez). fold vt in Ez.
    apply (@lstrip_prefix vt z). rewrite <- Ez. apply strip_trimmed.
  - apply canonical_of_text.
Qed.

(** X1.  An entry read from a line, written with [Entry.__str__] under any
    indentation, reads back as the same entry: same type, same key, same
    value. *)
Theorem entry_text_round_trip (text : pystr) (e : Entry) (h : option nat) :
  entry_from_text text = Ok e ->
  entry_from_text (Entry_to_string e h) = Ok e.
Proof.
  intros H.
  set (s := match h with
            | None => repeat " "%char 5
            | Some n => repeat " "%char n
            end).
  assert (Bs : blank s) by (destruct h; apply blank_spaces).
  destruct (is_comment_line text) eqn:C.
  - rewrite entry_from_text_comment in H by assumption. injection H as <-.
    unfold is_comment_line in C.
    pose proof (strip_idem text) as I.
    destruct (strip text) as [|c r] eqn:S; [discriminate|].
    apply ascii_eqb_true in C. subst c.
    unfold Entry_to_string, Entry_str. cbn [e_type e_value format_value tl].
    assert (St : strip ("*" ++ r ++ [NL]) = "*"%char :: r).
    { change ("*" ++ r ++ [NL]) with (("*"%char :: r) ++ [NL]).
      rewrite strip_blank_r by reflexivity. exact I. }
    rewrite entry_from_text_comment.
    + now rewrite St.
    + unfold is_comment_line. now rewrite St.
  - destruct (@cut_at_first "="%char text) as (k0 & rv & E & Zk);
      [now apply (@entry_from_text_has_equals _ _ C H)|].
    change (k0 ++ "="%char :: rv) with (k0 ++ "=" ++ rv) in E. subst text.
    assert (Nv : strip rv <> []).
    { intros N. rewrite entry_from_text_cut in H by assumption.
      now rewrite N in H. }
    rewrite entry_from_text_cut_value in H by assumption. cbv zeta in H.
    destruct (@value_text_written _ Nv) as [Lv Rv].
    set (vt := drop_terminator (strip rv)) in *.
    destruct (strip_decompose k0) as (w1 & w2 & Ek & B1 & B2).
    assert (Zk0 : count "=" (strip k0) = 0) by now apply count_strip.
    destruct (contains "ref " (strip k0)) eqn:Ref.
    + destruct (count "$" (strip k0) =? 1) eqn:D; [|discriminate].
      apply Nat.eqb_eq in D. injection H as <-.
      destruct (@cut_at_first "$"%char (strip k0)) as (a & b & Eb & Za); [lia|].
      assert (Zb : count "$" b = 0).
      { rewrite Eb, count_app in D. simpl in D. lia. }
      assert (Sp : nth 1 (split "$" (strip k0)) [] = b).
      { rewrite Eb, split_first by assumption. now rewrite split_no_sep. }
      rewrite Sp.
      assert (Zsb : count "=" (strip b) = 0).
      { apply count_strip. rewrite Eb, count_app in Zk0. simpl in Zk0. lia. }
      unfold Entry_to_string, Entry_str.
      cbn [e_type e_key e_value render_key]. fold s.
      change (contains [":"%char] vt) with (contains ":" vt). rewrite Rv.
      assert (Tk : strip ("ref $" ++ strip b) = "ref $" ++ strip b).
      { destruct (@written_variable_line (strip b) []) as [_ W];
          [apply strip_idem|].
        rewrite <- strip_blank_r with (w := " ") by reflexivity.
        rewrite <- app_assoc. exact W. }
      assert (X : s ++ "ref $" ++ strip b ++ " = " ++ vt ++ ";" ++ [NL] =
                  s ++ ("ref $" ++ strip b) ++ " = " ++ vt ++ ";" ++ [NL]).
      { rewrite <- !app_assoc. reflexivity. }
      rewrite X, entry_from_text_line.
      * cbv zeta.
        rewrite contains_prefix by apply (@startswith_self "ref " _).
        assert (Cd : count "$" ("ref $" ++ strip b) = 1).
        { rewrite count_app, (count_strip _ _ Zb). reflexivity. }
        rewrite Cd. cbn [Nat.eqb].
        change ("ref $" ++ strip b) with ("ref " ++ "$"%char :: strip b).
        rewrite split_first by reflexivity.
        rewrite split_no_sep by now apply count_strip.
        cbn [nth]. now rewrite strip_idem.
      * exact Bs.
      * rewrite count_app, Zsb. reflexivity.
      * exact Tk.
      * exact Lv.
      * change (("ref $" ++ strip b) ++ " = " ++ vt ++ ";" ++ [NL])
          with ("r"%char :: ("ef $" ++ strip b) ++ " = " ++ vt ++ ";" ++ [NL]).
        now rewrite is_comment_line_head.
    + injection H as <-.
      unfold Entry_to_string, Entry_str.
      cbn [e_type e_key e_value render_key]. fold s.
      change (contains [":"%char] vt) with (contains ":" vt). rewrite Rv.
      rewrite entry_from_text_line.
      * cbv zeta. now rewrite Ref.
      * exact Bs.
      * exact Zk0.
      * apply strip_idem.
      * exact Lv.
      * destruct (strip k0) as [|c r] eqn:Sk.
        -- change (s ++ [] ++ " = " ++ vt ++ ";" ++ [NL])
             with (s ++ " "%char :: "="%char :: " " ++ vt ++ ";" ++ [NL]).
           replace (s ++ " "%char :: "="%char :: " " ++ vt ++ ";" ++ [NL])
             with ((s ++ " ") ++ "="%char :: " " ++ vt ++ ";" ++ [NL])
             by (rewrite <- app_assoc; reflexivity).
           rewrite is_comment_line_head;
             [reflexivity|apply blank_app; [exact Bs|reflexivity]|reflexivity].
        -- assert (Cc : isspace c = false).
           { apply (@trimmed_head c r). rewrite <- Sk. apply strip_trimmed. }
           rewrite Ek in C.
           change ((w1 ++ (c :: r) ++ w2) ++ "=" ++ rv)
             with ((w1 ++ c :: r ++ w2) ++ "=" ++ rv) in C.
           rewrite <- app_assoc in C.
           change ((c :: r ++ w2) ++ "=" ++ rv)
             with (c :: (r ++ w2) ++ "=" ++ rv) in C.
           rewrite is_comment_line_head in C by assumption.
           change (s ++ (c :: r) ++ " = " ++ vt ++ ";" ++ [NL])
             with (s ++ c :: r ++ " = " ++ vt ++ ";" ++ [NL]).
           now rewrite is_comment_line_head.
Qed.

Lemma entry_text_round_trip_witness :
  entry_from_text "  ref $IF = A:B ; * note" =
    Ok (mkEntry variable (Some (str "IF")) (VList [str "A"; str "B ; * note"])) /\
  entry_from_text
    (Entry_to_string
       (mkEntry variable (Some (str "IF")) (VList [str "A"; str "B ; * note"]))
       (Some 2)) =
    Ok (mkEntry variable (Some (str "IF")) (VList [str "A"; str "B ; * note"])).
Proof.
  split; [reflexivity|].
  apply (@entry_text_round_trip "  ref $IF = A:B ; * note"). reflexivity.
Defined.

(** X2.  What [entry_from_text] does with every line.  A comment line is
    always read.  Another line is read when it has a [=], some text after
    it, and a key text that either has no [ref ] or has one [$]; a blank
    line and a line with nothing after its first [=] raise [IndexError],
    the other lines [AssertionError], and nothing else is ever raised. *)
Theorem entry_from_text_outcome (text : pystr) :
  ((exists e, entry_from_text text = Ok e) <->
   is_comment_line text = true \/
   (strip text <> [] /\ count "=" text <> 0 /\ strip (raw_value text) <> [] /\
    (contains "ref " (key_text text) = true -> count "$" (key_text text) = 1))) /\
  (entry_from_text text = Raise IndexError <->
   strip text = [] \/
   (is_comment_line text = false /\ count "=" text <> 0 /\
    strip (raw_value text) = [])) /\
  (entry_from_text text = Raise AssertionError <->
   is_comment_line text = false /\ strip text <> [] /\
   (count "=" text = 0 \/
    (strip (raw_value text) <> [] /\ contains "ref " (key_text text) = true /\
     count "$" (key_text text) <> 1))) /\
  (forall err, entry_from_text text = Raise err ->
     err = IndexError \/ err = AssertionError).
Proof.
  unfold key_text. destruct (is_comment_line text) eqn:C.
  - rewrite entry_from_text_comment by assumption.
    assert (N : strip text <> []).
    { unfold is_comment_line in C. now destruct (strip text). }
    split; [split; [now left|intros _; eexists; reflexivity]|].
    split; [split; [discriminate|intros [E|[E _]]; [now elim N|discriminate]]|].
    split; [split; [discriminate|intros [E _]; discriminate]|].
    discriminate.
  - rewrite entry_from_text_parts by assumption.
    destruct (strip text) as [|c r] eqn:St.
    { split; [split; [intros [e E]; discriminate
                     |intros [E|[E _]]; [discriminate|now elim E]]|].
      split; [split; [now left|reflexivity]|].
      split; [split; [discriminate|intros (_ & E & _); now elim E]|].
      intros err E. left. congruence. }
    assert (N : c :: r <> []) by discriminate.
    destruct (count "=" text) as [|n] eqn:K; cbn [Nat.eqb].
    { split; [split; [intros [e E]; discriminate
                     |intros [E|(_ & E & _)]; [discriminate|now elim E]]|].
      split; [split; [discriminate
                     |intros [E|(_ & E & _)]; [discriminate|now elim E]]|].
      split; [split; [intros _; repeat split; [exact N|now left]|reflexivity]|].
      intros err E. right. congruence. }
    assert (Kn : S n <> 0) by discriminate.
    destruct (strip (raw_value text)) as [|v vr] eqn:V.
    { split; [split; [intros [e E]; discriminate
                     |intros [E|(_ & _ & E & _)]; [discriminate|now elim E]]|].
      split; [split; [intros _; right; now repeat split|reflexivity]|].
      split; [split; [discriminate
                     |intros (_ & _ & [E|(E & _)]); [discriminate|now elim E]]|].
      intros err E. left. congruence. }
    assert (Nv : v :: vr <> []) by discriminate.
    cbv zeta.
    destruct (contains "ref " (strip (hd [] (split "=" text)))) eqn:Ref.
    + destruct (count "$" (strip (hd [] (split "=" text))) =? 1) eqn:D.
      * apply Nat.eqb_eq in D.
        split; [split; [intros _; right; now repeat split
                       |intros _; eexists; reflexivity]|].
        split; [split; [discriminate
                       |intros [E|(_ & _ & E)]; discriminate]|].
        split; [split; [discriminate
                       |intros (_ & _ & [E|(_ & _ & E)]);
                          [discriminate|now elim E]]|].
        discriminate.
      * apply Nat.eqb_neq in D.
        split; [split; [intros [e E]; discriminate
                       |intros [E|(_ & _ & _ & E)];
                          [discriminate|now elim D; apply E]]|].
        split; [split; [discriminate
                       |intros [E|(_ & _ & E)]; discriminate]|].
        split; [split; [intros _; split; [reflexivity|];
                        split; [exact N|]; right; now repeat split
                       |reflexivity]|].
        intros err E. right. congruence.
    + split; [split; [intros _; right; repeat split;
                        [exact N|exact Kn|exact Nv|discriminate]
                     |intros _; eexists; reflexivity]|].
      split; [split; [discriminate
                     |intros [E|(_ & _ & E)]; discriminate]|].
      split; [split; [discriminate
                     |intros (_ & _ & [E|(_ & E & _)]); discriminate]|].
      discriminate.
Qed.

(** ** Item access on an entry *)

(** X3.  An entry answers to one key, its own ([None] for a comment):
    [e[key]] and [e[key] = value] succeed for that key and raise
    [KeyError] for every other; an assignment changes the value only, and
    the value assigned is the value read next. *)
Theorem entry_item_access (e : Entry) (key : pykey) (value : Value) :
  (key = e_key e ->
   Entry_getitem e key = Ok (e_value e) /\
   exists e', Entry_setitem e key value = Ok e' /\
     e_type e' = e_type e /\ e_key e' = e_key e /\
     Entry_getitem e' key = Ok value /\
     Entry_to_string e' None = Entry_to_string (mkEntry (e_type e) key value) None) /\
  (key <> e_key e ->
   Entry_getitem e key = Raise (KeyError (render_key key ++ " not found")) /\
   Entry_setitem e key value =
     Raise (KeyError (render_key key ++ " not found. New Entry required"))).
Proof.
  unfold Entry_getitem, Entry_setitem. split.
  - intros ->. rewrite pykey_eqb_refl. split; [reflexivity|].
    eexists. split; [reflexivity|]. cbn [e_type e_key e_value].
    rewrite pykey_eqb_refl. now repeat split.
  - intros N.
    assert (F : pykey_eqb (e_key e) key = false)
      by (apply pykey_eqb_false; congruence).
    now rewrite F.
Qed.

(** A comment read from a line answers to [None] with its text, and to no
    string. *)
Lemma comment_item_access (text : pystr) (e : Entry) :
  is_comment_line text = true -> entry_from_text text = Ok e ->
  Entry_getitem e None = Ok (VStr (tl (strip text))) /\
  forall k, exists m, Entry_getitem e (Some k) = Raise (KeyError m).
Proof.
  intros C H. rewrite entry_from_text_comment in H by assumption.
  injection H as <-. split; [reflexivity|]. intros k. eexists. reflexivity.
Qed.

(** ** What the containers keep of the items they are given *)

Lemma str_inj (a b : string) : str a = str b -> a = b.
Proof.
  intros H. rewrite <- (string_of_list_ascii_of_string a).
  rewrite <- (string_of_list_ascii_of_string b). unfold str in H. now rewrite H.
Qed.

Lemma str_of_nat_inj (n m : nat) : str_of_nat n = str_of_nat m -> n = m.
Proof.
  unfold str_of_nat. intros H. apply str_inj in H.
  apply Unsigned.to_uint_inj.
  assert (U : forall k, NilZero.uint_of_string
                          (NilZero.string_of_uint (Nat.to_uint k))
                        = Some (Nat.to_uint k)).
  { intros k. apply NilZero.usu. intros E.
    pose proof (Unsigned.of_to k) as O. rewrite E in O.
    pose proof (Unsigned.to_of Decimal.Nil) as T. simpl in O. subst k.
    discriminate E. }
  pose proof (U n) as Un. rewrite H, U in Un. now injection Un.
Qed.

(** Distinct numbers give distinct comment keys. *)
Lemma comment_key_inj (n m : nat) : comment_key n = comment_key m -> n = m.
Proof.
  unfold comment_key. intros H. injection H as H. now apply str_of_nat_inj.
Qed.

Lemma comment_key_reserved (n : nat) : reserved_key (comment_key n) = true.
Proof. apply (@startswith_self "comment-" (str_of_nat n)). Qed.

Lemma reserved_key_other (k : pykey) (n : nat) :
  reserved_key k = false -> comment_key n <> k.
Proof. intros R E. subst k. now rewrite comment_key_reserved in R. Qed.

Lemma is_comment_false_type (e : Entry) :
  is_comment e = false <-> e_type e <> comment.
Proof. unfold is_comment. destruct (e_type e); split; congruence. Qed.

(** One [add_entry], seen from a key that is no comment key. *)
Lemma entries_at_add_entry (k : pykey) (d : VexDefinition) (e : Entry) :
  reserved_key k = false ->
  entries_at k (add_entry d e) =
  entries_at k d ++ (if given_with k e then [e] else []).
Proof.
  intros R. unfold entries_at, given_with.
  destruct (is_comment e) eqn:C.
  - rewrite add_entry_comment by assumption. cbn [d_entries negb andb].
    rewrite od_get_set_other by now apply reserved_key_other.
    now rewrite app_nil_r.
  - rewrite add_entry_other by assumption. cbn [d_entries negb andb].
    destruct (pykey_eqb (e_key e) k) eqn:K.
    + apply pykey_eqb_true in K. rewrite <- K. rewrite od_get_set_same.
      now destruct (od_get (e_key e) (d_entries d)) as [[e0|l]|].
    + apply pykey_eqb_false in K. rewrite od_get_set_other by assumption.
      now rewrite app_nil_r.
Qed.

Lemma entries_at_fold (k : pykey) (es : list Entry) (d : VexDefinition) :
  reserved_key k = false ->
  entries_at k (fold_left add_entry es d) =
  entries_at k d ++ filter (given_with k) es.
Proof.
  intros R. revert d. induction es as [|e es IH]; intros d.
  - now rewrite app_nil_r.
  - cbn [fold_left filter]. rewrite IH, entries_at_add_entry by assumption.
    rewrite <- app_assoc. now destruct (given_with k e).
Qed.

(** X4.  [add_entry] loses no entry and keeps the order in which the
    entries of a key were given: in a [Definition] or a [Scan] built from
    the empty one, a key that has not the form of a comment key holds the
    entries given with that key, all of them, in the order given. *)
Theorem definition_key_holds_its_entries (cls : BlockClass) (name : pystr)
    (es : list Entry) (k : pykey) :
  reserved_key k = false ->
  entries_at k (fold_left add_entry es (mkDefinition cls name [] 0)) =
  filter (given_with k) es.
Proof. intros R. now rewrite entries_at_fold. Qed.

Lemma definition_key_holds_its_entries_witness :
  let e1 := mkEntry variable (Some (str "IF")) (VStr "A") in
  let e2 := mkEntry parameter (Some (str "x")) (VStr "1") in
  let e3 := mkEntry comment None (VStr " note") in
  let e4 := mkEntry variable (Some (str "IF")) (VStr "B") in
  entries_at (Some (str "IF"))
    (fold_left add_entry [e1; e2; e3; e4] (Definition_init "Jb")) = [e1; e4].
Proof.
  intros e1 e2 e3 e4.
  exact (@definition_key_holds_its_entries DefinitionClass "Jb"
           [e1; e2; e3; e4] (Some (str "IF")) eq_refl).
Defined.

Lemma comment_counter_fold (es : list Entry) (d : VexDefinition) :
  d_number_comments (fold_left add_entry es d) =
  d_number_comments d + List.length (comments_of es).
Proof.
  revert d. induction es as [|e es IH]; intros d; [cbn; lia|].
  cbn [fold_left comments_of filter]. rewrite IH.
  destruct (is_comment e) eqn:C.
  - rewrite add_entry_comment by assumption. cbn [d_number_comments List.length].
    fold (comments_of es). lia.
  - rewrite add_entry_other by assumption. reflexivity.
Qed.

(** A comment key in use is not touched by what is added later. *)
Lemma comment_key_stable (es : list Entry) (d : VexDefinition) (m : nat) :
  plain_keys es = true -> m <= d_number_comments d ->
  od_get (comment_key m) (d_entries (fold_left add_entry es d)) =
  od_get (comment_key m) (d_entries d).
Proof.
  revert d. induction es as [|e es IH]; intros d P M; [reflexivity|].
  cbn [plain_keys forallb] in P. apply andb_true_iff in P as [Pe P].
  cbn [fold_left]. destruct (is_comment e) eqn:C.
  - rewrite IH; [|exact P|rewrite add_entry_comment by assumption; cbn; lia].
    rewrite add_entry_comment by assumption. cbn [d_entries].
    apply od_get_set_other. intros E. apply comment_key_inj in E. lia.
  - rewrite IH; [|exact P|rewrite add_entry_other by assumption; exact M].
    rewrite add_entry_other by assumption. cbn [d_entries].
    apply od_get_set_other. cbn [orb] in Pe. apply negb_true_iff in Pe.
    intros E. apply (@reserved_key_other _ m Pe). now symmetry.
Qed.

Lemma comments_numbered_from (es : list Entry) (d : VexDefinition)
    (i : nat) (c : Entry) :
  plain_keys es = true -> nth_error (comments_of es) i = Some c ->
  od_get (comment_key (S (d_number_comments d + i)))
    (d_entries (fold_left add_entry es d)) = Some (One c).
Proof.
  revert d i. induction es as [|e es IH]; intros d i P N.
  - destruct i; discriminate N.
  - pose proof P as P0.
    cbn [plain_keys forallb] in P. apply andb_true_iff in P as [Pe P].
    cbn [fold_left]. cbn [comments_of filter] in N.
    destruct (is_comment e) eqn:C.
    + fold (comments_of es) in N. destruct i as [|i].
      * injection N as <-. rewrite Nat.add_0_r.
        rewrite comment_key_stable;
          [|exact P|rewrite add_entry_comment by assumption; cbn; lia].
        rewrite add_entry_comment by assumption. cbn [d_entries].
        apply od_get_set_same.
      * cbn [nth_error] in N.
        replace (S (d_number_comments d + S i))
          with (S (d_number_comments (add_entry d e) + i))
          by (rewrite add_entry_comment by assumption; cbn; lia).
        now apply IH.
    + fold (comments_of es) in N.
      replace (d_number_comments d)
        with (d_number_comments (add_entry d e))
        by (rewrite add_entry_other by assumption; reflexivity).
      now apply IH.
Qed.

(** X5.  The comments of a [Definition] or [Scan]: when no other entry has
    a key of the form [comment-...], the block built from the empty one
    counts the comments it was given and holds the [i]-th of them, alone,
    under [comment-i]. *)
Theorem definition_keeps_comments (cls : BlockClass) (name : pystr)
    (es : list Entry) :
  plain_keys es = true ->
  let d := fold_left add_entry es (mkDefinition cls name [] 0) in
  d_number_comments d = List.length (comments_of es) /\
  forall i c, nth_error (comments_of es) i = Some c ->
    od_get (comment_key (S i)) (d_entries d) = Some (One c).
Proof.
  intros P d. split.
  - unfold d. now rewrite comment_counter_fold.
  - intros i c N.
    exact (@comments_numbered_from es (mkDefinition cls name [] 0) i c P N).
Qed.

Lemma definition_keeps_comments_witness :
  let e1 := mkEntry comment None (VStr " first") in
  let e2 := mkEntry parameter (Some (str "x")) (VStr "1") in
  let e3 := mkEntry comment None (VStr " second") in
  let d := fold_left add_entry [e1; e2; e3] (mkDefinition ScanClass "No1" [] 0) in
  d_number_comments d = List.length (comments_of [e1; e2; e3]) /\
  forall i c, nth_error (comments_of [e1; e2; e3]) i = Some c ->
    od_get (comment_key (S i)) (d_entries d) = Some (One c).
Proof.
  intros e1 e2 e3.
  exact (@definition_keeps_comments ScanClass "No1" [e1; e2; e3] eq_refl).
Defined.

(** Without the condition an entry is lost: a comment takes the place of
    a parameter whose key is [comment-1]. *)
Example comment_takes_the_place_of_a_parameter :
  let p := mkEntry parameter (Some (str "comment-1")) (VStr "x") in
  let c := mkEntry comment None (VStr " note") in
  d_entries (fold_left add_entry [p; c] (Definition_init "D")) =
  [(Some (str "comment-1"), One c)].
Proof. reflexivity. Qed.

Lemma last_cons_default (A : Type) (x d : A) (l : list A) :
  last (x :: l) d = last l x.
Proof.
  revert x d. induction l as [|y l IH]; intros x d; [reflexivity|].
  change (last (x :: y :: l) d) with (last (y :: l) d).
  now rewrite !IH.
Qed.

Lemma fold_last (A : Type) (p : A -> bool) (cs : list A) (acc : option A) :
  fold_left (fun a c => if p c then Some c else a) cs acc =
  last (map Some (filter p cs)) acc.
Proof.
  revert acc. induction cs as [|c cs IH]; intros acc; [reflexivity|].
  cbn [fold_left filter]. rewrite IH. destruct (p c); [|reflexivity].
  cbn [map]. now rewrite last_cons_default.
Qed.

(** One [add_definition], seen from a key that is no comment key. *)
Lemma od_get_add_definition (k : pykey) (s : VexSection) (c : SectionChild) :
  reserved_key k = false ->
  od_get k (s_definitions (add_definition s c)) =
  if filed_at section_child_key k c then Some c
  else od_get k (s_definitions s).
Proof.
  intros R. unfold filed_at, section_child_key, add_definition, is_comment.
  destruct c as [d|e].
  - cbn [s_definitions]. destruct (pykey_eqb (Some (d_name d)) k) eqn:K.
    + apply pykey_eqb_true in K. rewrite <- K. apply od_get_set_same.
    + apply pykey_eqb_false in K. now apply od_get_set_other.
  - destruct (e_type e) eqn:T; cbn [s_definitions];
      try (destruct (pykey_eqb (e_key e) k) eqn:K;
           [apply pykey_eqb_true in K; rewrite <- K; apply od_get_set_same
           |apply pykey_eqb_false in K; now apply od_get_set_other]).
    apply od_get_set_other. now apply reserved_key_other.
Qed.

Lemma od_get_add_section (k : pykey) (v : Vex) (c : VexChild) :
  reserved_key k = false ->
  od_get k (v_sections (add_section v c)) =
  if filed_at vex_child_key k c then Some c else od_get k (v_sections v).
Proof.
  intros R. unfold filed_at, vex_child_key, add_section, is_comment.
  destruct c as [s|d|e].
  - cbn [v_sections]. destruct (pykey_eqb (Some (s_name s)) k) eqn:K.
    + apply pykey_eqb_true in K. rewrite <- K. apply od_get_set_same.
    + apply pykey_eqb_false in K. now apply od_get_set_other.
  - cbn [v_sections]. destruct (pykey_eqb (Some (d_name d)) k) eqn:K.
    + apply pykey_eqb_true in K. rewrite <- K. apply od_get_set_same.
    + apply pykey_eqb_false in K. now apply od_get_set_other.
  - destruct (e_type e) eqn:T; cbn [v_sections];
      try (destruct (pykey_eqb (e_key e) k) eqn:K;
           [apply pykey_eqb_true in K; rewrite <- K; apply od_get_set_same
           |apply pykey_eqb_false in K; now apply od_get_set_other]).
    apply od_get_set_other. now apply reserved_key_other.
Qed.

Lemma od_get_fold_add_definition (k : pykey) (cs : list SectionChild)
    (s : VexSection) :
  reserved_key k = false ->
  od_get k (s_definitions (fold_left add_definition cs s)) =
  last (map Some (filter (filed_at section_child_key k) cs))
    (od_get k (s_definitions s)).
Proof.
  intros R. rewrite <- fold_last. revert s.
  induction cs as [|c cs IH]; intros s; [reflexivity|].
  cbn [fold_left]. now rewrite IH, od_get_add_definition.
Qed.

Lemma od_get_fold_add_section (k : pykey) (cs : list VexChild) (v : Vex) :
  reserved_key k = false ->
  od_get k (v_sections (fold_left add_section cs v)) =
  last (map Some (filter (filed_at vex_child_key k) cs))
    (od_get k (v_sections v)).
Proof.
  intros R. rewrite <- fold_last. revert v.
  induction cs as [|c cs IH]; intros v; [reflexivity|].
  cbn [fold_left]. now rewrite IH, od_get_add_section.
Qed.

(** X6.  In a [Section] and at the top of a [Vex] a key holds one item,
    the last one given with it: of the definitions of one name, or the
    entries of one key, given to [add_definition] or [add_section], all but
    the last are dropped.  The key is any key that has not the form of a
    comment key. *)
Theorem section_key_holds_the_last (name : pystr) (k : pykey)
    (cs : list SectionChild) (vs : list VexChild) :
  reserved_key k = false ->
  od_get k (s_definitions (fold_left add_definition cs (Section_init name))) =
    last (map Some (filter (filed_at section_child_key k) cs)) None /\
  od_get k (v_sections (fold_left add_section vs (Vex_init name))) =
    last (map Some (filter (filed_at vex_child_key k) vs)) None.
Proof.
  intros R. split.
  - now rewrite od_get_fold_add_definition.
  - now rewrite od_get_fold_add_section.
Qed.

Lemma section_key_holds_the_last_witness :
  let d1 := SDefinition (add_entry (Definition_init "Jb")
                           (mkEntry parameter (Some (str "x")) (VStr "1"))) in
  let d2 := SDefinition (Definition_init "Jb") in
  let e := VEntry (mkEntry parameter (Some (str "Jb")) (VStr "2")) in
  let s := VSection (Section_init "Jb") in
  od_get (Some (str "Jb"))
    (s_definitions (fold_left add_definition [d1; d2] (Section_init "S"))) =
    Some d2 /\
  od_get (Some (str "Jb"))
    (v_sections (fold_left add_section [e; s] (Vex_init "S"))) = Some s.
Proof.
  intros d1 d2 e s.
  exact (@section_key_holds_the_last "S" (Some (str "Jb")) [d1; d2] [e; s]
           eq_refl).
Defined.

(** ** The constructors that take the items *)

Lemma entries_setter_fold (cls : BlockClass) (name : pystr) (n : nat)
    (es : list Entry) (entries : odict EntryOrList) :
  match entries_setter entries es with
  | Ok entries' =>
      existsb is_comment es = false /\
      fold_left add_entry es (mkDefinition cls name entries n) =
      mkDefinition cls name entries' n
  | Raise err => existsb is_comment es = true /\ err = AttributeError
  end.
Proof.
  revert entries. induction es as [|e es IH]; intros entries.
  - now split.
  - cbn [entries_setter existsb fold_left]. unfold add_entry_while_init.
    destruct (is_comment e) eqn:C.
    + unfold is_comment in C. destruct (e_type e); try discriminate.
      now split.
    + rewrite add_entry_other by assumption. cbn [d_entries d_class d_name
        d_number_comments orb].
      unfold is_comment in C.
      destruct (e_type e); try discriminate; rewrite bind_ok; cbn [fst];
        apply IH.
Qed.

(** X7.  [Definition(name, list_of_entries)] and [Scan(name,
    list_of_entries)] cannot take a comment: [add_entry] runs before the
    counter of comments exists, so a list with a comment in it raises
    [AttributeError]; a list without one gives the block that [add_entry]
    builds from the empty block, entry by entry. *)
Theorem definition_from_list (cls : BlockClass) (name : pystr)
    (es : list Entry) :
  Definition_init_entries cls name es =
  if existsb is_comment es then Raise AttributeError
  else Ok (fold_left add_entry es (mkDefinition cls name [] 0)).
Proof.
  unfold Definition_init_entries.
  pose proof (@entries_setter_fold cls name 0 es []) as H.
  destruct (entries_setter [] es) as [entries|err].
  - destruct H as [-> ->]. reflexivity.
  - destruct H as [-> ->]. reflexivity.
Qed.

Lemma definitions_setter_fold (name : pystr) (n : nat)
    (cs : list SectionChild) (definitions : odict SectionChild) :
  match definitions_setter definitions cs with
  | Ok definitions' =>
      existsb section_child_is_comment cs = false /\
      fold_left add_definition cs (mkSection name definitions n) =
      mkSection name definitions' n
  | Raise err =>
      existsb section_child_is_comment cs = true /\ err = AttributeError
  end.
Proof.
  revert definitions. induction cs as [|c cs IH]; intros definitions.
  - now split.
  - cbn [definitions_setter existsb fold_left].
    unfold add_definition_while_init, add_definition.
    destruct c as [d|e]; cbn [section_child_is_comment s_definitions s_name
      s_number_comments].
    + rewrite bind_ok. cbn [orb]. apply IH.
    + unfold is_comment.
      destruct (e_type e); [now split| |]; rewrite bind_ok; cbn [orb];
        apply IH.
Qed.

(** X8.  [Section(name, definitions)] cannot take a comment either, for
    the same reason: a list with a comment entry in it raises
    [AttributeError]; a list without one gives the section that
    [add_definition] builds from the empty section. *)
Theorem section_from_list (name : pystr) (cs : list SectionChild) :
  Section_init_definitions name cs =
  if existsb section_child_is_comment cs then Raise AttributeError
  else Ok (fold_left add_definition cs (Section_init name)).
Proof.
  unfold Section_init_definitions.
  pose proof (@definitions_setter_fold name 0 cs []) as H.
  destruct (definitions_setter [] cs) as [definitions|err].
  - destruct H as [-> H]. unfold Section_init. rewrite H. reflexivity.
  - destruct H as [-> ->]. reflexivity.
Qed.

(** ** The dictionary protocol of the containers *)

Section OrderedDictMethodFacts.
Variable V : Type.
Implicit Types (d : odict V) (k : pykey).

Lemma od_get_remove_other k k' d :
  k <> k' -> od_get k' (od_remove k d) = od_get k' d.
Proof.
  intros N. induction d as [|[k0 v] d IH]; [reflexivity|].
  cbn [od_remove od_get]. destruct (pykey_eqb k k0) eqn:K.
  - apply pykey_eqb_true in K. subst k0.
    assert (F : pykey_eqb k' k = false) by (apply pykey_eqb_false; congruence).
    now rewrite F.
  - cbn [od_get]. now rewrite IH.
Qed.

Lemma filter_other_keys k (ks : list pykey) :
  ~ In k ks -> filter (fun k' => negb (pykey_eqb k k')) ks = ks.
Proof.
  induction ks as [|k0 ks IH]; intros N; [reflexivity|].
  cbn [filter]. assert (F : pykey_eqb k k0 = false).
  { apply pykey_eqb_false. intros E. apply N. now left. }
  rewrite F. cbn [negb]. rewrite IH; [reflexivity|].
  intros I. apply N. now right.
Qed.

Lemma od_keys_remove k d :
  NoDup (od_keys d) ->
  od_keys (od_remove k d) = filter (fun k' => negb (pykey_eqb k k')) (od_keys d).
Proof.
  induction d as [|[k0 v] d IH]; intros N; [reflexivity|].
  cbn [od_keys map fst] in N. apply NoDup_cons_iff in N as [N0 N].
  cbn [od_remove od_keys map fst filter]. destruct (pykey_eqb k k0) eqn:K.
  - apply pykey_eqb_true in K. subst k0. cbn [negb].
    symmetry. now apply filter_other_keys.
  - cbn [negb od_keys map fst]. f_equal. now apply IH.
Qed.

Lemma od_get_remove_same k d :
  NoDup (od_keys d) -> od_get k (od_remove k d) = None.
Proof.
  intros N. apply od_get_none_keys. rewrite od_keys_remove by assumption.
  intros I. apply filter_In in I as [_ I]. now rewrite pykey_eqb_refl in I.
Qed.

Lemma od_remove_length k d :
  od_mem k d = true -> S (List.length (od_remove k d)) = List.length d.
Proof.
  unfold od_mem. induction d as [|[k0 v] d IH]; [discriminate|].
  cbn [od_get od_remove]. destruct (pykey_eqb k k0); [reflexivity|].
  intros M. cbn [List.length]. now rewrite IH.
Qed.

Lemma od_delitem_deleted k d d' :
  NoDup (od_keys d) -> od_delitem k d = Found d' ->
  od_mem k d = true /\ deleted k d d'.
Proof.
  unfold od_delitem. intros N H. destruct (od_mem k d) eqn:M; [|discriminate].
  injection H as <-. split; [reflexivity|].
  split; [now apply od_get_remove_same|].
  split; [intros k' K; apply od_get_remove_other; congruence|].
  split; [now apply od_keys_remove|now apply od_remove_length].
Qed.

Lemma od_delitem_missing k k0 d :
  od_delitem k d = MissingKey k0 -> k0 = k /\ od_mem k d = false.
Proof.
  unfold od_delitem. destruct (od_mem k d); [discriminate|].
  intros H. injection H as <-. now split.
Qed.

Lemma od_set_length k (x : V) d :
  List.length (od_set k x d) =
  List.length d + (if od_mem k d then 0 else 1).
Proof.
  unfold od_mem. induction d as [|[k0 v] d IH]; [reflexivity|].
  cbn [od_set od_get]. destruct (pykey_eqb k k0); cbn [List.length].
  - lia.
  - rewrite IH. now destruct (od_get k d).
Qed.

Lemma od_set_assigned k (x : V) d : assigned k x d (od_set k x d).
Proof.
  split; [apply od_get_set_same|].
  split; [intros k' K; apply od_get_set_other; congruence|].
  split; [apply od_keys_set|apply od_set_length].
Qed.

Lemma od_pop_getitem_delitem k d :
  od_pop k d =
  match od_getitem k d, od_delitem k d with
  | Found x, Found d' => Found (x, d')
  | _, _ => MissingKey k
  end.
Proof.
  unfold od_pop, od_getitem, od_delitem, od_mem.
  now destruct (od_get k d).
Qed.

Lemma od_pop_default_pop (D : Type) k (default : D) d :
  od_pop_default k default d =
  match od_pop k d with
  | Found (x, d') => (inl x, d')
  | MissingKey _ => (inr default, d)
  end.
Proof. unfold od_pop_default, od_pop. now destruct (od_get k d). Qed.
End OrderedDictMethodFacts.

(** X9.  [del c[key]] on a [Definition], a [Section] and a [Vex], whose
    keys are those of a dictionary (no key twice): when the key is there it
    alone goes, the other keys keep their values and their order, and the
    name and the counter of comments stay; when it is not there the
    statement raises [KeyError(key)]. *)
Theorem delitem_removes_the_key (d : VexDefinition) (s : VexSection)
    (v : Vex) (key : pykey) :
  NoDup (Definition_keys d) -> NoDup (Section_keys s) -> NoDup (Vex_keys v) ->
  match Definition_delitem d key with
  | Found d' =>
      Definition_has_key d key = true /\
      deleted key (Definition_items d) (Definition_items d') /\
      d' = with_entries d (d_entries d')
  | MissingKey k => k = key /\ Definition_has_key d key = false
  end /\
  match Section_delitem s key with
  | Found s' =>
      Section_has_key s key = true /\
      deleted key (s_definitions s) (s_definitions s') /\
      s' = with_definitions s (s_definitions s')
  | MissingKey k => k = key /\ Section_has_key s key = false
  end /\
  match Vex_delitem v key with
  | Found v' =>
      Vex_has_key v key = true /\
      deleted key (v_sections v) (v_sections v') /\
      v' = with_sections v (v_sections v')
  | MissingKey k => k = key /\ Vex_has_key v key = false
  end.
Proof.
  intros Nd Ns Nv.
  unfold Definition_delitem, Section_delitem, Vex_delitem, Definition_has_key,
    Section_has_key, Vex_has_key, Definition_items.
  split; [|split].
  - destruct (od_delitem key (d_entries d)) as [d'|k] eqn:E.
    + destruct (@od_delitem_deleted _ _ _ _ Nd E) as [M D].
      split; [exact M|]. split; [exact D|reflexivity].
    + now apply od_delitem_missing.
  - destruct (od_delitem key (s_definitions s)) as [d'|k] eqn:E.
    + destruct (@od_delitem_deleted _ _ _ _ Ns E) as [M D].
      split; [exact M|]. split; [exact D|reflexivity].
    + now apply od_delitem_missing.
  - destruct (od_delitem key (v_sections v)) as [d'|k] eqn:E.
    + destruct (@od_delitem_deleted _ _ _ _ Nv E) as [M D].
      split; [exact M|]. split; [exact D|reflexivity].
    + now apply od_delitem_missing.
Qed.

Lemma delitem_removes_the_key_witness :
  let e1 := mkEntry parameter (Some (str "a")) (VStr "1") in
  let e2 := mkEntry parameter (Some (str "b")) (VStr "2") in
  let d := add_entry (add_entry (Definition_init "D") e1) e2 in
  let s := add_definition (Section_init "S") (SDefinition d) in
  let v := add_section (Vex_init "V") (VSection s) in
  Definition_delitem d (Some (str "a")) =
    Found (add_entry (Definition_init "D") e2) /\
  Section_delitem s (Some (str "D")) = Found (Section_init "S") /\
  Vex_delitem v (Some (str "D")) = MissingKey (Some (str "D")) /\
  match Definition_delitem d (Some (str "a")) with
  | Found d' =>
      Definition_has_key d (Some (str "a")) = true /\
      deleted (Some (str "a")) (Definition_items d) (Definition_items d') /\
      d' = with_entries d (d_entries d')
  | MissingKey k =>
      k = Some (str "a") /\ Definition_has_key d (Some (str "a")) = false
  end.
Proof.
  intros e1 e2 d s v.
  split; [reflexivity|]. split; [reflexivity|]. split; [reflexivity|].
  refine (proj1 (@delitem_removes_the_key d s v (Some (str "a")) _ _ _)).
  - apply add_entry_NoDup, add_entry_NoDup. constructor.
  - apply (@od_set_NoDup _ (Some (str "D")) (SDefinition d) []). constructor.
  - apply (@od_set_NoDup _ (Some (str "S")) (VSection s) []). constructor.
Defined.

(** X10.  [c.pop(key)] is [c[key]] followed by [del c[key]]: it gives the
    value and the container without the key, or raises [KeyError(key)]
    and changes nothing; [c.pop(key, default)] never raises, and gives the
    default and the container as it was when the key is absent. *)
Theorem pop_is_getitem_then_delitem (d : VexDefinition) (s : VexSection)
    (v : Vex) (key : pykey) :
  Definition_pop d key =
    match Definition_getitem d key, Definition_delitem d key with
    | Found x, Found d' => Found (x, d')
    | _, _ => MissingKey key
    end /\
  Section_pop s key =
    match Section_getitem s key, Section_delitem s key with
    | Found x, Found s' => Found (x, s')
    | _, _ => MissingKey key
    end /\
  Vex_pop v key =
    match Vex_getitem v key, Vex_delitem v key with
    | Found x, Found v' => Found (x, v')
    | _, _ => MissingKey key
    end /\
  forall (D : Type) (default : D),
    Definition_pop_default d key default =
    match Definition_pop d key with
    | Found (x, d') => (inl x, d')
    | MissingKey _ => (inr default, d)
    end.
Proof.
  unfold Definition_pop, Definition_getitem, Definition_delitem, Section_pop,
    Section_getitem, Section_delitem, Vex_pop, Vex_getitem, Vex_delitem,
    Definition_pop_default.
  split; [|split; [|split]].
  - rewrite od_pop_getitem_delitem.
    destruct (od_getitem key (d_entries d));
      now destruct (od_delitem key (d_entries d)).
  - rewrite od_pop_getitem_delitem.
    destruct (od_getitem key (s_definitions s));
      now destruct (od_delitem key (s_definitions s)).
  - rewrite od_pop_getitem_delitem.
    destruct (od_getitem key (v_sections v));
      now destruct (od_delitem key (v_sections v)).
  - intros D default. rewrite od_pop_default_pop.
    destruct (od_pop key (d_entries d)) as [[x d']|k]; [reflexivity|].
    now destruct d.
Qed.

(** X11.  [c[key] = value] on a [Definition], a [Section] and a [Vex]: the
    key then holds the value, the other keys are as before, a new key comes
    last and an old one keeps its place, and the length grows by one for a
    new key only.  On a [Definition] nothing else changes: the class, the
    name and the counter of comments stay, and the key is then among
    [keys()], the value among [values()], the pair among [items()]. *)
Theorem setitem_then_getitem (d : VexDefinition) (s : VexSection) (v : Vex)
    (key : pykey) (x : EntryOrList) (y : SectionChild) (z : VexChild) :
  (assigned key x (Definition_items d)
     (Definition_items (Definition_setitem d key x)) /\
   Definition_getitem (Definition_setitem d key x) key = Found x /\
   Definition_has_key (Definition_setitem d key x) key = true /\
   Definition_contains (Definition_setitem d key x) key = true /\
   Definition_len (Definition_setitem d key x) =
     Definition_len d + (if Definition_has_key d key then 0 else 1) /\
   In key (Definition_keys (Definition_setitem d key x)) /\
   In x (Definition_values (Definition_setitem d key x)) /\
   In (key, x) (Definition_items (Definition_setitem d key x)) /\
   Definition_setitem d key x =
     mkDefinition (d_class d) (d_name d)
       (Definition_items (Definition_setitem d key x)) (d_number_comments d)) /\
  (assigned key y (s_definitions s) (s_definitions (Section_setitem s key y)) /\
   Section_getitem (Section_setitem s key y) key = Found y /\
   Section_len (Section_setitem s key y) =
     Section_len s + (if Section_has_key s key then 0 else 1)) /\
  (assigned key z (v_sections v) (v_sections (Vex_setitem v key z)) /\
   Vex_getitem (Vex_setitem v key z) key = Found z /\
   Vex_len (Vex_setitem v key z) =
     Vex_len v + (if Vex_has_key v key then 0 else 1)).
Proof.
  unfold Definition_setitem, Definition_getitem, Definition_has_key,
    Definition_contains, Definition_len, Definition_keys, Definition_values,
    Definition_items, Section_setitem, Section_getitem, Section_len,
    Section_has_key, Vex_setitem, Vex_getitem, Vex_len, Vex_has_key,
    with_entries, with_definitions, with_sections, od_getitem, od_mem.
  cbn [d_entries d_class d_name d_number_comments s_definitions v_sections].
  rewrite !od_get_set_same.
  assert (I : forall (V : Type) (w : V) (t : odict V),
                In (key, w) (od_set key w t)).
  { intros V w t. apply od_get_in, od_get_set_same. }
  split; [|split].
  - split; [apply od_set_assigned|]. split; [reflexivity|].
    split; [reflexivity|]. split; [reflexivity|].
    split; [apply od_set_length|].
    split; [apply (in_map fst _ _ (I _ x (d_entries d)))|].
    split; [apply (in_map snd _ _ (I _ x (d_entries d)))|].
    split; [apply I|reflexivity].
  - split; [apply od_set_assigned|]. split; [reflexivity|apply od_set_length].
  - split; [apply od_set_assigned|]. split; [reflexivity|apply od_set_length].
Qed.

(** ** What [from_file] does to the object it fills *)

Lemma extends_refl (v : Vex) : extends v v.
Proof. split; [reflexivity|]. split; [exists []; now rewrite app_nil_r|lia]. Qed.

Lemma extends_trans (a b c : Vex) : extends a b -> extends b c -> extends a c.
Proof.
  intros (N1 & [m1 K1] & C1) (N2 & [m2 K2] & C2).
  split; [congruence|]. split; [|lia].
  exists (m1 ++ m2). now rewrite K2, K1, app_assoc.
Qed.

Lemma add_key_extends (ks : list pykey) (k : pykey) :
  exists more, add_key ks k = ks ++ more.
Proof.
  unfold add_key. destruct (existsb (pykey_eqb k) ks).
  - exists []. now rewrite app_nil_r.
  - now exists [k].
Qed.

Lemma add_section_extends (v : Vex) (c : VexChild) : extends v (add_section v c).
Proof.
  split; [apply add_section_name|]. split.
  - rewrite add_section_keys. apply add_key_extends.
  - unfold add_section. destruct c as [s|d|e]; cbn [v_number_comments];
      try lia. destruct (e_type e); cbn [v_number_comments]; lia.
Qed.

Lemma route_entry_extends (st : ParserState) (e : Entry) :
  extends (st_self st) (st_self (route_entry st e)).
Proof.
  unfold route_entry.
  destruct (current_definition st), (current_section st); cbn [st_self];
    try apply extends_refl. apply add_section_extends.
Qed.

Lemma dispatch_extends (st st' : ParserState) (t : pystr) :
  dispatch st t = Ok st' -> extends (st_self st) (st_self st').
Proof.
  rewrite dispatch_chain. destruct t as [|c t0]; [discriminate|].
  unfold open_definition, close_definition.
  repeat match goal with
  | |- context [if ?b then _ else _] => destruct b
  | |- context [match current_definition st with _ => _ end] =>
      destruct (current_definition st)
  | |- context [match current_section st with _ => _ end] =>
      destruct (current_section st)
  | |- context [name_upto_semicolon ?n ?l] =>
      destruct (name_upto_semicolon n l)
  | |- context [entry_from_text ?l] => destruct (entry_from_text l)
  end; cbn [bind]; intros H; try discriminate; injection H as <-;
    cbn [st_self]; try apply extends_refl; try apply route_entry_extends;
    match goal with
    | |- extends _ (mkVex _ (od_set _ (VSection ?s) _) _) =>
        exact (add_section_extends (st_self st) (VSection s))
    end.
Qed.

Lemma step_extends (st st' : ParserState) (l : pystr) :
  step st l = Ok st' -> extends (st_self st) (st_self st').
Proof.
  unfold step. destruct (strip l) as [|c r]; [discriminate|].
  destruct (Ascii.eqb c "*").
  - destruct (entry_from_text l); [|discriminate]. cbn [bind]. intros H.
    injection H as <-. apply route_entry_extends.
  - destruct (contains ";" l); cbn [negb].
    + destruct (prev_line st); intros H; now apply dispatch_extends in H.
    + destruct (prev_line st); intros H; injection H as <-; apply extends_refl.
Qed.

Lemma parse_lines_extends (vexlines : list pystr) (st st' : ParserState) :
  parse_lines st vexlines = Ok st' -> extends (st_self st) (st_self st').
Proof.
  revert st. induction vexlines as [|l ls IH]; intros st H.
  - simpl in H. injection H as <-. apply extends_refl.
  - rewrite parse_lines_cons in H.
    destruct (step st l) as [st1|] eqn:S; [|discriminate].
    rewrite bind_ok in H.
    exact (extends_trans (@step_extends _ _ _ S) (IH _ H)).
Qed.

(** X12.  [from_file] flushes nothing.  Read into an object that holds
    items already, it keeps the name and every key the object had, in
    their order and before the keys it adds, and never lowers the counter
    of comments; so the object has at least as many keys as before. *)
Theorem from_file_keeps_what_is_there (self v : Vex) (text : pystr) :
  from_file self text = Ok v ->
  extends self v /\ Vex_len self <= Vex_len v /\
  forall key, Vex_has_key self key = true -> Vex_has_key v key = true.
Proof.
  unfold from_file, from_lines. intros H.
  destruct (parse_lines (initial_state self) (readlines text))
    as [st|] eqn:P; [|discriminate].
  rewrite bind_ok in H. injection H as <-.
  apply parse_lines_extends in P. cbn [initial_state st_self] in P.
  assert (E : extends self (finish st)).
  { unfold finish. destruct (current_section st); [|exact P].
    exact (extends_trans P (add_section_extends _ _)). }
  split; [exact E|]. destruct E as (_ & [more K] & _).
  unfold Vex_len, Vex_has_key. split.
  - rewrite <- (length_map fst (v_sections (finish st))).
    rewrite <- (length_map fst (v_sections self)).
    fold (od_keys (v_sections (finish st))). fold (od_keys (v_sections self)).
    rewrite K, length_app. lia.
  - intros key. rewrite !od_mem_keys, K, existsb_app. intros ->. reflexivity.
Qed.

Lemma from_file_keeps_what_is_there_witness :
  let text := str "x = 1;" ++ [NL] in
  from_file sample_document text =
    Ok (add_section sample_document
          (VEntry (mkEntry parameter (Some (str "x")) (VStr "1")))) /\
  exists v, from_file sample_document text = Ok v /\
    extends sample_document v /\ Vex_len sample_document <= Vex_len v /\
    forall key, Vex_has_key sample_document key = true ->
                Vex_has_key v key = true.
Proof.
  intros text. split; [reflexivity|].
  eexists. split; [reflexivity|].
  apply (@from_file_keeps_what_is_there sample_document _ text). reflexivity.
Defined.

(** ** Statements that never end *)

Lemma step_unfinished (st : ParserState) (l : pystr) :
  unfinished l = true ->
  exists p, step st l = Ok (set_prev_line st (Some p)).
Proof.
  unfold unfinished, step. destruct (strip l) as [|c r]; [discriminate|].
  intros U. apply andb_true_iff in U as [C S].
  apply negb_true_iff in C. rewrite C, S.
  destruct (prev_line st); eexists; reflexivity.
Qed.

Lemma parse_lines_unfinished (tail : list pystr) (st : ParserState) :
  forallb unfinished tail = true ->
  exists p, parse_lines st tail = Ok (set_prev_line st p).
Proof.
  revert st. induction tail as [|l tail IH]; intros st U.
  - exists (prev_line st). now rewrite set_prev_line_same.
  - cbn [forallb] in U. apply andb_true_iff in U as [Ul U].
    destruct (@step_unfinished st l Ul) as [p1 S1].
    rewrite parse_lines_cons, S1, bind_ok.
    destruct (IH (set_prev_line st (Some p1)) U) as [p E].
    exists p. now rewrite E.
Qed.

Lemma from_lines_unfinished (self : Vex) (vexlines tail : list pystr) :
  forallb unfinished tail = true ->
  from_lines self (vexlines ++ tail) = from_lines self vexlines.
Proof.
  intros U. unfold from_lines. rewrite parse_lines_app.
  destruct (parse_lines (initial_state self) vexlines) as [st|err];
    [|reflexivity].
  rewrite !bind_ok. destruct (@parse_lines_unfinished tail st U) as [p E].
  now rewrite E.
Qed.

(** X13.  A statement that is not ended is dropped without a word: lines
    at the end of a file that are neither blank nor comments and have no
    [;] change nothing of what [from_file] gives for the lines before
    them, a result or an exception; a file of such lines only leaves the
    object as it was. *)
Theorem unfinished_tail_is_dropped (self : Vex) (a tail : pystr) :
  forallb unfinished (readlines tail) = true ->
  from_file self (a ++ [NL] ++ tail) = from_file self (a ++ [NL]) /\
  from_file self tail = Ok self.
Proof.
  intros U. unfold from_file. split.
  - change (a ++ [NL] ++ tail) with (a ++ NL :: tail).
    rewrite readlines_app. now apply from_lines_unfinished.
  - rewrite <- (app_nil_l (readlines tail)).
    rewrite from_lines_unfinished by assumption. reflexivity.
Qed.

Lemma unfinished_tail_is_dropped_witness :
  let a := str "$EXPER;" ++ [NL] ++ str "  name = e1;" in
  let tail := str "  target = 3C" ++ [NL] ++ str "   84" ++ [NL] in
  from_file (Vex_init "V") (a ++ [NL] ++ tail) =
    from_file (Vex_init "V") (a ++ [NL]) /\
  from_file (Vex_init "V") tail = Ok (Vex_init "V").
Proof.
  intros a tail.
  exact (@unfinished_tail_is_dropped (Vex_init "V") a tail eq_refl).
Defined.

(** ** Writing a file and reading it *)

Lemma recount_definition_to_string (d : VexDefinition) :
  Definition_to_string (recount_definition d) = Definition_to_string d.
Proof. reflexivity. Qed.

Lemma flat_map_values_map (A : Type) (f : A -> pystr) (g : A -> A)
    (l : list (pykey * A)) :
  (forall c, f (g c) = f c) ->
  flat_map f (od_values (map (fun kc => (fst kc, g (snd kc))) l)) =
  flat_map f (od_values l).
Proof.
  intros H. induction l as [|[k c] l IH]; [reflexivity|].
  cbn [map od_values fst snd flat_map]. rewrite H. f_equal. exact IH.
Qed.

Lemma recount_section_to_string (s : VexSection) :
  Section_to_string (recount_section s) = Section_to_string s.
Proof.
  unfold Section_to_string, Section_str, recount_section.
  cbn [s_name s_definitions]. rewrite flat_map_values_map; [reflexivity|].
  intros [d|e]; reflexivity.
Qed.

Lemma recount_vex_to_string (v : Vex) :
  Vex_to_string (recount_vex v) = Vex_to_string v.
Proof.
  unfold Vex_to_string, Vex_str, recount_vex.
  cbn [v_sections]. apply flat_map_values_map.
  intros [s|d|e]; cbn [recount_vex_child VexChild_to_string];
    [apply recount_section_to_string|reflexivity|reflexivity].
Qed.

Lemma fs_write_read (fs : FileSystem) (path data : pystr) :
  fs_write fs path data path = Some data /\
  forall p, p <> path -> fs_write fs path data p = fs p.
Proof.
  unfold fs_write. split; [now rewrite pystr_eqb_refl|].
  intros p N. apply pystr_eqb_false in N. now rewrite N.
Qed.



(** ** The shape of what [from_file] builds *)

Lemma od_getitem_in (V : Type) (k : pykey) (x : V) (d : odict V) :
  od_getitem k d = Found x -> In (k, x) d.
Proof.
  unfold od_getitem. destruct (od_get k d) as [y|] eqn:G; [|discriminate].
  intros H. injection H as <-. now apply od_get_in.
Qed.

Lemma wf_item_well_filed (kx : pykey * EntryOrList) :
  wf_item kx -> well_filed (fst kx) (snd kx).
Proof.
  destruct kx as [k [e|l]]; unfold wf_item, well_filed; cbn [fst snd].
  - intros [_ F]. exact F.
  - destruct l as [|e0 [|e1 rest]]; try contradiction.
    intros (_ & F0 & F). split; [cbn; lia|]. split.
    + intros e E. cbn [hd_error] in E. injection E as <-. exact F0.
    + intros e I. cbn [tl] in I.
      apply (proj1 (Forall_forall _ _) F) in I. tauto.
Qed.

(** X17.  What a document read from a file looks like through the
    methods of its containers.  It has the name it was made with, no key
    twice at any level, and no block at its top.  A section sits under its
    own name, a block under its own name in its section, an entry that is
    no comment under its own key.  Where a key of a block holds a list,
    the list has two entries or more; all but the first are no comments
    and have that key, and the first has that key unless it is a comment
    (as when a parameter [comment-1] follows the first comment of the
    block). *)
Theorem parsed_document_shape (name text : pystr) (v : Vex) :
  from_file (Vex_init name) text = Ok v ->
  v_name v = name /\ NoDup (Vex_keys v) /\
  forall key c, Vex_getitem v key = Found c ->
    match c with
    | VDefinition _ => False
    | VEntry e => is_comment e = false -> e_key e = key
    | VSection s =>
        key = Some (s_name s) /\ NoDup (Section_keys s) /\
        forall key1 c1, Section_getitem s key1 = Found c1 ->
          match c1 with
          | SEntry e => is_comment e = false -> e_key e = key1
          | SDefinition d =>
              key1 = Some (d_name d) /\ NoDup (Definition_keys d) /\
              forall key2 x, Definition_getitem d key2 = Found x ->
                well_filed key2 x
          end
    end.
Proof.
  intros H. split; [exact (from_file_name _ _ H)|].
  destruct (from_file_wf _ _ H) as [Nv Fv]. split; [exact Nv|].
  intros key c G. apply od_getitem_in in G.
  apply (proj1 (Forall_forall _ _) Fv) in G.
  unfold wf_vex_item in G. cbn [fst snd] in G.
  destruct c as [s|d|e]; [|exact G|exact (proj2 G)].
  destruct G as [K (_ & Ns & Fs)]. split; [exact K|]. split; [exact Ns|].
  intros key1 c1 G1. apply od_getitem_in in G1.
  apply (proj1 (Forall_forall _ _) Fs) in G1.
  unfold wf_section_item in G1. cbn [fst snd] in G1.
  destruct c1 as [d|e]; [|exact (proj2 G1)].
  destruct G1 as [K1 (_ & Nd & Fd)]. split; [exact K1|]. split; [exact Nd|].
  intros key2 x G2. apply od_getitem_in in G2.
  apply (proj1 (Forall_forall _ _) Fd) in G2.
  exact (@wf_item_well_filed (key2, x) G2).
Qed.

Lemma parsed_document_shape_witness :
  v_name sample_document = str "sample" /\ NoDup (Vex_keys sample_document) /\
  forall key c, Vex_getitem sample_document key = Found c ->
    match c with
    | VDefinition _ => False
    | VEntry e => is_comment e = false -> e_key e = key
    | VSection s =>
        key = Some (s_name s) /\ NoDup (Section_keys s) /\
        forall key1 c1, Section_getitem s key1 = Found c1 ->
          match c1 with
          | SEntry e => is_comment e = false -> e_key e = key1
          | SDefinition d =>
              key1 = Some (d_name d) /\ NoDup (Definition_keys d) /\
              forall key2 x, Definition_getitem d key2 = Found x ->
                well_filed key2 x
          end
    end.
Proof.
  apply (@parsed_document_shape (str "sample") sample_text sample_document).
  vm_compute. reflexivity.
Defined.

(** ** A statement over several lines *)

Lemma bind_ret (A : Type) (r : result A) : bind r (fun a => Ok a) = r.
Proof. now destruct r. Qed.

Lemma step_unfinished_pending (st : ParserState) (l : pystr) :
  unfinished l = true ->
  step st l = Ok (set_prev_line st (Some (pending_text (prev_line st) ++ l))).
Proof.
  unfold unfinished, step. destruct (strip l) as [|c r]; [discriminate|].
  intros U. apply andb_true_iff in U as [C S].
  apply negb_true_iff in C. rewrite C, S. now destruct (prev_line st).
Qed.

Lemma parse_lines_pending (ls : list pystr) (l : pystr) (st : ParserState) :
  forallb unfinished (l :: ls) = true ->
  parse_lines st (l :: ls) =
  Ok (set_prev_line st
        (Some (pending_text (prev_line st) ++ List.concat (l :: ls)))).
Proof.
  revert l st. induction ls as [|l' ls IH]; intros l st U.
  - cbn [forallb] in U. apply andb_true_iff in U as [U _].
    rewrite parse_lines_cons, step_unfinished_pending by assumption.
    cbn [List.concat]. now rewrite app_nil_r.
  - pose proof U as U0. cbn [forallb] in U.
    apply andb_true_iff in U as [Ul U].
    rewrite parse_lines_cons, step_unfinished_pending by assumption.
    rewrite bind_ok, IH by exact U.
    cbn [set_prev_line prev_line pending_text List.concat].
    now rewrite <- app_assoc.
Qed.

(** X18.  A statement may run over several lines.  The lines before the
    one with the [;], neither blank nor comments, are put together as they
    are, line breaks and indentation included, and the whole, trimmed at
    its two ends only, is what the chain of tests sees: the result is that
    of the one long line. *)
Theorem statement_over_lines (st : ParserState) (before : list pystr)
    (l : pystr) :
  prev_line st = None -> forallb unfinished before = true ->
  strip l <> [] -> is_comment_line l = false -> contains ";" l = true ->
  parse_lines st (before ++ [l]) = dispatch st (strip (List.concat before ++ l)).
Proof.
  intros P U N C S. rewrite parse_lines_app.
  assert (L : forall st', parse_lines st' [l] = step st' l).
  { intros st'. rewrite parse_lines_cons. apply bind_ret. }
  destruct before as [|b before].
  - change (parse_lines st []) with (Ok st). cbn [List.concat app].
    rewrite bind_ok, L.
    rewrite step_complete by assumption. now rewrite P.
  - rewrite parse_lines_pending by assumption. rewrite bind_ok, L.
    rewrite step_complete by assumption.
    cbn [set_prev_line prev_line]. rewrite P. cbn [pending_text app].
    f_equal. destruct st as [v p s d]. cbn in P. now subst p.
Qed.

Lemma statement_over_lines_witness :
  let st := mkState (Vex_init "V") None None (Some (Definition_init "Jb")) in
  let before := [str "  ref $IF = A:" ++ [NL]; str "     B:" ++ [NL]] in
  let l := str "     C; * end" ++ [NL] in
  parse_lines st (before ++ [l]) =
    dispatch st (strip (List.concat before ++ l)) /\
  parse_lines st (before ++ [l]) =
    Ok (mkState (Vex_init "V") None None
          (Some (add_entry (Definition_init "Jb")
                   (mkEntry variable (Some (str "IF"))
                      (VList [str "A"; NL :: str "     B";
                              NL :: str "     C; * end"]))))).
Proof.
  intros st before l. split; [|reflexivity].
  apply (@statement_over_lines st before l); try reflexivity. discriminate.
Defined.

(** ** The comments of a section and of a document *)

(** One [add_definition]: the key it writes and the counter it leaves. *)
Lemma add_definition_step (s : VexSection) (c : SectionChild) :
  add_definition s c =
  match section_child_key c with
  | Some k => mkSection (s_name s) (od_set k c (s_definitions s))
                (s_number_comments s)
  | None => mkSection (s_name s)
              (od_set (comment_key (S (s_number_comments s))) c
                 (s_definitions s))
              (S (s_number_comments s))
  end.
Proof.
  unfold add_definition, section_child_key, is_comment.
  destruct c as [d|e]; [reflexivity|]. now destruct (e_type e).
Qed.

Lemma add_section_step (v : Vex) (c : VexChild) :
  add_section v c =
  match vex_child_key c with
  | Some k => mkVex (v_name v) (od_set k c (v_sections v))
                (v_number_comments v)
  | None => mkVex (v_name v)
              (od_set (comment_key (S (v_number_comments v))) c
                 (v_sections v))
              (S (v_number_comments v))
  end.
Proof.
  unfold add_section, vex_child_key, is_comment.
  destruct c as [s|d|e]; [reflexivity|reflexivity|]. now destruct (e_type e).
Qed.

Lemma section_child_comment_key (c : SectionChild) :
  section_child_is_comment c = true <-> section_child_key c = None.
Proof.
  destruct c as [d|e]; cbn; [split; discriminate|].
  destruct (is_comment e); split; congruence.
Qed.

Lemma vex_child_comment_key (c : VexChild) :
  vex_child_is_comment c = true <-> vex_child_key c = None.
Proof.
  destruct c as [s|d|e]; cbn; try (split; discriminate).
  destruct (is_comment e); split; congruence.
Qed.

Lemma section_comment_stable (cs : list SectionChild) (s : VexSection)
    (m : nat) :
  plain_section_keys cs = true -> m <= s_number_comments s ->
  od_get (comment_key m) (s_definitions (fold_left add_definition cs s)) =
  od_get (comment_key m) (s_definitions s).
Proof.
  revert s. induction cs as [|c cs IH]; intros s P M; [reflexivity|].
  cbn [plain_section_keys forallb] in P. apply andb_true_iff in P as [Pc P].
  cbn [fold_left]. rewrite add_definition_step.
  destruct (section_child_key c) as [k|].
  - rewrite IH; [|exact P|exact M]. cbn [s_definitions].
    apply od_get_set_other. apply negb_true_iff in Pc.
    intros E. apply (@reserved_key_other _ m Pc). now symmetry.
  - rewrite IH; [|exact P|cbn; lia]. cbn [s_definitions].
    apply od_get_set_other. intros E. apply comment_key_inj in E. lia.
Qed.

Lemma vex_comment_stable (cs : list VexChild) (v : Vex) (m : nat) :
  plain_vex_keys cs = true -> m <= v_number_comments v ->
  od_get (comment_key m) (v_sections (fold_left add_section cs v)) =
  od_get (comment_key m) (v_sections v).
Proof.
  revert v. induction cs as [|c cs IH]; intros v P M; [reflexivity|].
  cbn [plain_vex_keys forallb] in P. apply andb_true_iff in P as [Pc P].
  cbn [fold_left]. rewrite add_section_step.
  destruct (vex_child_key c) as [k|].
  - rewrite IH; [|exact P|exact M]. cbn [v_sections].
    apply od_get_set_other. apply negb_true_iff in Pc.
    intros E. apply (@reserved_key_other _ m Pc). now symmetry.
  - rewrite IH; [|exact P|cbn; lia]. cbn [v_sections].
    apply od_get_set_other. intros E. apply comment_key_inj in E. lia.
Qed.

Lemma section_counter_fold (cs : list SectionChild) (s : VexSection) :
  s_number_comments (fold_left add_definition cs s) =
  s_number_comments s + List.length (filter section_child_is_comment cs).
Proof.
  revert s. induction cs as [|c cs IH]; intros s; [cbn; lia|].
  cbn [fold_left filter]. rewrite IH, add_definition_step.
  pose proof (section_child_comment_key c) as CK.
  destruct (section_child_key c).
  - destruct (section_child_is_comment c); [|reflexivity].
    discriminate (proj1 CK eq_refl).
  - rewrite (proj2 CK eq_refl). cbn. lia.
Qed.

Lemma vex_counter_fold (cs : list VexChild) (v : Vex) :
  v_number_comments (fold_left add_section cs v) =
  v_number_comments v + List.length (filter vex_child_is_comment cs).
Proof.
  revert v. induction cs as [|c cs IH]; intros v; [cbn; lia|].
  cbn [fold_left filter]. rewrite IH, add_section_step.
  pose proof (vex_child_comment_key c) as CK.
  destruct (vex_child_key c).
  - destruct (vex_child_is_comment c); [|reflexivity].
    discriminate (proj1 CK eq_refl).
  - rewrite (proj2 CK eq_refl). cbn. lia.
Qed.

Lemma section_comments_numbered_from (cs : list SectionChild)
    (s : VexSection) (i : nat) (c : SectionChild) :
  plain_section_keys cs = true ->
  nth_error (filter section_child_is_comment cs) i = Some c ->
  od_get (comment_key (S (s_number_comments s + i)))
    (s_definitions (fold_left add_definition cs s)) = Some c.
Proof.
  revert s i. induction cs as [|c0 cs IH]; intros s i P N.
  - destruct i; discriminate N.
  - cbn [plain_section_keys forallb] in P. apply andb_true_iff in P as [Pc P].
    cbn [fold_left filter] in *.
    pose proof (section_child_comment_key c0) as CK.
    rewrite add_definition_step.
    destruct (section_child_key c0) as [k|].
    + assert (F : section_child_is_comment c0 = false).
      { destruct (section_child_is_comment c0); [|reflexivity].
        discriminate (proj1 CK eq_refl). }
      rewrite F in N.
      exact (IH (mkSection (s_name s) (od_set k c0 (s_definitions s))
                   (s_number_comments s)) i P N).
    + rewrite (proj2 CK eq_refl) in N. destruct i as [|i].
      * injection N as <-.
        rewrite Nat.add_0_r, section_comment_stable; [|exact P|cbn; lia].
        cbn [s_definitions]. apply od_get_set_same.
      * cbn [nth_error] in N.
        replace (S (s_number_comments s + S i))
          with (S (S (s_number_comments s) + i)) by lia.
        exact (IH (mkSection (s_name s)
                     (od_set (comment_key (S (s_number_comments s))) c0
                        (s_definitions s)) (S (s_number_comments s))) i P N).
Qed.

Lemma vex_comments_numbered_from (cs : list VexChild) (v : Vex) (i : nat)
    (c : VexChild) :
  plain_vex_keys cs = true ->
  nth_error (filter vex_child_is_comment cs) i = Some c ->
  od_get (comment_key (S (v_number_comments v + i)))
    (v_sections (fold_left add_section cs v)) = Some c.
Proof.
  revert v i. induction cs as [|c0 cs IH]; intros v i P N.
  - destruct i; discriminate N.
  - cbn [plain_vex_keys forallb] in P. apply andb_true_iff in P as [Pc P].
    cbn [fold_left filter] in *.
    pose proof (vex_child_comment_key c0) as CK.
    rewrite add_section_step.
    destruct (vex_child_key c0) as [k|].
    + assert (F : vex_child_is_comment c0 = false).
      { destruct (vex_child_is_comment c0); [|reflexivity].
        discriminate (proj1 CK eq_refl). }
      rewrite F in N.
      exact (IH (mkVex (v_name v) (od_set k c0 (v_sections v))
                   (v_number_comments v)) i P N).
    + rewrite (proj2 CK eq_refl) in N. destruct i as [|i].
      * injection N as <-.
        rewrite Nat.add_0_r, vex_comment_stable; [|exact P|cbn; lia].
        cbn [v_sections]. apply od_get_set_same.
      * cbn [nth_error] in N.
        replace (S (v_number_comments v + S i))
          with (S (S (v_number_comments v) + i)) by lia.
        exact (IH (mkVex (v_name v)
                     (od_set (comment_key (S (v_number_comments v))) c0
                        (v_sections v)) (S (v_number_comments v))) i P N).
Qed.

(** X19.  The comments of a [Section] and of the top of a [Vex]: when no
    other item has a key or a name of the form [comment-...], the container
    built from the empty one counts the comments it was given and holds
    the [i]-th of them under [comment-i]. *)
Theorem section_keeps_comments (name : pystr) (cs : list SectionChild)
    (vs : list VexChild) :
  plain_section_keys cs = true -> plain_vex_keys vs = true ->
  let s := fold_left add_definition cs (Section_init name) in
  let v := fold_left add_section vs (Vex_init name) in
  s_number_comments s = List.length (filter section_child_is_comment cs) /\
  (forall i c, nth_error (filter section_child_is_comment cs) i = Some c ->
     Section_getitem s (comment_key (S i)) = Found c) /\
  v_number_comments v = List.length (filter vex_child_is_comment vs) /\
  (forall i c, nth_error (filter vex_child_is_comment vs) i = Some c ->
     Vex_getitem v (comment_key (S i)) = Found c).
Proof.
  intros Ps Pv s v. unfold s, v, Section_getitem, Vex_getitem, od_getitem.
  split; [now rewrite section_counter_fold|].
  split.
  - intros i c N.
    pose proof (@section_comments_numbered_from cs (Section_init name) i c
                  Ps N) as G.
    cbn [Section_init s_number_comments Nat.add] in G. now rewrite G.
  - split; [now rewrite vex_counter_fold|].
    intros i c N.
    pose proof (@vex_comments_numbered_from vs (Vex_init name) i c Pv N) as G.
    cbn [Vex_init v_number_comments Nat.add] in G. now rewrite G.
Qed.

Lemma section_keeps_comments_witness :
  let c1 := mkEntry comment None (VStr " first") in
  let c2 := mkEntry comment None (VStr " second") in
  let d := SDefinition (Definition_init "Jb") in
  let cs := [SEntry c1; d; SEntry c2] in
  let vs := [VEntry c1; VSection (Section_init "STATION"); VEntry c2] in
  let s := fold_left add_definition cs (Section_init "S") in
  let v := fold_left add_section vs (Vex_init "S") in
  s_number_comments s = List.length (filter section_child_is_comment cs) /\
  (forall i c, nth_error (filter section_child_is_comment cs) i = Some c ->
     Section_getitem s (comment_key (S i)) = Found c) /\
  v_number_comments v = List.length (filter vex_child_is_comment vs) /\
  (forall i c, nth_error (filter vex_child_is_comment vs) i = Some c ->
     Vex_getitem v (comment_key (S i)) = Found c).
Proof.
  intros c1 c2 d cs vs.
  exact (@section_keeps_comments "S" cs vs eq_refl eq_refl).
Defined.

(** ** Blocks that are not closed, blocks outside a section *)

Lemma entries_routed_refl (st : ParserState) : entries_routed st st.
Proof.
  unfold entries_routed. destruct (current_definition st); [|tauto].
  split; [discriminate|tauto].
Qed.

Lemma entries_routed_trans (a b c : ParserState) :
  entries_routed a b -> entries_routed b c -> entries_routed a c.
Proof.
  unfold entries_routed.
  destruct (current_definition a).
  - intros (D & S1 & S2). destruct (current_definition b); [|congruence].
    intros (D' & S1' & S2'). split; [exact D'|]. split; congruence.
  - intros (D & S). rewrite D. intros (D' & S'). split; [exact D'|tauto].
Qed.

Lemma route_entry_routed (st : ParserState) (e : Entry) :
  entries_routed st (route_entry st e).
Proof.
  unfold entries_routed, route_entry.
  destruct (current_definition st), (current_section st);
    cbn [current_definition current_section st_self];
    (split; [discriminate || reflexivity|]); try tauto; try discriminate.
Qed.

Lemma set_prev_line_routed (st : ParserState) (p : option pystr) :
  entries_routed st (set_prev_line st p).
Proof.
  unfold entries_routed, set_prev_line.
  cbn [current_definition current_section st_self].
  destruct (current_definition st); [|tauto]. split; [discriminate|tauto].
Qed.

(** The line that ends a statement, with what was waiting. *)
Lemma step_complete_pending (st : ParserState) (l : pystr) :
  strip l <> [] -> is_comment_line l = false -> contains ";" l = true ->
  step st l =
  dispatch (set_prev_line st None) (strip (pending_text (prev_line st) ++ l)).
Proof.
  intros N C S. rewrite step_complete by assumption.
  destruct (prev_line st) as [p|] eqn:P; [reflexivity|].
  cbn [pending_text app]. f_equal. rewrite <- P. symmetry.
  apply set_prev_line_same.
Qed.

Lemma reads_as_entry_dispatch (st : ParserState) (t : pystr) :
  reads_as_entry t = true ->
  exists e, dispatch st t = Ok (route_entry st e).
Proof.
  unfold reads_as_entry. intros R. apply andb_true_iff in R as [K E].
  apply negb_true_iff in K.
  destruct (entry_from_text t) as [e|err] eqn:T; [|discriminate].
  exists e. rewrite dispatch_entry; [now rewrite T|
    intros ->; discriminate T|exact K].
Qed.

(** Reading lines of comments and entries. *)
Lemma entry_lines_parse (lines : list pystr) :
  forall (st : ParserState) (p : option pystr),
  entry_lines (prev_line st) lines = Some p ->
  exists st', parse_lines st lines = Ok st' /\ prev_line st' = p /\
              entries_routed st st'.
Proof.
  induction lines as [|l lines IH]; intros st p H.
  - cbn in H. injection H as <-. exists st.
    split; [reflexivity|]. split; [reflexivity|apply entries_routed_refl].
  - cbn [entry_lines] in H. rewrite parse_lines_cons.
    destruct (strip l) as [|c r] eqn:S; [discriminate|].
    assert (N : strip l <> []) by (rewrite S; discriminate).
    destruct (Ascii.eqb c "*") eqn:C.
    + assert (Cl : is_comment_line l = true)
        by (unfold is_comment_line; now rewrite S).
      rewrite step_comment, bind_ok by assumption.
      set (e := mkEntry comment None (VStr (tl (strip l)))) in *.
      rewrite <- (route_entry_prev_line st e) in H.
      destruct (IH _ _ H) as (st' & P & Pl & R).
      exists st'. split; [exact P|]. split; [exact Pl|].
      exact (@entries_routed_trans _ _ _ (route_entry_routed st e) R).
    + assert (Cl : is_comment_line l = false)
        by (unfold is_comment_line; now rewrite S).
      destruct (contains ";" l) eqn:Sc; cbn [negb] in H.
      * rewrite step_complete_pending by assumption.
        destruct (reads_as_entry (strip (pending_text (prev_line st) ++ l)))
          eqn:Re; [|discriminate].
        destruct (@reads_as_entry_dispatch (set_prev_line st None) _ Re)
          as [e D].
        rewrite D, bind_ok.
        assert (Pn : prev_line (route_entry (set_prev_line st None) e) = None)
          by now rewrite route_entry_prev_line.
        rewrite <- Pn in H.
        destruct (IH _ _ H) as (st' & P & Pl & R).
        exists st'. split; [exact P|]. split; [exact Pl|].
        refine (@entries_routed_trans _ _ _ _ R).
        exact (@entries_routed_trans _ _ _ (set_prev_line_routed st None)
                 (route_entry_routed _ e)).
      * assert (U : unfinished l = true)
          by (unfold unfinished; now rewrite S, C, Sc).
        rewrite step_unfinished_pending, bind_ok by assumption.
        destruct (IH (set_prev_line st
                        (Some (pending_text (prev_line st) ++ l))) p H)
          as (st' & P & Pl & R).
        exists st'. split; [exact P|]. split; [exact Pl|].
        exact (@entries_routed_trans _ _ _ (set_prev_line_routed st _) R).
Qed.

Lemma opens_a_block_line (l : pystr) :
  opens_a_block l = true ->
  strip l <> [] /\ is_comment_line l = false /\ contains ";" l = true /\
  In ";"%char (strip l) /\ startswith "$" (strip l) = false /\
  startswith "enddef" (strip l) = false /\
  (startswith "def " (strip l) = true \/
   (startswith "def " (strip l) = false /\ startswith "scan " (strip l) = true)).
Proof.
  unfold opens_a_block, opens_block, is_comment_line. intros H.
  apply andb_true_iff in H as [Sc O].
  assert (I : In ";"%char (strip l)).
  { apply in_strip; [|reflexivity]. now apply (contains_char_in ";"%char). }
  apply orb_true_iff in O as [O|O];
    destruct (startswith_head _ _ _ O) as [t E]; rewrite E in *.
  - repeat split; try discriminate; try assumption; try reflexivity.
    now left.
  - repeat split; try discriminate; try assumption; try reflexivity.
    now right.
Qed.

(** The head of a block, read with nothing waiting and no block open,
    opens a block and changes nothing else. *)
Lemma step_opens_a_block (st : ParserState) (head : pystr) :
  prev_line st = None -> current_definition st = None ->
  opens_a_block head = true ->
  exists d, step st head =
            Ok (mkState (st_self st) None (current_section st) (Some d)).
Proof.
  intros P D O.
  destruct (opens_a_block_line _ O) as (N & C & Sc & I & Dl & _ & K).
  rewrite step_complete by assumption. rewrite P.
  rewrite dispatch_keywords by assumption.
  destruct (@name_upto_semicolon_ok 4 _ I) as [n4 N4].
  destruct (@name_upto_semicolon_ok 5 _ I) as [n5 N5].
  unfold open_definition. rewrite D, P.
  destruct K as [K|[K1 K2]].
  - rewrite K, N4. eexists. reflexivity.
  - rewrite K1.
    destruct (startswith "enddef" (strip head)) eqn:E.
    + destruct (startswith_head _ _ _ K2) as [t Et]. rewrite Et in E.
      discriminate E.
    + rewrite K2, N5. eexists. reflexivity.
Qed.

(** X14.  A block that is never closed is dropped without a word.  When
    the lines before the head of a block are read and leave nothing
    waiting and no block open, and the lines after the head, up to the end
    of the file, hold comments and entries only, [from_file] gives what it
    gives for the lines before the head: the block, its entries and what
    was still waiting are lost, and nothing is raised. *)
Theorem unclosed_block_is_dropped (self : Vex) (pre body : list pystr)
    (head : pystr) (st : ParserState) (p : option pystr) :
  parse_lines (initial_state self) pre = Ok st ->
  prev_line st = None -> current_definition st = None ->
  opens_a_block head = true -> entry_lines None body = Some p ->
  from_lines self (pre ++ head :: body) = from_lines self pre /\
  from_lines self pre = Ok (finish st).
Proof.
  intros P Pl D O B. unfold from_lines.
  rewrite parse_lines_app, P, !bind_ok, parse_lines_cons.
  destruct (@step_opens_a_block st head Pl D O) as [d S].
  rewrite S, bind_ok.
  destruct (@entry_lines_parse body
              (mkState (st_self st) None (current_section st) (Some d)) p B)
    as (st' & P' & _ & R).
  rewrite P', bind_ok. unfold entries_routed in R.
  cbn [current_definition st_self current_section] in R.
  destruct R as (_ & R1 & R2). unfold finish. now rewrite R1, R2.
Qed.

Lemma unclosed_block_is_dropped_witness :
  let pre := [str "$STATION;" ++ [NL]; str "* sites" ++ [NL]] in
  let head := str " def Jb ;" ++ [NL] in
  let body := [str "x=1;" ++ [NL]; str "* note" ++ [NL];
               str "  ref $IF = A:" ++ [NL]; str "   B; ref $IF = C" ++ [NL];
               str " y = " ++ [NL]] in
  let st := mkState (Vex_init "V") None
              (Some (add_definition (Section_init "STATION")
                       (SEntry (mkEntry comment None (VStr " sites"))))) None in
  from_lines (Vex_init "V") (pre ++ head :: body) =
    from_lines (Vex_init "V") pre /\
  from_lines (Vex_init "V") pre = Ok (finish st).
Proof.
  intros pre head body st.
  exact (@unclosed_block_is_dropped (Vex_init "V") pre body head st
           (Some (str " y = " ++ [NL])) eq_refl eq_refl eq_refl eq_refl eq_refl).
Defined.

Lemma closes_a_block_line (l : pystr) :
  closes_a_block l = true ->
  strip l <> [] /\ is_comment_line l = false /\ contains ";" l = true /\
  startswith "$" (strip l) = false /\ startswith "def " (strip l) = false /\
  (startswith "enddef" (strip l) = true \/
   (startswith "scan " (strip l) = false /\
    startswith "endscan" (strip l) = true)).
Proof.
  unfold closes_a_block, closes_block, is_comment_line. intros H.
  apply andb_true_iff in H as [Sc O].
  apply orb_true_iff in O as [O|O];
    destruct (startswith_head _ _ _ O) as [t E]; rewrite E in *.
  - repeat split; try discriminate; try assumption; try reflexivity.
    now left.
  - repeat split; try discriminate; try assumption; try reflexivity.
    right. now split.
Qed.

(** The end of a block, read with a block open and no section open. *)
Lemma step_closes_without_section (st : ParserState) (closing : pystr) :
  prev_line st = None -> current_definition st <> None ->
  current_section st = None -> closes_a_block closing = true ->
  step st closing = Raise AttributeError.
Proof.
  intros P D S O.
  destruct (closes_a_block_line _ O) as (N & C & Sc & Dl & Df & K).
  rewrite step_complete by assumption. rewrite P.
  rewrite dispatch_keywords by assumption. rewrite Df.
  unfold close_definition. rewrite S.
  destruct (current_definition st) as [d|]; [|congruence].
  destruct K as [K|[K1 K2]].
  - now rewrite K.
  - rewrite K1, K2. now destruct (startswith "enddef" (strip closing)).
Qed.

(** X15.  A block needs an open section.  When the lines before the head
    of a block hold comments and entries only, so that no section is
    open, and the lines of the block hold comments and entries only, the
    line that begins with [enddef] or [endscan] hands the block to [None],
    and [from_file] raises [AttributeError], whatever the object holds
    already and whatever follows. *)
Theorem block_outside_a_section_fails (self : Vex)
    (pre body rest : list pystr) (head closing : pystr) :
  entry_lines None pre = Some None -> opens_a_block head = true ->
  entry_lines None body = Some None -> closes_a_block closing = true ->
  from_lines self (pre ++ head :: body ++ closing :: rest) =
  Raise AttributeError.
Proof.
  intros Pre O B Cl. unfold from_lines.
  destruct (@entry_lines_parse pre (initial_state self) None Pre)
    as (st0 & P0 & Pl0 & R0).
  unfold entries_routed in R0.
  cbn [initial_state current_definition current_section] in R0.
  destruct R0 as [D0 S0]. specialize (S0 eq_refl).
  destruct (@step_opens_a_block st0 head Pl0 D0 O) as [d S].
  destruct (@entry_lines_parse body
              (mkState (st_self st0) None (current_section st0) (Some d))
              None B) as (st1 & P1 & Pl1 & R1).
  unfold entries_routed in R1.
  cbn [current_definition current_section st_self] in R1.
  destruct R1 as (D1 & _ & S1). rewrite S0 in S1.
  rewrite parse_lines_app, P0, bind_ok, parse_lines_cons, S, bind_ok.
  rewrite parse_lines_app, P1, bind_ok, parse_lines_cons.
  now rewrite (@step_closes_without_section st1 closing Pl1 D1 S1 Cl).
Qed.

Lemma block_outside_a_section_fails_witness :
  from_lines sample_document
    ([str "* a schedule" ++ [NL]; str "rev = 1.5;" ++ [NL]] ++
     (str "scan No1;" ++ [NL]) ::
     [str " start = 2018y;" ++ [NL]] ++
     (str "endscan;" ++ [NL]) :: [str "$SCHED;" ++ [NL]]) =
  Raise AttributeError.
Proof.
  exact (@block_outside_a_section_fails sample_document
           [str "* a schedule" ++ [NL]; str "rev = 1.5;" ++ [NL]]
           [str " start = 2018y;" ++ [NL]] [str "$SCHED;" ++ [NL]]
           (str "scan No1;" ++ [NL]) (str "endscan;" ++ [NL])
           eq_refl eq_refl eq_refl eq_refl).
Defined.
